(** * Chess trainer: move validation, attempt recording, position selection

    A shallow embedding of the database-facing core of the trainer
    ([training.py], [jsonl_loader.py], the submit handler of [app.py]) over an
    explicit model of the SQLite store declared in [database.py].

    Tables are lists of rows in storage order.  Every function of the source
    opens its own connection, runs its statements through a cursor and closes
    the connection; the embedding threads the store through a state-and-error
    monad and keeps the open/closed status of the connection, because a
    statement run through a cursor of a closed connection raises
    [sqlite3.ProgrammingError].  The functions that call [json.loads] take
    the decoder of the [json] module as an argument. *)

From Stdlib Require Import ZArith String.
From Stdlib Require Import Floats.PrimFloat Uint63.
From stdpp Require Import base option list strings pretty sorting gmap.

Local Open Scope string_scope.
Local Open Scope Z_scope.

(** ** Rows of the schema ([database.py], [init_db]) *)

(** What Python reads from a column declared JSON that may be NULL: the
    declared type gives the column NUMERIC affinity, so besides text it can
    hold an integer or a real (a text that spells a number is stored as
    one).  No statement of the program binds bytes. *)
Inductive sql_value :=
  | SqlNull
  | SqlInteger (n : Z)
  | SqlReal (x : float)
  | SqlText (s : string).

(** A TEXT column that may be NULL, as such a value. *)
Definition text_value (v : option string) : sql_value :=
  match v with
  | Some s => SqlText s
  | None => SqlNull
  end.

(** [positions]: [position_classification] is TEXT, [metadata] is JSON, and
    neither is NOT NULL. *)
Record position_row := {
  pos_id : Z;
  pos_fen : string;
  pos_turn : string;
  pos_fullmove_number : Z;
  pos_timestamp : option string;
  pos_position_classification : option string;
  pos_metadata : sql_value
}.

(** [moves]: one candidate move of one position. *)
Record move_row := {
  mv_id : Z;
  mv_position_id : Z;
  mv_move : string;
  mv_uci : string;
  mv_score : Z;
  mv_depth : Z;
  mv_centipawn_loss : Z;
  mv_classification : string;
  mv_principal_variation : option string;
  mv_tactics : sql_value;
  mv_position_impact : sql_value;
  mv_rank : Z
}.

(** [user_moves]: one attempt; [time_taken] is a REAL column fed with a
    Python float, [timestamp] defaults to CURRENT_TIMESTAMP. *)
Record user_move_row := {
  um_id : Z;
  um_user_id : Z;
  um_position_id : Z;
  um_move_id : Z;
  um_time_taken : float;
  um_result : string;
  um_timestamp : string;
  um_openai_analysis : option string
}.

(** [user_settings]: one row per user. *)
Record user_settings_row := {
  us_user_id : Z;
  us_random_positions : bool;
  us_top_n_threshold : Z;
  us_score_difference_threshold : Z;
  us_theme : string
}.

(** The store.  [user_moves_seq] is the [sqlite_sequence] entry of
    [user_moves], whose key is AUTOINCREMENT. *)
Record DB := {
  positions : list position_row;
  moves : list move_row;
  user_moves : list user_move_row;
  user_moves_seq : Z;
  user_settings : list user_settings_row
}.

Definition set_user_moves (f : list user_move_row → list user_move_row)
    (seq : Z) (db : DB) : DB :=
  {| positions := positions db; moves := moves db;
     user_moves := f (user_moves db); user_moves_seq := seq;
     user_settings := user_settings db |}.

Definition set_positions (ps : list position_row) (db : DB) : DB :=
  {| positions := ps; moves := moves db;
     user_moves := user_moves db; user_moves_seq := user_moves_seq db;
     user_settings := user_settings db |}.

Definition set_moves (ms : list move_row) (db : DB) : DB :=
  {| positions := positions db; moves := ms;
     user_moves := user_moves db; user_moves_seq := user_moves_seq db;
     user_settings := user_settings db |}.

Definition set_openai_analysis (text : option string) (r : user_move_row)
    : user_move_row :=
  {| um_id := um_id r; um_user_id := um_user_id r;
     um_position_id := um_position_id r; um_move_id := um_move_id r;
     um_time_taken := um_time_taken r; um_result := um_result r;
     um_timestamp := um_timestamp r; um_openai_analysis := text |}.

(** ** Exceptions and the state-and-error monad *)

Inductive exn :=
  | ProgrammingError (msg : string)   (* sqlite3.ProgrammingError *)
  | KeyError (key : string)           (* a missing dict key *)
  | TypeError (msg : string)          (* subscripting None, decoding no str *)
  | JSONDecodeError (msg : string).   (* json.JSONDecodeError *)

(** [str(e)]. *)
Definition exn_str (e : exn) : string :=
  match e with
  | ProgrammingError msg => msg
  | KeyError key => "'" +:+ key +:+ "'"
  | TypeError msg => msg
  | JSONDecodeError msg => msg
  end.

Definition M (A : Type) : Type := DB → (exn + A) * DB.

Global Instance M_ret : MRet M := λ A (a : A) db, (inr a, db).

Global Instance M_bind : MBind M := λ A B (k : A → M B) (m : M A) db,
  match m db with
  | (inr a, db') => k a db'
  | (inl e, db') => (inl e, db')
  end.

Definition raise {A} (e : exn) : M A := λ db, (inl e, db).

(** [try: ... except sqlite3.Error: conn.rollback(); ...]: the handler sees
    the store as it was when the uncommitted transaction began. *)
Definition try_except_rollback {A} (body : M A) (handler : exn → M A) : M A :=
  λ db, match body db with
        | (inr a, db') => (inr a, db')
        | (inl e, _) => handler e db
        end.

(** ** Connections and cursors ([sqlite3]) *)

Record connection := { conn_closed : bool }.

Definition get_db_connection : M connection :=
  mret {| conn_closed := false |}.

Definition close (conn : connection) : connection := {| conn_closed := true |}.

Definition closed_database : exn :=
  ProgrammingError "Cannot operate on a closed database.".

(** [cursor.execute] of a SELECT: the result set, unless the connection of
    the cursor has been closed. *)
Definition execute {A} (conn : connection) (query : DB → list A)
    : M (list A) :=
  λ db, if conn_closed conn then (inl closed_database, db)
        else (inr (query db), db).

(** [cursor.execute] of an INSERT, UPDATE or DELETE. *)
Definition execute_dml (conn : connection) (stmt : DB → DB) : M unit :=
  λ db, if conn_closed conn then (inl closed_database, db)
        else (inr tt, stmt db).

(** [conn.commit()]: every writer of the source commits before it closes, and
    no reader runs in between, so writes are applied as they are executed. *)
Definition commit (conn : connection) : M unit :=
  λ db, if conn_closed conn then (inl closed_database, db) else (inr tt, db).

Definition fetchone {A} (rows : list A) : option A := head rows.

(** ** SQL aggregates and Python truthiness *)

(** MAX and MIN over a column: NULL on no rows. *)
Definition sql_max (xs : list Z) : option Z :=
  match xs with
  | [] => None
  | x :: xs' => Some (foldr Z.max x xs')
  end.

Definition sql_min (xs : list Z) : option Z :=
  match xs with
  | [] => None
  | x :: xs' => Some (foldr Z.min x xs')
  end.

(** [bool(v)] for [v] an int or None. *)
Definition truthy (v : option Z) : bool :=
  match v with
  | Some n => negb (n =? 0)
  | None => false
  end.

(** ** The statements of [training.py] *)

Definition select_user_settings (user_id : Z) (db : DB)
    : list user_settings_row :=
  filter (λ s, us_user_id s = user_id) (user_settings db).

Definition select_selected_move (position_id : Z) (selected_move : string)
    (db : DB) : list move_row :=
  filter (λ m, mv_position_id m = position_id ∧ mv_move m = selected_move)
         (moves db).

Definition select_top_move (position_id : Z) (db : DB) : list move_row :=
  filter (λ m, mv_position_id m = position_id ∧ mv_rank m = 1) (moves db).

Definition select_position (position_id : Z) (db : DB) : list position_row :=
  filter (λ p, pos_id p = position_id) (positions db).

Definition rank_le (a b : move_row) : Prop := mv_rank a ≤ mv_rank b.

Global Instance rank_le_dec a b : Decision (rank_le a b) := Z_le_dec _ _.

(** [SELECT ... FROM moves WHERE position_id = ? ORDER BY rank]. *)
Definition select_moves_by_rank (position_id : Z) (db : DB) : list move_row :=
  merge_sort rank_le (filter (λ m, mv_position_id m = position_id) (moves db)).

(** [SELECT MAX(position_id) FROM user_moves WHERE user_id = ?]: an
    aggregate always yields one row. *)
Definition select_last_position (user_id : Z) (db : DB) : list (option Z) :=
  [sql_max (um_position_id <$> filter (λ r, um_user_id r = user_id)
                                      (user_moves db))].

(** [SELECT MIN(id) FROM positions WHERE id > ?]. *)
Definition select_next_position (last_position_id : Z) (db : DB)
    : list (option Z) :=
  [sql_min (pos_id <$> filter (λ p, last_position_id < pos_id p)
                              (positions db))].

(** [SELECT MIN(id) FROM positions]. *)
Definition select_first_position (db : DB) : list (option Z) :=
  [sql_min (pos_id <$> positions db)].

(** ** [json.loads] *)

(** The values [json.loads] returns: None, a bool, an int, a float, a str, a
    list or a dict (its items in order). *)
#[warnings="-register-all"] Inductive json :=
  | JNone
  | JBool (b : bool)
  | JInt (n : Z)
  | JFloat (x : float)
  | JStr (s : string)
  | JList (items : list json)
  | JDict (items : list (string * json)).

(** [json.loads] raises [TypeError] on anything but a str (or bytes). *)
Definition not_str (type_name : string) : exn :=
  TypeError ("the JSON object must be str, bytes or bytearray, not "
             +:+ type_name).

(** [json.loads(v)] for [v] read from a column.  The decoder of the [json]
    module is the argument [decode]: the value a text stands for, or the
    message of the [JSONDecodeError] it raises. *)
Definition json_loads (decode : string → string + json) (v : sql_value)
    : M json :=
  match v with
  | SqlText s =>
      match decode s with
      | inr value => mret value
      | inl msg => raise (JSONDecodeError msg)
      end
  | SqlNull => raise (not_str "NoneType")
  | SqlInteger _ => raise (not_str "int")
  | SqlReal _ => raise (not_str "float")
  end.

(** ** [get_position_by_id] *)

(** A candidate as [moves_data] holds it: the selected columns of its row,
    with ['tactics'] and ['position_impact'] decoded. *)
Record move_data := {
  md_id : Z;
  md_move : string;
  md_uci : string;
  md_score : Z;
  md_depth : Z;
  md_centipawn_loss : Z;
  md_classification : string;
  md_principal_variation : option string;
  md_tactics : json;
  md_position_impact : json;
  md_rank : Z
}.

(** The dict the function returns: the position's columns, the two JSON ones
    decoded, and, under ['moves'], its candidates in rank order. *)
Record position_data := {
  pd_id : Z;
  pd_fen : string;
  pd_turn : string;
  pd_fullmove_number : Z;
  pd_position_classification : json;
  pd_metadata : json;
  pd_moves : list move_data
}.

(** The loop that fills [moves_data]. *)
Fixpoint moves_data (decode : string → string + json)
    (moves : list move_row) : M (list move_data) :=
  match moves with
  | [] => mret []
  | move :: moves' =>
      tactics ← json_loads decode (mv_tactics move);
      position_impact ← json_loads decode (mv_position_impact move);
      let move_dict :=
        {| md_id := mv_id move; md_move := mv_move move;
           md_uci := mv_uci move; md_score := mv_score move;
           md_depth := mv_depth move;
           md_centipawn_loss := mv_centipawn_loss move;
           md_classification := mv_classification move;
           md_principal_variation := mv_principal_variation move;
           md_tactics := tactics; md_position_impact := position_impact;
           md_rank := mv_rank move |} in
      rest ← moves_data decode moves';
      mret (move_dict :: rest)
  end.

Definition get_position_by_id (decode : string → string + json)
    (position_id : Z) : M (option position_data) :=
  conn ← get_db_connection;
  rows ← execute conn (select_position position_id);
  match fetchone rows with
  | None =>
      let conn := close conn in
      mret None
  | Some position =>
      position_classification ←
        json_loads decode (text_value (pos_position_classification position));
      metadata ← json_loads decode (pos_metadata position);
      moves ← execute conn (select_moves_by_rank position_id);
      moves_data ← moves_data decode moves;
      let conn := close conn in
      mret (Some {| pd_id := pos_id position;
                    pd_fen := pos_fen position;
                    pd_turn := pos_turn position;
                    pd_fullmove_number := pos_fullmove_number position;
                    pd_position_classification := position_classification;
                    pd_metadata := metadata;
                    pd_moves := moves_data |})
  end.

(** ** [get_sequential_position] *)

Definition get_sequential_position (decode : string → string + json)
    (user_id : Z) : M (option position_data) :=
  conn ← get_db_connection;
  rows ← execute conn (select_last_position user_id);
  let last_position_id :=
    match fetchone rows with
    | Some last_position => if truthy last_position
                            then default 0 last_position else 0
    | None => 0
    end in
  rows ← execute conn (select_next_position last_position_id);
  let next_position_id :=
    match fetchone rows with
    | Some next_position => if truthy next_position then next_position
                            else None
    | None => None
    end in
  let conn := close conn in
  next_position_id ←
    (if negb (truthy next_position_id) then
       rows ← execute conn select_first_position;
       mret (match fetchone rows with
             | Some first_position => first_position
             | None => None
             end)
     else mret next_position_id);
  match next_position_id with
  | Some id => if truthy next_position_id
               then get_position_by_id decode id
               else mret None
  | None => mret None
  end.

(** ** [validate_move] *)

(** The dict the function returns; a key the dict lacks is [None]. *)
Record validation := {
  v_success : bool;
  v_move_id : option Z;
  v_rank : option Z;
  v_score : option Z;
  v_classification : option string;
  v_centipawn_loss : option Z;
  v_score_difference : option Z;
  v_result : option string;
  v_message : string
}.

(** The dict [validate_move] returns when a lookup comes back empty. *)
Definition not_found : validation :=
  {| v_success := false;
     v_move_id := None; v_rank := None; v_score := None;
     v_classification := None; v_centipawn_loss := None;
     v_score_difference := None; v_result := None;
     v_message := "Move not found or position invalid" |}.

Definition validate_move (position_id : Z) (selected_move : string)
    (user_id : Z) : M validation :=
  conn ← get_db_connection;
  rows ← execute conn (select_user_settings user_id);
  let settings := fetchone rows in
  let top_n_threshold :=
    match settings with Some s => us_top_n_threshold s | None => 3 end in
  let score_difference_threshold :=
    match settings with
    | Some s => us_score_difference_threshold s
    | None => 10
    end in
  rows ← execute conn (select_selected_move position_id selected_move);
  let selected_move_data := fetchone rows in
  rows ← execute conn (select_top_move position_id);
  let top_move := fetchone rows in
  match selected_move_data, top_move with
  | Some selected_move_data, Some top_move =>
      let move_id := mv_id selected_move_data in
      let rank := mv_rank selected_move_data in
      let score_difference :=
        Z.abs (mv_score selected_move_data - mv_score top_move) in
      let is_success :=
        (rank <=? top_n_threshold)
        && (score_difference <=? score_difference_threshold) in
      let result := if is_success then "pass" else "fail" in
      let conn := close conn in
      mret {| v_success := is_success;
              v_move_id := Some move_id;
              v_rank := Some rank;
              v_score := Some (mv_score selected_move_data);
              v_classification :=
                Some (mv_classification selected_move_data);
              v_centipawn_loss :=
                Some (mv_centipawn_loss selected_move_data);
              v_score_difference := Some score_difference;
              v_result := Some result;
              v_message :=
                "Move ranked #" +:+ pretty rank +:+
                (if (rank <=? top_n_threshold) && negb is_success
                 then ", but score difference too high: "
                      +:+ pretty score_difference
                 else "") |}
  | _, _ =>
      let conn := close conn in
      mret not_found
  end.

(** ** [record_user_move] and [save_openai_analysis] *)

(** The rowid an AUTOINCREMENT key gets: one more than the largest rowid the
    table has ever held. *)
Definition next_rowid (seq : Z) (ids : list Z) : Z :=
  Z.max seq (default 0 (sql_max ids)) + 1.

(** [INSERT INTO user_moves (user_id, position_id, move_id, time_taken,
    result) VALUES (...)], with [now] the value of CURRENT_TIMESTAMP. *)
Definition insert_user_move (now : string) (user_id position_id move_id : Z)
    (time_taken : float) (result : string) (db : DB) : DB :=
  let id := next_rowid (user_moves_seq db) (um_id <$> user_moves db) in
  set_user_moves
    (λ rows, (rows ++ [{| um_id := id; um_user_id := user_id;
                          um_position_id := position_id;
                          um_move_id := move_id;
                          um_time_taken := time_taken;
                          um_result := result;
                          um_timestamp := now;
                          um_openai_analysis := None |}])%list)
    id db.

(** [cursor.lastrowid] after the insert. *)
Definition lastrowid (conn : connection) : M Z :=
  λ db, (inr (user_moves_seq db), db).

Definition record_user_move (now : string) (user_id position_id move_id : Z)
    (time_taken : float) (result : string) : M Z :=
  conn ← get_db_connection;
  execute_dml conn
    (insert_user_move now user_id position_id move_id time_taken result);;
  move_record_id ← lastrowid conn;
  commit conn;;
  let conn := close conn in
  mret move_record_id.

(** The row the UPDATE leaves in the place of [r]. *)
Definition attached (move_record_id : Z) (analysis_text : string)
    (r : user_move_row) : user_move_row :=
  if decide (um_id r = move_record_id)
  then set_openai_analysis (Some analysis_text) r else r.

(** [UPDATE user_moves SET openai_analysis = ? WHERE id = ?]. *)
Definition update_openai_analysis (analysis_text : string)
    (move_record_id : Z) (db : DB) : DB :=
  set_user_moves (fmap (attached move_record_id analysis_text))
                 (user_moves_seq db) db.

Definition save_openai_analysis (move_record_id : Z) (analysis_text : string)
    : M bool :=
  conn ← get_db_connection;
  execute_dml conn (update_openai_analysis analysis_text move_record_id);;
  commit conn;;
  let conn := close conn in
  mret true.

(** ** [clear_positions] ([jsonl_loader.py]) *)

(** [SELECT COUNT( * ) FROM user_moves]. *)
Definition select_count_user_moves (db : DB) : list Z :=
  [Z.of_nat (length (user_moves db))].

Definition not_subscriptable : exn :=
  TypeError "'NoneType' object is not subscriptable".

(** The refusal, which names the number of attempts on record. *)
Definition cannot_clear (user_moves_count : Z) : string :=
  "Cannot clear positions: " +:+ pretty user_moves_count +:+
  " user moves would be lost. Export user data first.".

Definition clear_positions : M (bool * string) :=
  conn ← get_db_connection;
  try_except_rollback
    (rows ← execute conn select_count_user_moves;
     user_moves_count ←
       match fetchone rows with
       | Some count => mret count
       | None => raise not_subscriptable
       end;
     if 0 <? user_moves_count then
       let conn := close conn in
       mret (false, cannot_clear user_moves_count)
     else
       execute_dml conn (set_moves []);;
       execute_dml conn (set_positions []);;
       commit conn;;
       let conn := close conn in
       mret (true, "All positions and moves cleared successfully."))
    (λ e,
       let conn := close conn in
       match e with
       | ProgrammingError _ =>
           mret (false, "Database error: " +:+ exn_str e)
       | _ => mret (false, "Error clearing positions: " +:+ exn_str e)
       end).

(** ** The "Submit Move" handler of the training page ([app.py]) *)

(** What the page shows: [st.success], [st.error] or [st.warning]. *)
Inductive feedback :=
  | Success (msg : string)
  | Error (msg : string)
  | Warning (msg : string).

(** The warning for a legal move the engine did not rank. *)
Definition not_among_top (selected_move : string) : feedback :=
  Warning ("Move " +:+ selected_move +:+
           " is legal but not among the top engine recommendations.").

(** [d[key]] on a dict that may lack the key. *)
Definition subscript {A} (key : string) (v : option A) : M A :=
  match v with
  | Some a => mret a
  | None => raise (KeyError key)
  end.

(** The handler, as far as the store and [session_state.last_move_record]
    go: its result is the feedback shown and the new [last_move_record].
    The board update and the moves table touch neither. *)
Definition submit_move (now : string) (position : position_data)
    (selected_move : string) (user_id : Z) (elapsed_time : float)
    (last_move_record : option Z) : M (feedback * option Z) :=
  let top_move_dict :=
    head (filter (λ m, md_move m = selected_move) (pd_moves position)) in
  match top_move_dict with
  | Some _ =>
      validation ← validate_move (pd_id position) selected_move user_id;
      if v_success validation then
        let shown := Success ("Correct! " +:+ v_message validation) in
        move_id ← subscript "move_id" (v_move_id validation);
        result ← subscript "result" (v_result validation);
        move_record_id ←
          record_user_move now user_id (pd_id position) move_id
                           elapsed_time result;
        mret (shown, Some move_record_id)
      else
        let shown := Error ("Incorrect. " +:+ v_message validation) in
        move_id ← subscript "move_id" (v_move_id validation);
        result ← subscript "result" (v_result validation);
        move_record_id ←
          record_user_move now user_id (pd_id position) move_id
                           elapsed_time result;
        mret (shown, Some move_record_id)
  | None =>
      let shown := not_among_top selected_move in
      match last (pd_moves position) with
      | Some lowest_move =>
          let move_id := Some (md_id lowest_move) in
          move_id ←
            (if negb (truthy move_id) then
               conn ← get_db_connection;
               rows ← execute conn
                        (λ db, take 1 (select_selected_move
                                         (pd_id position)
                                         (md_move lowest_move) db));
               let result := fetchone rows in
               let move_id := mv_id <$> result in
               let conn := close conn in
               mret move_id
             else mret move_id);
          match move_id with
          | Some id =>
              if truthy move_id then
                move_record_id ←
                  record_user_move now user_id (pd_id position) id
                                   elapsed_time "fail";
                mret (shown, Some move_record_id)
              else mret (shown, last_move_record)
          | None => mret (shown, last_move_record)
          end
      | None => mret (shown, last_move_record)
      end
  end.

(** ** [get_random_position] ([training.py]) *)

(** [SELECT id FROM positions ORDER BY RANDOM() LIMIT 1]: the order SQLite
    draws is the argument [random_order]. *)
Definition select_random_position
    (random_order : list position_row → list position_row) (db : DB)
    : list Z :=
  take 1 (pos_id <$> random_order (positions db)).

Definition get_random_position (decode : string → string + json)
    (random_order : list position_row → list position_row)
    : M (option position_data) :=
  conn ← get_db_connection;
  rows ← execute conn (select_random_position random_order);
  let position := fetchone rows in
  let conn := close conn in
  match position with
  | Some id => get_position_by_id decode id
  | None => mret None
  end.

(** ** [get_user_settings] and [update_user_settings] ([auth.py],
    [settings.py]) *)

(** [dict(settings) if settings else None]. *)
Definition get_user_settings (user_id : Z) : M (option user_settings_row) :=
  conn ← get_db_connection;
  rows ← execute conn (select_user_settings user_id);
  let settings := fetchone rows in
  let conn := close conn in
  mret settings.

(** An item of the dict handed to [update_user_settings]: one of the four
    valid keys with a value of its column's type, as the settings page
    passes them, or any other key. *)
Inductive setting :=
  | RandomPositions (value : bool)
  | TopNThreshold (value : Z)
  | ScoreDifferenceThreshold (value : Z)
  | Theme (value : string)
  | OtherKey (key : string).

(** [k in valid_keys]. *)
Definition valid_key (item : setting) : bool :=
  match item with
  | OtherKey _ => false
  | _ => true
  end.

(** The row after [SET key = value]. *)
Definition set_setting (item : setting) (s : user_settings_row)
    : user_settings_row :=
  match item with
  | RandomPositions value =>
      {| us_user_id := us_user_id s; us_random_positions := value;
         us_top_n_threshold := us_top_n_threshold s;
         us_score_difference_threshold := us_score_difference_threshold s;
         us_theme := us_theme s |}
  | TopNThreshold value =>
      {| us_user_id := us_user_id s;
         us_random_positions := us_random_positions s;
         us_top_n_threshold := value;
         us_score_difference_threshold := us_score_difference_threshold s;
         us_theme := us_theme s |}
  | ScoreDifferenceThreshold value =>
      {| us_user_id := us_user_id s;
         us_random_positions := us_random_positions s;
         us_top_n_threshold := us_top_n_threshold s;
         us_score_difference_threshold := value;
         us_theme := us_theme s |}
  | Theme value =>
      {| us_user_id := us_user_id s;
         us_random_positions := us_random_positions s;
         us_top_n_threshold := us_top_n_threshold s;
         us_score_difference_threshold := us_score_difference_threshold s;
         us_theme := value |}
  | OtherKey _ => s
  end.

Definition set_user_settings (rows : list user_settings_row) (db : DB) : DB :=
  {| positions := positions db; moves := moves db;
     user_moves := user_moves db; user_moves_seq := user_moves_seq db;
     user_settings := rows |}.

(** [UPDATE user_settings SET key = ? WHERE user_id = ?]. *)
Definition update_setting (user_id : Z) (item : setting) (db : DB) : DB :=
  set_user_settings
    ((λ s, if decide (us_user_id s = user_id) then set_setting item s else s)
       <$> user_settings db)
    db.

(** The loop over the validated items. *)
Fixpoint update_each (conn : connection) (user_id : Z)
    (items : list setting) : M unit :=
  match items with
  | [] => mret tt
  | item :: items' =>
      execute_dml conn (update_setting user_id item);;
      update_each conn user_id items'
  end.

Definition update_user_settings (user_id : Z) (settings_dict : list setting)
    : M bool :=
  conn ← get_db_connection;
  let validated_settings := List.filter valid_key settings_dict in
  update_each conn user_id validated_settings;;
  commit conn;;
  let conn := close conn in
  mret true.

(** The row of a user after the items of a dict, in order. *)
Definition updated_settings (items : list setting) (s : user_settings_row)
    : user_settings_row :=
  foldl (λ s item, set_setting item s) s items.

(** The value under one key of an item. *)
Definition random_positions_key (item : setting) : option bool :=
  match item with RandomPositions value => Some value | _ => None end.

Definition top_n_threshold_key (item : setting) : option Z :=
  match item with TopNThreshold value => Some value | _ => None end.

Definition score_difference_threshold_key (item : setting) : option Z :=
  match item with
  | ScoreDifferenceThreshold value => Some value
  | _ => None
  end.

Definition theme_key (item : setting) : option string :=
  match item with Theme value => Some value | _ => None end.

(** [settings_dict.get(key)]: the value of the item under the key, the last
    one should the list name the key twice. *)
Definition dict_get {A} (key : setting → option A)
    (settings_dict : list setting) : option A :=
  last (omap key settings_dict).

(** ** [load_new_position] ([app.py]) *)

(** [SELECT COUNT( * ) FROM positions]. *)
Definition select_count_positions (db : DB) : list Z :=
  [Z.of_nat (length (positions db))].

(** The function sets [session_state.current_position] and
    [session_state.timer_start]; its result here is the pair of their new
    values, [timer_start] being the old value of the latter and [time] what
    [time.time()] returns. *)
Definition load_new_position (decode : string → string + json)
    (random_order : list position_row → list position_row) (time : float)
    (user_id : Z) (timer_start : option float)
    : M (option position_data * option float) :=
  user_settings ← get_user_settings user_id;
  conn ← get_db_connection;
  rows ← execute conn select_count_positions;
  count ← match fetchone rows with
          | Some count => mret count
          | None => raise not_subscriptable
          end;
  let conn := close conn in
  if count =? 0 then mret (None, timer_start)
  else
    current_position ←
      (if match user_settings with
          | Some s => us_random_positions s
          | None => false
          end
       then get_random_position decode random_order
       else get_sequential_position decode user_id);
    match current_position with
    | None => mret (None, timer_start)
    | Some _ => mret (current_position, Some time)
    end.

(** ** [get_position_category] ([training.py]) *)

Definition get_position_category (fullmove_number : Z) : string :=
  if fullmove_number <=? 15 then "opening"
  else if fullmove_number <=? 32 then "middle game"
  else "endgame".

(** ** [get_position_stats] ([jsonl_loader.py]) *)

(** How often each key occurs among the rows. *)
Definition group_count {A} (key : A → string) (rows : list A)
    : gmap string Z :=
  foldr (λ r counts,
           <[key r := default 0 (counts !! key r) + 1]> counts)
        ∅ rows.

(** [SELECT key, COUNT( * ) as count FROM table GROUP BY key]: one row per
    key that occurs, with the number of its occurrences. *)
Definition select_group_count {A} (key : A → string) (table : DB → list A)
    (db : DB) : list (string * Z) :=
  map_to_list (group_count key (table db)).

(** [{row[key]: row['count'] for row in cursor.fetchall()}]. *)
Definition dict_of_rows (rows : list (string * Z)) : gmap string Z :=
  foldl (λ d row, <[row.1 := row.2]> d) ∅ rows.

(** [d.get(key, 0)]. *)
Definition count_of (d : gmap string Z) (key : string) : Z :=
  default 0 (d !! key).

(** The CASE expression of the phase query. *)
Definition phase (p : position_row) : string :=
  if pos_fullmove_number p <=? 15 then "opening"
  else if pos_fullmove_number p <=? 32 then "middle_game"
  else "endgame".

(** The dict the function returns. *)
Record position_stats := {
  total_positions : Z;
  positions_by_color : gmap string Z;
  positions_by_phase : gmap string Z;
  total_moves : Z;
  moves_by_classification : gmap string Z
}.

(** [SELECT COUNT( * ) FROM moves]. *)
Definition select_count_moves (db : DB) : list Z :=
  [Z.of_nat (length (moves db))].

Definition get_position_stats : M position_stats :=
  conn ← get_db_connection;
  rows ← execute conn select_count_positions;
  total_positions ← match fetchone rows with
                    | Some count => mret count
                    | None => raise not_subscriptable
                    end;
  rows ← execute conn (select_group_count pos_turn positions);
  let positions_by_color := dict_of_rows rows in
  rows ← execute conn (select_group_count phase positions);
  let positions_by_phase := dict_of_rows rows in
  rows ← execute conn select_count_moves;
  total_moves ← match fetchone rows with
                | Some count => mret count
                | None => raise not_subscriptable
                end;
  rows ← execute conn (select_group_count mv_classification moves);
  let moves_by_classification := dict_of_rows rows in
  let conn := close conn in
  mret {| total_positions := total_positions;
          positions_by_color := positions_by_color;
          positions_by_phase := positions_by_phase;
          total_moves := total_moves;
          moves_by_classification := moves_by_classification |}.

(** ** [get_filtered_user_moves] ([analysis.py]) *)

(** A row of the three-table join, as the dict the function returns. *)
Record filtered_move := {
  fm_id : Z;
  fm_position_id : Z;
  fm_move_id : Z;
  fm_time_taken : float;
  fm_result : string;
  fm_timestamp : string;
  fm_fen : string;
  fm_turn : string;
  fm_fullmove_number : Z;
  fm_move : string;
  fm_score : Z;
  fm_centipawn_loss : Z;
  fm_classification : string;
  fm_rank : Z
}.

(** The [filters] dict: each key the function looks at, absent ([None]) or
    with a value of the type the analysis page passes. *)
Record move_filters := {
  f_move_number : option Z;
  f_color : option string;
  f_result : option string;
  f_category : option string;
  f_limit : option Z
}.

(** [bool(v)] for [v] a str or a missing key. *)
Definition truthy_str (v : option string) : bool :=
  match v with
  | Some s => negb (String.eqb s "")
  | None => false
  end.

Definition joined_row (um : user_move_row) (p : position_row) (m : move_row)
    : filtered_move :=
  {| fm_id := um_id um; fm_position_id := um_position_id um;
     fm_move_id := um_move_id um; fm_time_taken := um_time_taken um;
     fm_result := um_result um; fm_timestamp := um_timestamp um;
     fm_fen := pos_fen p; fm_turn := pos_turn p;
     fm_fullmove_number := pos_fullmove_number p;
     fm_move := mv_move m; fm_score := mv_score m;
     fm_centipawn_loss := mv_centipawn_loss m;
     fm_classification := mv_classification m; fm_rank := mv_rank m |}.

(** [FROM user_moves um JOIN positions p ON um.position_id = p.id
    JOIN moves m ON um.move_id = m.id WHERE um.user_id = ?]. *)
Definition join_user_moves (user_id : Z) (db : DB) : list filtered_move :=
  um ← filter (λ um, um_user_id um = user_id) (user_moves db);
  p ← filter (λ p, pos_id p = um_position_id um) (positions db);
  m ← filter (λ m, mv_id m = um_move_id um) (moves db);
  [joined_row um p m].

(** The conditions the function appends to the query, one per filter. *)
Definition move_number_clause (filters : move_filters) (r : filtered_move)
    : bool :=
  if truthy (f_move_number filters)
  then bool_decide (Some (fm_fullmove_number r) = f_move_number filters)
  else true.

Definition color_clause (filters : move_filters) (r : filtered_move) : bool :=
  if truthy_str (f_color filters)
  then bool_decide (Some (fm_turn r) = f_color filters)
  else true.

Definition result_clause (filters : move_filters) (r : filtered_move)
    : bool :=
  if truthy_str (f_result filters)
  then bool_decide (Some (fm_result r) = f_result filters)
  else true.

Definition category_clause (filters : move_filters) (r : filtered_move)
    : bool :=
  if truthy_str (f_category filters) then
    if bool_decide (f_category filters = Some "opening")
    then fm_fullmove_number r <=? 15
    else if bool_decide (f_category filters = Some "middle game")
    then (15 <? fm_fullmove_number r) && (fm_fullmove_number r <=? 32)
    else if bool_decide (f_category filters = Some "endgame")
    then 32 <? fm_fullmove_number r
    else true
  else true.

(** [ORDER BY um.timestamp DESC] on the text of the timestamps. *)
Definition newer_first (a b : filtered_move) : Prop :=
  String.leb (fm_timestamp b) (fm_timestamp a) = true.

Global Instance newer_first_dec a b : Decision (newer_first a b) :=
  decide (String.leb (fm_timestamp b) (fm_timestamp a) = true).

(** [LIMIT n]: a negative [n] is no limit. *)
Definition sql_limit {A} (n : Z) (rows : list A) : list A :=
  if n <? 0 then rows else take (Z.to_nat n) rows.

Definition select_filtered_user_moves (user_id : Z) (filters : move_filters)
    (db : DB) : list filtered_move :=
  let rows :=
    merge_sort newer_first
      (List.filter (λ r, move_number_clause filters r
                         && color_clause filters r
                         && result_clause filters r
                         && category_clause filters r)
                   (join_user_moves user_id db)) in
  if truthy (f_limit filters)
  then sql_limit (default 0 (f_limit filters)) rows
  else rows.

Definition get_filtered_user_moves (user_id : Z) (filters : move_filters)
    : M (list filtered_move) :=
  conn ← get_db_connection;
  moves ← execute conn (select_filtered_user_moves user_id filters);
  let conn := close conn in
  mret moves.

(** The filters with the ['limit'] key removed. *)
Definition without_limit (filters : move_filters) : move_filters :=
  {| f_move_number := f_move_number filters; f_color := f_color filters;
     f_result := f_result filters; f_category := f_category filters;
     f_limit := None |}.

(** The filters with the ['category'] key removed. *)
Definition without_category (filters : move_filters) : move_filters :=
  {| f_move_number := f_move_number filters; f_color := f_color filters;
     f_result := f_result filters; f_category := None;
     f_limit := f_limit filters |}.

(** No filter at all. *)
Definition no_filters : move_filters :=
  {| f_move_number := None; f_color := None; f_result := None;
     f_category := None; f_limit := None |}.

(** PRIMARY KEY on [moves]. *)
Definition unique_move_ids (db : DB) : Prop :=
  NoDup (mv_id <$> moves db).

(** The foreign keys of [user_moves]: every attempt names a position row
    and a move row. *)
Definition user_moves_reference (db : DB) : Prop :=
  ∀ um, um ∈ user_moves db →
        (∃ p, p ∈ positions db ∧ pos_id p = um_position_id um)
        ∧ (∃ m, m ∈ moves db ∧ mv_id m = um_move_id um).

(** An attempt of the user joined with its position and its move. *)
Definition joined_attempt (user_id : Z) (db : DB) (r : filtered_move)
    : Prop :=
  ∃ um p m, um ∈ user_moves db ∧ um_user_id um = user_id
            ∧ p ∈ positions db ∧ pos_id p = um_position_id um
            ∧ m ∈ moves db ∧ mv_id m = um_move_id um
            ∧ r = joined_row um p m.

(** ** [get_user_performance_summary] ([analysis.py]) *)

(** [float(n)] for a count. *)
Definition float_of_Z (n : Z) : float := PrimFloat.of_uint63 (Uint63.of_Z n).

(** [(correct / attempts) * 100 if attempts > 0 else 0]. *)
Definition accuracy (correct attempts : Z) : float :=
  if 0 <? attempts
  then (float_of_Z correct / float_of_Z attempts * 100)%float
  else 0%float.

(** AVG, MIN and MAX over a REAL column, as the SQL engine computes them. *)
Record real_aggregates := {
  agg_avg : list float → option float;
  agg_min : list float → option float;
  agg_max : list float → option float
}.

(** An aggregate over no rows is NULL. *)
Definition null_on_empty (engine : real_aggregates) : Prop :=
  agg_avg engine [] = None ∧ agg_min engine [] = None
  ∧ agg_max engine [] = None.

(** [SUM(CASE WHEN result = 'pass' THEN 1 ELSE 0 END)]: NULL on no rows. *)
Definition sum_pass (results : list string) : option Z :=
  match results with
  | [] => None
  | _ => Some (Z.of_nat (length (filter (λ r, r = "pass") results)))
  end.

(** A row of a grouped query with its accuracy added. *)
Record group_stat := {
  gs_key : string;
  gs_attempts : Z;
  gs_correct : Z;
  gs_accuracy : float
}.

Definition key_le (a b : string) : Prop := String.leb a b = true.

Global Instance key_le_dec a b : Decision (key_le a b) :=
  decide (String.leb a b = true).

(** [SELECT key, COUNT( * ) as attempts, SUM(CASE ...) as correct ... GROUP BY
    key] over rows given as (key, result), the groups in ascending key
    order, and the loop that adds ['accuracy'] to each row. *)
Definition group_stats (rows : list (string * string)) : list group_stat :=
  (λ key,
     let results := snd <$> filter (λ row, fst row = key) rows in
     let attempts := Z.of_nat (length results) in
     let correct := default 0 (sum_pass results) in
     {| gs_key := key; gs_attempts := attempts; gs_correct := correct;
        gs_accuracy := accuracy correct attempts |})
  <$> merge_sort key_le (remove_dups (fst <$> rows)).

(** [FROM user_moves um JOIN positions p ON um.position_id = p.id WHERE
    um.user_id = ?]. *)
Definition join_positions (user_id : Z) (db : DB)
    : list (user_move_row * position_row) :=
  um ← filter (λ um, um_user_id um = user_id) (user_moves db);
  p ← filter (λ p, pos_id p = um_position_id um) (positions db);
  [(um, p)].

(** [FROM user_moves um JOIN moves m ON um.move_id = m.id WHERE
    um.user_id = ?]. *)
Definition join_moves (user_id : Z) (db : DB)
    : list (user_move_row * move_row) :=
  um ← filter (λ um, um_user_id um = user_id) (user_moves db);
  m ← filter (λ m, mv_id m = um_move_id um) (moves db);
  [(um, m)].

(** The CASE expression of the rank query. *)
Definition rank_group (m : move_row) : string :=
  if mv_rank m =? 1 then "Top 1"
  else if mv_rank m <=? 3 then "Top 2-3"
  else if mv_rank m <=? 5 then "Top 4-5"
  else "Beyond Top 5".

(** The dict the function returns. *)
Record performance_summary := {
  total_attempts : Z;
  correct_moves : option Z;
  avg_time : option float;
  min_time : option float;
  max_time : option float;
  summary_accuracy : float;
  category_stats : list group_stat;
  classification_stats : list group_stat;
  color_stats : list group_stat;
  rank_stats : list group_stat
}.

(** The five columns of the first query. *)
Definition select_basic_stats (engine : real_aggregates) (user_id : Z)
    (db : DB)
    : list (Z * option Z * option float * option float * option float) :=
  let rows := filter (λ um, um_user_id um = user_id) (user_moves db) in
  let times := um_time_taken <$> rows in
  [(Z.of_nat (length rows), sum_pass (um_result <$> rows),
    agg_avg engine times, agg_min engine times, agg_max engine times)].

Definition get_user_performance_summary (engine : real_aggregates)
    (user_id : Z) : M performance_summary :=
  conn ← get_db_connection;
  rows ← execute conn (select_basic_stats engine user_id);
  '(total, correct, avg, min, max) ←
     match fetchone rows with
     | Some row => mret row
     | None => raise not_subscriptable
     end;
  accuracy ←
    (if 0 <? total then
       match correct with
       | Some correct => mret (accuracy correct total)
       | None =>
           raise (TypeError
                    "unsupported operand type(s) for /: 'NoneType' and 'int'")
       end
     else mret 0%float);
  category_stats ←
    execute conn
      (λ db, group_stats
               ((λ row, (get_position_category
                           (pos_fullmove_number row.2),
                         um_result row.1))
                <$> join_positions user_id db));
  classification_stats ←
    execute conn
      (λ db, group_stats
               ((λ row, (mv_classification row.2, um_result row.1))
                <$> join_moves user_id db));
  color_stats ←
    execute conn
      (λ db, group_stats
               ((λ row, (pos_turn row.2, um_result row.1))
                <$> join_positions user_id db));
  rank_stats ←
    execute conn
      (λ db, group_stats
               ((λ row, (rank_group row.2, um_result row.1))
                <$> join_moves user_id db));
  let conn := close conn in
  mret {| total_attempts := total; correct_moves := correct;
          avg_time := avg; min_time := min; max_time := max;
          summary_accuracy := accuracy;
          category_stats := category_stats;
          classification_stats := classification_stats;
          color_stats := color_stats; rank_stats := rank_stats |}.

(** ** The head of the analysis page ([app.py], [display_analysis_page]) *)

(** A value handed to [st.metric]. *)
Inductive metric_value :=
  | MetricInt (n : Z)
  | MetricNone
  | MetricText (text : string).

(** [f"{value:.1f}"] on a float or None; [format_1f] is the formatting of a
    float to one decimal. *)
Definition format_optional (format_1f : float → string)
    (value : option float) : M string :=
  match value with
  | Some x => mret (format_1f x)
  | None =>
      raise (TypeError
               "unsupported format string passed to NoneType.__format__")
  end.

(** The summary is fetched and its four metrics are shown, in this order;
    the result is the list of labels and values shown. *)
Definition display_analysis_metrics (engine : real_aggregates)
    (format_1f : float → string) (user_id : Z)
    : M (list (string * metric_value)) :=
  summary ← get_user_performance_summary engine user_id;
  let m1 := ("Total Attempts", MetricInt (total_attempts summary)) in
  let m2 := ("Correct Moves",
             match correct_moves summary with
             | Some n => MetricInt n
             | None => MetricNone
             end) in
  let m3 := ("Accuracy",
             MetricText (format_1f (summary_accuracy summary) +:+ "%")) in
  avg ← format_optional format_1f (avg_time summary);
  let m4 := ("Avg. Time", MetricText (avg +:+ "s")) in
  mret [m1; m2; m3; m4].

(** ** [get_comparative_analysis] ([analysis.py]) *)

(** The CASE expression of the time query. *)
Definition time_bucket (um : user_move_row) : string :=
  if (um_time_taken um <? 10)%float then "Under 10s"
  else if (um_time_taken um <? 30)%float then "10-30s"
  else if (um_time_taken um <? 60)%float then "30-60s"
  else "Over 60s".

(** What the function returns: the error dict, the rows of the time query,
    or the placeholder dict. *)
Inductive comparative_analysis :=
  | InvalidFactors (error : string)
  | TimeBuckets (rows : list group_stat)
  | Placeholder (message : string).

Definition valid_factors : list string :=
  ["time_taken"; "center_control"; "pawn_structure"; "king_safety";
   "material"].

Definition get_comparative_analysis (user_id : Z) (factor1 factor2 : string)
    : M comparative_analysis :=
  conn ← get_db_connection;
  if negb (bool_decide (factor1 ∈ valid_factors))
     || negb (bool_decide (factor2 ∈ valid_factors))
  then
    let conn := close conn in
    mret (InvalidFactors "Invalid factors for comparison")
  else
    analysis ←
      (if String.eqb factor1 "time_taken" && String.eqb factor2 "result"
       then
         rows ← execute conn
                  (λ db, group_stats
                           ((λ um, (time_bucket um, um_result um))
                            <$> filter (λ um, um_user_id um = user_id)
                                       (user_moves db)));
         mret (TimeBuckets rows)
       else
         mret (Placeholder
                 ("Comparison between " +:+ factor1 +:+ " and " +:+ factor2
                  +:+ " would require extracting position metadata")));
    let conn := close conn in
    mret analysis.

(** ** [register_user] and [login_user] ([auth.py]) *)

(** [users]: one account. *)
Record user_row := {
  u_id : Z;
  u_email : string;
  u_password_hash : string;
  u_created_at : string;
  u_last_login : option string
}.

(** The store with its [users] table, which only [auth.py] touches, and the
    [sqlite_sequence] entry of that table. *)
Record AuthDB := {
  users : list user_row;
  users_seq : Z;
  tables : DB
}.

Inductive auth_exn :=
  | IntegrityError (msg : string)     (* sqlite3.IntegrityError *)
  | OtherError (e : exn).

Definition MA (A : Type) : Type := AuthDB → (auth_exn + A) * AuthDB.

Global Instance MA_ret : MRet MA := λ A (a : A) s, (inr a, s).

Global Instance MA_bind : MBind MA := λ A B (k : A → MA B) (m : MA A) s,
  match m s with
  | (inr a, s') => k a s'
  | (inl e, s') => (inl e, s')
  end.

(** A statement on the tables of [DB], run on the whole store. *)
Definition on_tables {A} (m : M A) : MA A :=
  λ s, match m (tables s) with
       | (inr a, db') =>
           (inr a, {| users := users s; users_seq := users_seq s;
                      tables := db' |})
       | (inl e, db') =>
           (inl (OtherError e),
            {| users := users s; users_seq := users_seq s; tables := db' |})
       end.

Definition execute_users {A} (conn : connection)
    (query : list user_row → list A) : MA (list A) :=
  λ s, if conn_closed conn then (inl (OtherError closed_database), s)
       else (inr (query (users s)), s).

(** A function that raises before it commits leaves no trace: its
    connection is dropped with the transaction open. *)
Definition uncommitted_on_error {A} (body : MA A) : MA A :=
  λ s, match body s with
       | (inr a, s') => (inr a, s')
       | (inl e, _) => (inl e, s)
       end.

(** [INSERT INTO users (email, password_hash) VALUES (?, ?)], with [now] the
    value of CURRENT_TIMESTAMP; the result is [cursor.lastrowid]. *)
Definition insert_user (conn : connection) (now email password_hash : string)
    : MA Z :=
  λ s, if conn_closed conn then (inl (OtherError closed_database), s)
       else
         let id := next_rowid (users_seq s) (u_id <$> users s) in
         (inr id,
          {| users := users s ++ [{| u_id := id; u_email := email;
                                     u_password_hash := password_hash;
                                     u_created_at := now;
                                     u_last_login := None |}];
             users_seq := id; tables := tables s |}).

(** The row [INSERT INTO user_settings (user_id) VALUES (?)] stores: the
    column defaults of the schema. *)
Definition default_settings (user_id : Z) : user_settings_row :=
  {| us_user_id := user_id; us_random_positions := true;
     us_top_n_threshold := 3; us_score_difference_threshold := 10;
     us_theme := "default" |}.

(** The insert fails on the primary key when the user has a row already. *)
Definition insert_default_settings (conn : connection) (user_id : Z)
    : MA unit :=
  λ s, if conn_closed conn then (inl (OtherError closed_database), s)
       else if bool_decide (user_id ∈ us_user_id <$> user_settings (tables s))
       then (inl (IntegrityError
                    "UNIQUE constraint failed: user_settings.user_id"), s)
       else (inr tt,
             {| users := users s; users_seq := users_seq s;
                tables := set_user_settings
                            (user_settings (tables s)
                               ++ [default_settings user_id])
                            (tables s) |}).

Definition register_user (hash_password : string → string) (now : string)
    (email password : string) : MA bool :=
  uncommitted_on_error
    (conn ← on_tables get_db_connection;
     rows ← execute_users conn (filter (λ u, u_email u = email));
     match fetchone rows with
     | Some _ =>
         let conn := close conn in
         mret false
     | None =>
         let password_hash := hash_password password in
         user_id ← insert_user conn now email password_hash;
         insert_default_settings conn user_id;;
         on_tables (commit conn);;
         let conn := close conn in
         mret true
     end).

(** [UPDATE users SET last_login = ? WHERE id = ?]. *)
Definition update_last_login (conn : connection) (last_login : string)
    (id : Z) : MA unit :=
  λ s, if conn_closed conn then (inl (OtherError closed_database), s)
       else
         (inr tt,
          {| users :=
               (λ u, if decide (u_id u = id)
                     then {| u_id := u_id u; u_email := u_email u;
                             u_password_hash := u_password_hash u;
                             u_created_at := u_created_at u;
                             u_last_login := Some last_login |}
                     else u) <$> users s;
             users_seq := users_seq s; tables := tables s |}).

(** [isoformat] is what [datetime.now().isoformat()] returns. *)
Definition login_user (hash_password : string → string) (isoformat : string)
    (email password : string) : MA (option Z) :=
  uncommitted_on_error
    (conn ← on_tables get_db_connection;
     rows ← execute_users conn (filter (λ u, u_email u = email));
     match fetchone rows with
     | None =>
         let conn := close conn in
         mret None
     | Some user =>
         let password_hash := hash_password password in
         if negb (String.eqb password_hash (u_password_hash user)) then
           let conn := close conn in
           mret None
         else
           update_last_login conn isoformat (u_id user);;
           on_tables (commit conn);;
           let conn := close conn in
           mret (Some (u_id user))
     end).

(** The keys of [users] and [user_settings] as the two functions find and
    leave them: distinct emails and ids, ids and settings rows bounded by
    the sequence. *)
Definition accounts_keyed (s : AuthDB) : Prop :=
  NoDup (u_email <$> users s)
  ∧ NoDup (u_id <$> users s)
  ∧ Forall (λ u, u_id u ≤ users_seq s) (users s)
  ∧ Forall (λ r, us_user_id r ≤ users_seq s) (user_settings (tables s))
  ∧ 0 ≤ users_seq s.

(** The account [register_user] creates. *)
Definition new_user (hash_password : string → string) (now : string)
    (email password : string) (s : AuthDB) : user_row :=
  {| u_id := next_rowid (users_seq s) (u_id <$> users s);
     u_email := email; u_password_hash := hash_password password;
     u_created_at := now; u_last_login := None |}.

(** The store after a login of the account with this id. *)
Definition logged_in (isoformat : string) (id : Z) (s : AuthDB) : AuthDB :=
  {| users :=
       (λ u, if decide (u_id u = id)
             then {| u_id := u_id u; u_email := u_email u;
                     u_password_hash := u_password_hash u;
                     u_created_at := u_created_at u;
                     u_last_login := Some isoformat |}
             else u) <$> users s;
     users_seq := users_seq s; tables := tables s |}.

(** ** Conditions on the store *)

(** UNIQUE(position_id, move) on [moves]. *)
Definition unique_notation (db : DB) : Prop :=
  ∀ a b, a ∈ moves db → b ∈ moves db →
         mv_position_id a = mv_position_id b → mv_move a = mv_move b →
         a = b.

(** No two candidates of the position share a rank. *)
Definition unique_ranks (position_id : Z) (db : DB) : Prop :=
  ∀ a b, a ∈ moves db → b ∈ moves db →
         mv_position_id a = position_id → mv_position_id b = position_id →
         mv_rank a = mv_rank b → a = b.

(** Every move belongs to a position on record.  The schema declares
    FOREIGN KEY (position_id) REFERENCES positions (id), but the connections
    of the program never turn foreign keys on and the loader inserts the
    moves of a line whose position insert was ignored, so this is a
    condition a store may or may not meet, not one SQLite keeps. *)
Definition moves_reference_positions (db : DB) : Prop :=
  ∀ m, m ∈ moves db → ∃ p, p ∈ positions db ∧ pos_id p = mv_position_id m.

(** The thresholds of the data model: [top_n_threshold] positive,
    [score_difference_threshold] not negative. *)
Definition valid_thresholds (s : user_settings_row) : Prop :=
  1 ≤ us_top_n_threshold s ∧ 0 ≤ us_score_difference_threshold s.

(** PRIMARY KEY AUTOINCREMENT on [user_moves]: ids are distinct and none is
    above the sequence, which starts at 0. *)
Definition user_moves_keyed (db : DB) : Prop :=
  NoDup (um_id <$> user_moves db)
  ∧ Forall (λ r, um_id r ≤ user_moves_seq db) (user_moves db)
  ∧ 0 ≤ user_moves_seq db.

(** PRIMARY KEY on [positions]. *)
Definition unique_position_ids (db : DB) : Prop :=
  NoDup (pos_id <$> positions db).

(** One attempt of the user on the position appended, or nothing. *)
Definition at_most_one_attempt (user_id position_id : Z) (db db' : DB)
    : Prop :=
  db' = db
  ∨ ∃ row, db' = set_user_moves (λ rows, (rows ++ [row])%list) (um_id row) db
           ∧ um_user_id row = user_id
           ∧ um_position_id row = position_id
           ∧ (um_result row = "pass" ∨ um_result row = "fail")
           ∧ um_openai_analysis row = None.

(** The row of a fresh attempt: the values handed to the INSERT, the
    timestamp default and no analysis. *)
Definition new_attempt (id user_id position_id move_id : Z)
    (time_taken : float) (result now : string) : user_move_row :=
  {| um_id := id; um_user_id := user_id; um_position_id := position_id;
     um_move_id := move_id; um_time_taken := time_taken;
     um_result := result; um_timestamp := now;
     um_openai_analysis := None |}.

(** The store with one more attempt: the row at the end of [user_moves], its
    id the new value of the sequence, every other table as it was. *)
Definition with_attempt (row : user_move_row) (db : DB) : DB :=
  {| positions := positions db; moves := moves db;
     user_moves := (user_moves db ++ [row])%list;
     user_moves_seq := um_id row;
     user_settings := user_settings db |}.

(** Two rows of [user_moves] that agree on every column but
    [openai_analysis]. *)
Definition same_attempt (r r' : user_move_row) : Prop :=
  um_id r' = um_id r ∧ um_user_id r' = um_user_id r
  ∧ um_position_id r' = um_position_id r ∧ um_move_id r' = um_move_id r
  ∧ um_time_taken r' = um_time_taken r ∧ um_result r' = um_result r
  ∧ um_timestamp r' = um_timestamp r.

(** ** Columns that decode *)

(** The column holds a text the decoder accepts. *)
Definition decodes (decode : string → string + json) (v : sql_value)
    : Prop :=
  ∃ s value, v = SqlText s ∧ decode s = inr value.

Definition position_decodes (decode : string → string + json)
    (p : position_row) : Prop :=
  decodes decode (text_value (pos_position_classification p))
  ∧ decodes decode (pos_metadata p).

Definition move_decodes (decode : string → string + json) (m : move_row)
    : Prop :=
  decodes decode (mv_tactics m) ∧ decodes decode (mv_position_impact m).

(** Every JSON column of the catalogue holds a text the decoder accepts, as
    it does for the rows the loader writes with [json.dumps] from lists and
    dicts. *)
Definition catalogue_decodes (decode : string → string + json) (db : DB)
    : Prop :=
  (∀ p, p ∈ positions db → position_decodes decode p)
  ∧ (∀ m, m ∈ moves db → move_decodes decode m).

(** The dict [d] is the one of the row [m]. *)
Definition move_data_of (decode : string → string + json) (m : move_row)
    (d : move_data) : Prop :=
  md_id d = mv_id m ∧ md_move d = mv_move m ∧ md_uci d = mv_uci m
  ∧ md_score d = mv_score m ∧ md_depth d = mv_depth m
  ∧ md_centipawn_loss d = mv_centipawn_loss m
  ∧ md_classification d = mv_classification m
  ∧ md_principal_variation d = mv_principal_variation m
  ∧ md_rank d = mv_rank m
  ∧ (∃ s, mv_tactics m = SqlText s ∧ decode s = inr (md_tactics d))
  ∧ (∃ s, mv_position_impact m = SqlText s
          ∧ decode s = inr (md_position_impact d)).

(** The exceptions [json.loads] raises. *)
Definition decode_error (e : exn) : Prop :=
  match e with
  | TypeError _ | JSONDecodeError _ => True
  | _ => False
  end.

(** ** The cursor of the sequential selector *)

(** The highest position id the user has attempted, 0 without attempts. *)
Definition highest_attempted (user_id : Z) (db : DB) : Z :=
  default 0 (sql_max (um_position_id <$>
                        filter (λ r, um_user_id r = user_id)
                               (user_moves db))).

(** ** A sample store: the position of the walk-through

    Position 1 with candidates e4 (rank 1, score 30), d4 (rank 2, score 25)
    and Nf3 (rank 3, score 10); position 2 without candidates. *)

Definition sample_position (id : Z) (fen : string) : position_row :=
  {| pos_id := id; pos_fen := fen; pos_turn := "white";
     pos_fullmove_number := 1; pos_timestamp := None;
     pos_position_classification := Some "[]";
     pos_metadata := SqlText "{}" |}.

Definition sample_move (id position_id : Z) (move uci : string)
    (score rank : Z) : move_row :=
  {| mv_id := id; mv_position_id := position_id; mv_move := move;
     mv_uci := uci; mv_score := score; mv_depth := 20;
     mv_centipawn_loss := 30 - score; mv_classification := "good";
     mv_principal_variation := None; mv_tactics := SqlText "[]";
     mv_position_impact := SqlText "{}"; mv_rank := rank |}.

(** A stand-in for the decoder in the examples: it knows the two texts the
    sample rows hold, the empty list and the empty dict. *)
Definition sample_decode (s : string) : string + json :=
  if String.eqb s "[]" then inr (JList [])
  else if String.eqb s "{}" then inr (JDict [])
  else inl "Expecting value: line 1 column 1 (char 0)".

(** The dict of a sample candidate. *)
Definition sample_move_data (id : Z) (move uci : string) (score rank : Z)
    : move_data :=
  {| md_id := id; md_move := move; md_uci := uci; md_score := score;
     md_depth := 20; md_centipawn_loss := 30 - score;
     md_classification := "good"; md_principal_variation := None;
     md_tactics := JList []; md_position_impact := JDict [];
     md_rank := rank |}.

Definition sample_settings (user_id top_n score_difference : Z)
    : user_settings_row :=
  {| us_user_id := user_id; us_random_positions := false;
     us_top_n_threshold := top_n;
     us_score_difference_threshold := score_difference;
     us_theme := "default" |}.

Definition sample_attempt (id user_id position_id move_id : Z)
    : user_move_row :=
  {| um_id := id; um_user_id := user_id; um_position_id := position_id;
     um_move_id := move_id; um_time_taken := 1.5%float; um_result := "pass";
     um_timestamp := "2025-01-01 00:00:00"; um_openai_analysis := None |}.

Definition sample_db : DB :=
  {| positions := [sample_position 1 "fen-1"; sample_position 2 "fen-2"];
     moves := [sample_move 1 1 "e4" "e2e4" 30 1;
               sample_move 2 1 "d4" "d2d4" 25 2;
               sample_move 3 1 "Nf3" "g1f3" 10 3];
     user_moves := [];
     user_moves_seq := 0;
     user_settings := [sample_settings 1 2 10; sample_settings 2 3 15;
                       sample_settings 3 3 10] |}.

(** The sample store after user 1 has attempted position 2, the last one. *)
Definition sample_db_exhausted : DB :=
  set_user_moves (λ _, [sample_attempt 1 1 2 1]) 1 sample_db.

Definition empty_db : DB :=
  {| positions := []; moves := []; user_moves := []; user_moves_seq := 0;
     user_settings := [] |}.

(** A store as the loader leaves it when a line brings the new id 5 with
    the FEN of position 1: the insert of the position is ignored
    (UNIQUE(fen)), the move of the line is inserted under id 5. *)
Definition orphan_moves_db : DB :=
  {| positions := [sample_position 1 "fen-1"];
     moves := [sample_move 1 1 "e4" "e2e4" 30 1;
               sample_move 2 5 "d4" "d2d4" 30 1];
     user_moves := []; user_moves_seq := 0;
     user_settings := [sample_settings 1 2 10] |}.

(** Position 1 of the sample store as the page holds it. *)
Definition sample_position_1 : position_data :=
  {| pd_id := 1; pd_fen := "fen-1"; pd_turn := "white";
     pd_fullmove_number := 1; pd_position_classification := JList [];
     pd_metadata := JDict [];
     pd_moves := [sample_move_data 1 "e4" "e2e4" 30 1;
                  sample_move_data 2 "d4" "d2d4" 25 2;
                  sample_move_data 3 "Nf3" "g1f3" 10 3] |}.

(** Position 2, which has no candidate. *)
Definition sample_position_2 : position_data :=
  {| pd_id := 2; pd_fen := "fen-2"; pd_turn := "white";
     pd_fullmove_number := 1; pd_position_classification := JList [];
     pd_metadata := JDict []; pd_moves := [] |}.

(** The summary of a user without attempts. *)
Definition empty_summary : performance_summary :=
  {| total_attempts := 0; correct_moves := None; avg_time := None;
     min_time := None; max_time := None; summary_accuracy := 0%float;
     category_stats := []; classification_stats := [];
     color_stats := []; rank_stats := [] |}.

(** The rows of a grouped query over [rows]: one for each key that occurs
    and for no other, with the number of its rows and of its passes, keys
    distinct. *)
Definition groups_of (rows : list (string * string))
    (stats : list group_stat) : Prop :=
  NoDup (gs_key <$> stats)
  ∧ (∀ row, row ∈ rows → fst row ∈ gs_key <$> stats)
  ∧ ∀ g, g ∈ stats →
      gs_attempts g
      = Z.of_nat (length (filter (λ row, fst row = gs_key g) rows))
      ∧ gs_correct g
        = Z.of_nat (length (filter (λ row, fst row = gs_key g
                                           ∧ snd row = "pass") rows))
      ∧ 1 ≤ gs_attempts g
      ∧ 0 ≤ gs_correct g ≤ gs_attempts g
      ∧ gs_accuracy g = accuracy (gs_correct g) (gs_attempts g).

(** Plain aggregates for the examples. *)
Definition sample_engine : real_aggregates :=
  {| agg_avg := λ xs,
       match xs with
       | [] => None
       | _ => Some (foldr PrimFloat.add 0%float xs
                    / float_of_Z (Z.of_nat (length xs)))%float
       end;
     agg_min := λ xs,
       match xs with
       | [] => None
       | x :: xs' =>
           Some (foldr (λ a b, if (a <? b)%float then a else b) x xs')
       end;
     agg_max := λ xs,
       match xs with
       | [] => None
       | x :: xs' =>
           Some (foldr (λ a b, if (b <? a)%float then a else b) x xs')
       end |}.

(** A stand-in for SHA-256 in the examples. *)
Definition sample_hash (password : string) : string := "sha:" +:+ password.

(** The sample store with one account, of user 1. *)
Definition sample_accounts : AuthDB :=
  {| users := [{| u_id := 1; u_email := "ann@example.org";
                  u_password_hash := sample_hash "secret";
                  u_created_at := "2025-01-01 00:00:00";
                  u_last_login := None |}];
     users_seq := 3;
     tables := sample_db |}.

(** * Properties *)

(** Runs the monadic plumbing of a function of the source once its own
    definition is unfolded. *)
Ltac run_M :=
  unfold subscript, try_except_rollback, execute, execute_dml, commit,
    lastrowid, get_db_connection, close, fetchone, raise in *;
  unfold mbind, mret in *; unfold M_bind, M_ret in *;
  cbn [conn_closed fst snd] in *.

(** ** Acceptance (C1) *)

(** C1: for a submitted move found among the candidates of the position, a
    rank-1 reference move and the thresholds of the user's settings row,
    [validate_move] returns a dict whose [success] is true exactly when the
    rank is at most [top_n_threshold] and the absolute score difference to
    the rank-1 move is at most [score_difference_threshold]; violating
    either bound makes it false, and [result] is "pass" exactly when
    [success] is true (and "fail" otherwise). *)
Theorem validate_move_accept_iff (db : DB) (position_id : Z)
    (selected_move : string) (user_id : Z)
    (s : user_settings_row) (m top : move_row) :
  fetchone (select_user_settings user_id db) = Some s →
  fetchone (select_selected_move position_id selected_move db) = Some m →
  fetchone (select_top_move position_id db) = Some top →
  ∃ v, validate_move position_id selected_move user_id db = (inr v, db)
       ∧ (v_success v = true ↔
            mv_rank m ≤ us_top_n_threshold s
            ∧ Z.abs (mv_score m - mv_score top)
              ≤ us_score_difference_threshold s)
       ∧ (us_top_n_threshold s < mv_rank m → v_success v = false)
       ∧ (us_score_difference_threshold s
            < Z.abs (mv_score m - mv_score top) → v_success v = false)
       ∧ (v_result v = Some "pass" ↔ v_success v = true)
       ∧ (v_result v = Some "fail" ↔ v_success v = false).
Proof.
  intros Hs Hm Htop. unfold validate_move. run_M.
  rewrite Hs, Hm, Htop. eexists. split; [reflexivity|].
  cbn [v_success v_result].
  destruct (Z.leb_spec (mv_rank m) (us_top_n_threshold s));
    destruct (Z.leb_spec (Z.abs (mv_score m - mv_score top))
                         (us_score_difference_threshold s));
    cbn [andb]; repeat split; intros; try done; try lia.
Qed.

Lemma validate_move_accept_iff_witness :
  ∃ v, validate_move 1 "Nf3" 2 sample_db = (inr v, sample_db)
       ∧ (v_success v = true ↔ 3 ≤ 3 ∧ Z.abs (10 - 30) ≤ 15)
       ∧ (3 < 3 → v_success v = false)
       ∧ (15 < Z.abs (10 - 30) → v_success v = false)
       ∧ (v_result v = Some "pass" ↔ v_success v = true)
       ∧ (v_result v = Some "fail" ↔ v_success v = false).
Proof.
  apply (validate_move_accept_iff sample_db 1 "Nf3" 2
           (sample_settings 2 3 15)
           (sample_move 3 1 "Nf3" "g1f3" 10 3)
           (sample_move 1 1 "e4" "e2e4" 30 1)); reflexivity.
Defined.

(** ** Lookups of unique rows *)

Section head_filter.
Context {A : Type} (P : A → Prop) `{Pdec : !∀ x, Decision (P x)}.

(** [fetchone] of a selection that only one row of the table satisfies. *)
Lemma head_filter_unique (l : list A) (x : A) :
  x ∈ l → P x → (∀ y, y ∈ l → P y → y = x) →
  head (filter P l) = Some x.
Proof.
  intros Hin HP Huniq.
  assert (Hx : x ∈ filter P l) by (apply list_elem_of_filter; done).
  destruct (filter P l) as [|y l'] eqn:E; [by apply elem_of_nil in Hx|].
  cbn. f_equal. apply Huniq.
  - eapply (proj1 (list_elem_of_filter P l y)). rewrite E. left.
  - eapply (proj1 (list_elem_of_filter P l y)). rewrite E. left.
Qed.

Lemma head_filter_Some (l : list A) (x : A) :
  head (filter P l) = Some x → x ∈ l ∧ P x.
Proof.
  intros Hhd. apply head_Some_elem_of in Hhd.
  apply list_elem_of_filter in Hhd. tauto.
Qed.

Lemma filter_nil_iff (l : list A) :
  filter P l = [] ↔ ∀ x, x ∈ l → ¬ P x.
Proof.
  split.
  - intros E x Hin HP. by eapply filter_nil_not_elem_of.
  - intros Hno. induction l as [|a l IH]; [done|].
    rewrite filter_cons. destruct (decide (P a)) as [HP|_].
    + exfalso. apply (Hno a); [left|done].
    + apply IH. intros x Hx. apply Hno. by right.
Qed.
End head_filter.

Lemma append_empty_r (s : string) : s +:+ "" = s.
Proof.
  induction s as [|c s IH]; [done|].
  change (String c (s +:+ "") = String c s). by rewrite IH.
Qed.

Lemma append_assoc (s1 s2 s3 : string) :
  (s1 +:+ s2) +:+ s3 = s1 +:+ s2 +:+ s3.
Proof.
  induction s1 as [|c s1 IH]; [done|].
  change (String c ((s1 +:+ s2) +:+ s3) = String c (s1 +:+ s2 +:+ s3)).
  by rewrite IH.
Qed.

(** ** The top move passes (C3) *)

(** C3: in a store that meets UNIQUE(position_id, move), for a position
    whose candidate ranks are unique and whose candidate [m] has rank 1, and
    a user whose stored thresholds (if any) are a positive [top_n_threshold]
    and a non-negative [score_difference_threshold], [validate_move] on the
    notation of [m] returns success = true with score_difference = 0 (and
    result "pass", for the move [m] itself). *)
Theorem validate_move_top_move (db : DB) (position_id user_id : Z)
    (m : move_row) :
  unique_notation db →
  unique_ranks position_id db →
  m ∈ moves db → mv_position_id m = position_id → mv_rank m = 1 →
  (∀ s, s ∈ user_settings db → us_user_id s = user_id → valid_thresholds s) →
  ∃ v, validate_move position_id (mv_move m) user_id db = (inr v, db)
       ∧ v_success v = true
       ∧ v_score_difference v = Some 0
       ∧ v_result v = Some "pass"
       ∧ v_move_id v = Some (mv_id m).
Proof.
  intros Hnot Hrk Hin Hpos Hrank Hset.
  assert (Hsel : head (select_selected_move position_id (mv_move m) db)
                 = Some m).
  { apply head_filter_unique; [done|done|].
    intros y Hy [Hp Hm]. apply Hnot; congruence. }
  assert (Htop : head (select_top_move position_id db) = Some m).
  { apply head_filter_unique; [done|done|].
    intros y Hy [Hp Hr]. apply Hrk; congruence. }
  unfold validate_move. run_M. rewrite Hsel, Htop.
  eexists. split; [reflexivity|]. cbn [v_success v_score_difference
    v_result v_move_id].
  rewrite Z.sub_diag, Hrank. change (Z.abs 0) with 0.
  assert (Hok : (1 <=? match head (select_user_settings user_id db) with
                       | Some s => us_top_n_threshold s
                       | None => 3
                       end)
                && (0 <=? match head (select_user_settings user_id db) with
                          | Some s => us_score_difference_threshold s
                          | None => 10
                          end) = true).
  { destruct (head (select_user_settings user_id db)) as [s|] eqn:E;
      [|done].
    apply head_filter_Some in E as [Hs Hu].
    destruct (Hset s Hs Hu) as [H1 H0].
    apply andb_true_iff. split; by apply Z.leb_le. }
  rewrite Hok. done.
Qed.

Lemma sample_db_unique_notation : unique_notation sample_db.
Proof.
  intros a b Ha Hb. cbn in Ha, Hb.
  repeat (apply elem_of_cons in Ha as [->|Ha]);
    try (by apply elem_of_nil in Ha);
    repeat (apply elem_of_cons in Hb as [->|Hb]);
    try (by apply elem_of_nil in Hb); cbn; intros; congruence.
Defined.

Lemma sample_db_unique_ranks : unique_ranks 1 sample_db.
Proof.
  intros a b Ha Hb. cbn in Ha, Hb.
  repeat (apply elem_of_cons in Ha as [->|Ha]);
    try (by apply elem_of_nil in Ha);
    repeat (apply elem_of_cons in Hb as [->|Hb]);
    try (by apply elem_of_nil in Hb); cbn; intros; congruence.
Defined.

Lemma validate_move_top_move_witness :
  ∃ v, validate_move 1 "e4" 1 sample_db = (inr v, sample_db)
       ∧ v_success v = true
       ∧ v_score_difference v = Some 0
       ∧ v_result v = Some "pass"
       ∧ v_move_id v = Some 1.
Proof.
  apply (validate_move_top_move sample_db 1 1
           (sample_move 1 1 "e4" "e2e4" 30 1)).
  - exact sample_db_unique_notation.
  - exact sample_db_unique_ranks.
  - cbn. left.
  - reflexivity.
  - reflexivity.
  - intros s Hs. cbn in Hs.
    repeat (apply elem_of_cons in Hs as [->|Hs]);
      try (by apply elem_of_nil in Hs); cbn; unfold valid_thresholds; cbn;
      lia.
Defined.

(** ** Failure is a value (C4) *)

(** Either lookup of [validate_move] coming back empty yields the
    [not_found] dict; nothing is raised and nothing is computed from the
    missing row. *)
Lemma validate_move_lookup_empty (db : DB) (position_id : Z)
    (selected_move : string) (user_id : Z) :
  select_selected_move position_id selected_move db = []
  ∨ select_top_move position_id db = [] →
  validate_move position_id selected_move user_id db = (inr not_found, db).
Proof.
  intros Hempty. unfold validate_move. run_M.
  destruct Hempty as [-> | ->]; cbn [head].
  - reflexivity.
  - by destruct (head (select_selected_move _ _ _)).
Qed.

(** C4, as the code has it: when no candidate of the position has the
    submitted notation, or the position has no candidate at all, or none of
    rank 1, [validate_move] returns the failure dict
    [{success: False, message: ...}] as a value: it raises nothing, and the
    store is as before.  The function reads [moves] only, never [positions]:
    a position without a row yields the failure dict when no move is left
    under its id, which is so in a store whose moves all belong to positions
    on record. *)
Theorem validate_move_failure_is_value (db : DB) (position_id : Z)
    (selected_move : string) (user_id : Z) :
  (moves_reference_positions db ∧ select_position position_id db = [])
  ∨ select_selected_move position_id selected_move db = []
  ∨ filter (λ m, mv_position_id m = position_id) (moves db) = []
  ∨ select_top_move position_id db = [] →
  validate_move position_id selected_move user_id db = (inr not_found, db)
  ∧ v_success not_found = false.
Proof.
  intros Hcase. split; [|reflexivity].
  apply validate_move_lookup_empty.
  destruct Hcase as [[Hfk Hpos] | [Hsel | [Hnone | Htop]]].
  - left. apply filter_nil_iff. intros m Hm [Hp _].
    destruct (Hfk m Hm) as (p & Hin & Hid).
    eapply (proj1 (filter_nil_iff _ _) Hpos p Hin). cbn. congruence.
  - by left.
  - left. apply filter_nil_iff. intros m Hm [Hp _].
    by eapply (proj1 (filter_nil_iff _ _) Hnone m Hm).
  - by right.
Qed.

Lemma validate_move_failure_is_value_witness :
  validate_move 2 "e4" 1 sample_db = (inr not_found, sample_db)
  ∧ v_success not_found = false.
Proof.
  apply (validate_move_failure_is_value sample_db 2 "e4" 1).
  right. right. left. reflexivity.
Defined.

(** No position has id 5 in [orphan_moves_db], and yet [validate_move]
    passes a move submitted for it: the move left under that id is found,
    and is its own rank-1 reference. *)
Lemma validate_move_missing_position_passes :
  select_position 5 orphan_moves_db = []
  ∧ ∃ v, validate_move 5 "d4" 1 orphan_moves_db = (inr v, orphan_moves_db)
         ∧ v ≠ not_found
         ∧ v_success v = true
         ∧ v_result v = Some "pass"
         ∧ v_message v = "Move ranked #1".
Proof.
  split; [reflexivity|]. eexists. split; [vm_compute; reflexivity|].
  split; [discriminate|]. repeat split.
Qed.

(** ** The message (C7) *)

(** C7: for a move found among the candidates, the message is the rank
    statement "Move ranked #<rank>", followed by ", but score difference too
    high: <difference>" exactly when the rank is within [top_n_threshold]
    and the result is a fail; in every other case it is the rank statement
    alone. *)
Theorem validate_move_message (db : DB) (position_id : Z)
    (selected_move : string) (user_id : Z)
    (s : user_settings_row) (m top : move_row) :
  fetchone (select_user_settings user_id db) = Some s →
  fetchone (select_selected_move position_id selected_move db) = Some m →
  fetchone (select_top_move position_id db) = Some top →
  ∃ v, validate_move position_id selected_move user_id db = (inr v, db)
       ∧ (mv_rank m ≤ us_top_n_threshold s ∧ v_success v = false →
          v_message v =
            ("Move ranked #" +:+ pretty (mv_rank m)) +:+
            ", but score difference too high: " +:+
            pretty (Z.abs (mv_score m - mv_score top)))
       ∧ (¬ (mv_rank m ≤ us_top_n_threshold s ∧ v_success v = false) →
          v_message v = "Move ranked #" +:+ pretty (mv_rank m)).
Proof.
  intros Hs Hm Htop. unfold validate_move. run_M.
  rewrite Hs, Hm, Htop. eexists. split; [reflexivity|].
  cbn [v_success v_message].
  destruct (Z.leb_spec (mv_rank m) (us_top_n_threshold s));
    destruct (Z.leb_spec (Z.abs (mv_score m - mv_score top))
                         (us_score_difference_threshold s));
    cbn [andb negb]; split; intros Hc;
    try (destruct Hc as [? ?]; try lia; try done);
    try (exfalso; apply Hc; split; [lia|done]);
    try (by rewrite append_empty_r).
  all: try (by rewrite append_assoc).
Qed.

Lemma validate_move_message_witness :
  ∃ v, validate_move 1 "Nf3" 2 sample_db = (inr v, sample_db)
       ∧ (3 ≤ 3 ∧ v_success v = false →
          v_message v =
            ("Move ranked #" +:+ pretty 3) +:+
            ", but score difference too high: " +:+
            pretty (Z.abs (10 - 30)))
       ∧ (¬ (3 ≤ 3 ∧ v_success v = false) →
          v_message v = "Move ranked #" +:+ pretty 3).
Proof.
  apply (validate_move_message sample_db 1 "Nf3" 2
           (sample_settings 2 3 15)
           (sample_move 3 1 "Nf3" "g1f3" 10 3)
           (sample_move 1 1 "e4" "e2e4" 30 1)); reflexivity.
Defined.

(** The walk-through's case: rank 3 within the top 3, difference 20 over
    15. *)
Example validate_move_message_nearly_right :
  ∃ v, validate_move 1 "Nf3" 2 sample_db = (inr v, sample_db)
       ∧ v_message v = "Move ranked #3, but score difference too high: 20".
Proof. eexists. split; [vm_compute; reflexivity|reflexivity]. Qed.

(** ** Default thresholds (C8) *)

(** What [validate_move] returns once both lookups have found a row. *)
Lemma validate_move_found (db : DB) (position_id : Z)
    (selected_move : string) (user_id : Z) (m top : move_row) :
  fetchone (select_selected_move position_id selected_move db) = Some m →
  fetchone (select_top_move position_id db) = Some top →
  validate_move position_id selected_move user_id db
  = (let top_n_threshold :=
       match fetchone (select_user_settings user_id db) with
       | Some s => us_top_n_threshold s
       | None => 3
       end in
     let score_difference_threshold :=
       match fetchone (select_user_settings user_id db) with
       | Some s => us_score_difference_threshold s
       | None => 10
       end in
     let score_difference := Z.abs (mv_score m - mv_score top) in
     let is_success :=
       (mv_rank m <=? top_n_threshold)
       && (score_difference <=? score_difference_threshold) in
     (inr {| v_success := is_success;
             v_move_id := Some (mv_id m);
             v_rank := Some (mv_rank m);
             v_score := Some (mv_score m);
             v_classification := Some (mv_classification m);
             v_centipawn_loss := Some (mv_centipawn_loss m);
             v_score_difference := Some score_difference;
             v_result := Some (if is_success then "pass" else "fail");
             v_message :=
               "Move ranked #" +:+ pretty (mv_rank m) +:+
               (if (mv_rank m <=? top_n_threshold) && negb is_success
                then ", but score difference too high: "
                     +:+ pretty score_difference
                else "") |}, db)).
Proof.
  intros Hm Htop. unfold validate_move. run_M. rewrite Hm, Htop.
  reflexivity.
Qed.

(** C8: for a user without a [user_settings] row, [validate_move] raises
    nothing and judges by the thresholds 3 and 10: a found move succeeds
    exactly when its rank is at most 3 and its score difference to the
    rank-1 move at most 10, with result "pass" or "fail" accordingly.  What
    it returns is what it returns for any user whose row holds (3, 10), and
    what it returns for the same user once such a row is stored. *)
Theorem validate_move_default_thresholds (db : DB) (position_id : Z)
    (selected_move : string) (user_id : Z) :
  select_user_settings user_id db = [] →
  ∃ v, validate_move position_id selected_move user_id db = (inr v, db)
    ∧ (∀ m top,
         fetchone (select_selected_move position_id selected_move db)
         = Some m →
         fetchone (select_top_move position_id db) = Some top →
         (v_success v = true ↔
            mv_rank m ≤ 3 ∧ Z.abs (mv_score m - mv_score top) ≤ 10)
         ∧ (3 < mv_rank m → v_success v = false)
         ∧ (10 < Z.abs (mv_score m - mv_score top) → v_success v = false)
         ∧ (v_result v = Some "pass" ↔ v_success v = true)
         ∧ (v_result v = Some "fail" ↔ v_success v = false))
    ∧ (∀ user_id' s,
         fetchone (select_user_settings user_id' db) = Some s →
         us_top_n_threshold s = 3 →
         us_score_difference_threshold s = 10 →
         validate_move position_id selected_move user_id' db = (inr v, db))
    ∧ (∀ random theme,
         let db' :=
           {| positions := positions db; moves := moves db;
              user_moves := user_moves db;
              user_moves_seq := user_moves_seq db;
              user_settings :=
                (user_settings db
                 ++ [{| us_user_id := user_id;
                        us_random_positions := random;
                        us_top_n_threshold := 3;
                        us_score_difference_threshold := 10;
                        us_theme := theme |}])%list |} in
         validate_move position_id selected_move user_id db' = (inr v, db')).
Proof.
  intros Hnone.
  pose (row := λ random theme,
          {| us_user_id := user_id; us_random_positions := random;
             us_top_n_threshold := 3; us_score_difference_threshold := 10;
             us_theme := theme |}).
  assert (Hrow : ∀ random theme,
            fetchone (filter (λ s, us_user_id s = user_id)
                             ((user_settings db ++ [row random theme])%list))
            = Some (row random theme)).
  { intros random theme. rewrite filter_app.
    fold (select_user_settings user_id db). rewrite Hnone.
    rewrite filter_cons. cbn [row us_user_id].
    by rewrite decide_True. }
  subst row. cbv beta in Hrow.
  destruct (fetchone (select_selected_move position_id selected_move db))
    as [m|] eqn:Hm;
    [destruct (fetchone (select_top_move position_id db))
       as [top|] eqn:Htop|].
  - eexists. split; [apply (validate_move_found _ _ _ _ m top Hm Htop)|].
    rewrite Hnone. cbn [fetchone head]. split; [|split].
    + intros m' top' [= <-] [= <-]. cbn [v_success v_result].
      destruct (Z.leb_spec (mv_rank m) 3);
        destruct (Z.leb_spec (Z.abs (mv_score m - mv_score top)) 10);
        cbn [andb]; repeat split; intros; try done; try lia.
    + intros user_id' s Hs Hn Hd.
      rewrite (validate_move_found _ _ _ _ m top Hm Htop), Hs, Hn, Hd.
      reflexivity.
    + intros random theme. cbv zeta.
      erewrite validate_move_found; [|exact Hm|exact Htop].
      unfold select_user_settings. cbn [user_settings].
      rewrite (Hrow random theme). reflexivity.
  - exists not_found.
    assert (Hempty : select_selected_move position_id selected_move db = []
                     ∨ select_top_move position_id db = [])
      by (right; by apply head_None).
    split; [by apply validate_move_lookup_empty|]. split; [|split].
    + intros m' top' _ [=].
    + intros. by apply validate_move_lookup_empty.
    + intros random theme. cbv zeta. by apply validate_move_lookup_empty.
  - exists not_found.
    assert (Hempty : select_selected_move position_id selected_move db = []
                     ∨ select_top_move position_id db = [])
      by (left; by apply head_None).
    split; [by apply validate_move_lookup_empty|]. split; [|split].
    + intros m' top' [=].
    + intros. by apply validate_move_lookup_empty.
    + intros random theme. cbv zeta. by apply validate_move_lookup_empty.
Qed.

(** User 9 has no row: "d4" (rank 2, 5 below the top score) passes under
    (3, 10), as it does for user 3, whose row holds (3, 10). *)
Lemma validate_move_default_thresholds_witness :
  ∃ v, validate_move 1 "d4" 9 sample_db = (inr v, sample_db)
    ∧ v_success v = true
    ∧ validate_move 1 "d4" 3 sample_db = (inr v, sample_db).
Proof.
  destruct (validate_move_default_thresholds sample_db 1 "d4" 9 eq_refl)
    as (v & Hv & Hok & Hsame & _).
  exists v. split; [exact Hv|]. split.
  - destruct (Hok (sample_move 2 1 "d4" "d2d4" 25 2)
                  (sample_move 1 1 "e4" "e2e4" 30 1) eq_refl eq_refl)
      as [Hiff _].
    apply Hiff. cbn. lia.
  - apply (Hsame 3 (sample_settings 3 3 10)); reflexivity.
Defined.

(** ** Validation reads, recording appends (C10) *)

Lemma record_user_move_run (db : DB) (now : string)
    (user_id position_id move_id : Z) (time_taken : float)
    (result : string) :
  record_user_move now user_id position_id move_id time_taken result db
  = (inr (next_rowid (user_moves_seq db) (um_id <$> user_moves db)),
     insert_user_move now user_id position_id move_id time_taken result db).
Proof. reflexivity. Qed.

(** C10: [validate_move] leaves the store exactly as it found it, whatever
    its arguments: [positions], [moves], [user_moves] and [user_settings]
    are unchanged, so validating records no attempt; [record_user_move] is
    what adds a row to [user_moves]. *)
Theorem validate_move_read_only (db : DB) (position_id : Z)
    (selected_move : string) (user_id : Z) (now : string)
    (move_id : Z) (time_taken : float) (result : string) :
  snd (validate_move position_id selected_move user_id db) = db
  ∧ length (user_moves
              (snd (validate_move position_id selected_move user_id db)))
    = length (user_moves db)
  ∧ length (user_moves
              (snd (record_user_move now user_id position_id move_id
                                     time_taken result db)))
    = S (length (user_moves db)).
Proof.
  assert (Hro : snd (validate_move position_id selected_move user_id db)
                = db).
  { unfold validate_move. run_M.
    destruct (head (select_selected_move position_id selected_move db)),
      (head (select_top_move position_id db)); reflexivity. }
  rewrite Hro, record_user_move_run. split; [done|]. split; [done|].
  cbn. rewrite length_app. cbn. lia.
Qed.

(** ** Recording and attaching analysis (C6) *)

Lemma sql_max_upper_bound (xs : list Z) (x m : Z) :
  x ∈ xs → sql_max xs = Some m → x ≤ m.
Proof.
  destruct xs as [|y ys]; [by intros ?%elem_of_nil|].
  cbn. intros Hin [= <-]. revert x Hin.
  induction ys as [|z ys IH]; intros x Hin; cbn.
  - apply list_elem_of_singleton in Hin. lia.
  - apply elem_of_cons in Hin as [->|Hin].
    + specialize (IH y ltac:(left)). lia.
    + apply elem_of_cons in Hin as [->|Hin]; [lia|].
      specialize (IH x ltac:(by right)). lia.
Qed.

(** The rowid of an insert is above every rowid of the table. *)
Lemma next_rowid_fresh (seq : Z) (ids : list Z) (x : Z) :
  x ∈ ids → x < next_rowid seq ids.
Proof.
  intros Hin. unfold next_rowid.
  destruct (sql_max ids) as [m|] eqn:E.
  - pose proof (sql_max_upper_bound ids x m Hin E). cbn. lia.
  - destruct ids; [by apply elem_of_nil in Hin|done].
Qed.

Lemma save_openai_analysis_run (db : DB) (move_record_id : Z)
    (analysis_text : string) :
  save_openai_analysis move_record_id analysis_text db
  = (inr true, update_openai_analysis analysis_text move_record_id db).
Proof. reflexivity. Qed.

Lemma attached_attached (i : Z) (t1 t2 : string) (r : user_move_row) :
  attached i t2 (attached i t1 r) = attached i t2 r.
Proof.
  unfold attached. destruct (decide (um_id r = i)) as [Heq|Hne]; cbn.
  - rewrite decide_True by done. reflexivity.
  - rewrite decide_False by done. reflexivity.
Qed.

Lemma attached_other (i : Z) (t : string) (rows : list user_move_row) :
  (∀ r, r ∈ rows → um_id r ≠ i) → attached i t <$> rows = rows.
Proof.
  intros Hno. induction rows as [|r rows IH]; [done|].
  cbn. unfold attached at 1. rewrite decide_False by (apply Hno; left).
  f_equal. apply IH. intros r' Hr'. apply Hno. by right.
Qed.

(** The second UPDATE of one attempt id overwrites the first. *)
Lemma update_openai_analysis_twice (db : DB) (i : Z) (t1 t2 : string) :
  update_openai_analysis t2 i (update_openai_analysis t1 i db)
  = update_openai_analysis t2 i db.
Proof.
  unfold update_openai_analysis, set_user_moves. cbn. f_equal.
  rewrite <- list_fmap_compose. apply list_fmap_ext.
  intros k r _. apply attached_attached.
Qed.

(** C6: [record_user_move] appends exactly one row to [user_moves], with
    the values it was given and no analysis, leaves every other row and
    table alone, and returns the id of the new row, an id above every
    earlier one.  [save_openai_analysis] called on that id with [t1] and
    then with [t2] returns True both times and leaves the earlier rows as
    they were and the new row with [t2] attached: no row is added.  On any
    store and any id, the two calls leave what one call with [t2] leaves:
    as many rows as before, each with its columns unchanged, except that
    the rows of that id carry [t2]. *)
Theorem record_then_attach (db : DB) (now : string)
    (user_id position_id move_id : Z) (time_taken : float)
    (result : string) (i : Z) (t1 t2 : string) :
  (∃ id db1 db2 db3,
      record_user_move now user_id position_id move_id time_taken result db
      = (inr id, db1)
      ∧ db1 = with_attempt (new_attempt id user_id position_id move_id
                                        time_taken result now) db
      ∧ Forall (λ r, um_id r < id) (user_moves db)
      ∧ save_openai_analysis id t1 db1 = (inr true, db2)
      ∧ save_openai_analysis id t2 db2 = (inr true, db3)
      ∧ user_moves db3
        = (user_moves db
           ++ [{| um_id := id; um_user_id := user_id;
                  um_position_id := position_id; um_move_id := move_id;
                  um_time_taken := time_taken; um_result := result;
                  um_timestamp := now;
                  um_openai_analysis := Some t2 |}])%list
      ∧ positions db3 = positions db ∧ moves db3 = moves db
      ∧ user_settings db3 = user_settings db)
  ∧ (∃ db1 db2,
        save_openai_analysis i t1 db = (inr true, db1)
        ∧ save_openai_analysis i t2 db1 = (inr true, db2)
        ∧ save_openai_analysis i t2 db = (inr true, db2)
        ∧ length (user_moves db2) = length (user_moves db)
        ∧ positions db2 = positions db ∧ moves db2 = moves db
        ∧ user_settings db2 = user_settings db
        ∧ ∀ (k : nat) r, user_moves db !! k = Some r →
            ∃ r', user_moves db2 !! k = Some r'
                  ∧ same_attempt r r'
                  ∧ um_openai_analysis r'
                    = if decide (um_id r = i) then Some t2
                      else um_openai_analysis r).
Proof.
  split.
  - assert (Hfresh : Forall (λ r, um_id r
                < next_rowid (user_moves_seq db) (um_id <$> user_moves db))
              (user_moves db)).
    { apply Forall_forall. intros r Hr. apply next_rowid_fresh.
      apply list_elem_of_fmap. by exists r. }
    eexists _, _, _, _. rewrite record_user_move_run.
    split; [reflexivity|]. split; [reflexivity|]. split; [exact Hfresh|].
    rewrite !save_openai_analysis_run.
    split; [reflexivity|]. split; [reflexivity|].
    rewrite update_openai_analysis_twice. cbn. split; [|done].
    rewrite fmap_app. f_equal.
    + apply attached_other. intros r Hr.
      pose proof (proj1 (Forall_forall _ _) Hfresh r Hr) as Hlt.
      cbn in Hlt. lia.
    + cbn. unfold attached. cbn. by rewrite decide_True.
  - eexists _, _. rewrite !save_openai_analysis_run.
    split; [reflexivity|]. split; [reflexivity|].
    rewrite update_openai_analysis_twice. split; [reflexivity|].
    cbn. rewrite length_fmap. repeat split.
    intros k r Hk. rewrite list_lookup_fmap, Hk. eexists.
    split; [reflexivity|]. unfold attached, same_attempt.
    destruct (decide (um_id r = i)); cbn; done.
Qed.

(** Recording on the sample store with one earlier attempt, then attaching
    two texts to the new attempt. *)
Example record_then_attach_sample :
  let db1 := snd (record_user_move "2025-01-02 00:00:00" 1 1 2 3.5%float
                                   "pass" sample_db_exhausted) in
  let db2 := snd (save_openai_analysis 2 "first"%string db1) in
  let db3 := snd (save_openai_analysis 2 "second"%string db2) in
  fst (record_user_move "2025-01-02 00:00:00" 1 1 2 3.5%float "pass"
                        sample_db_exhausted) = inr 2
  ∧ (um_id <$> user_moves db3) = [1; 2]
  ∧ (um_openai_analysis <$> user_moves db3) = [None; Some "second"%string].
Proof. repeat split. Qed.

(** ** Clearing the catalogue (C5) *)

(** C5: while [user_moves] holds at least one row, [clear_positions] returns
    [(False, message)] and the store, [positions] and [moves] included, is
    exactly as before the call; with no [user_moves] row it empties
    [positions] and [moves] and returns True.  So a call that changes
    [positions] or [moves] saw zero [user_moves] rows. *)
Theorem clear_positions_guarded (db : DB) :
  (user_moves db ≠ [] →
     clear_positions db
     = (inr (false, cannot_clear (Z.of_nat (length (user_moves db)))), db))
  ∧ (user_moves db = [] →
     clear_positions db
     = (inr (true, "All positions and moves cleared successfully."),
        set_positions [] (set_moves [] db)))
  ∧ (positions (snd (clear_positions db)) ≠ positions db
     ∨ moves (snd (clear_positions db)) ≠ moves db →
     user_moves db = []).
Proof.
  assert (Hguard : user_moves db ≠ [] →
     clear_positions db
     = (inr (false, cannot_clear (Z.of_nat (length (user_moves db)))), db)).
  { intros Hne. unfold clear_positions, select_count_user_moves. run_M.
    cbn [head].
    destruct (Z.ltb_spec 0 (Z.of_nat (length (user_moves db)))) as [_|Hle];
      [reflexivity|].
    destruct (user_moves db); [done|cbn in Hle; lia]. }
  split; [exact Hguard|]. split.
  - intros Hnil. unfold clear_positions, select_count_user_moves. run_M.
    rewrite Hnil. reflexivity.
  - intros Hchanged. destruct (user_moves db) as [|r rows] eqn:E; [done|].
    rewrite Hguard in Hchanged by done. cbn in Hchanged.
    destruct Hchanged as [Hc|Hc]; by destruct Hc.
Qed.

Lemma clear_positions_guarded_witness :
  clear_positions sample_db_exhausted
  = (inr (false,
          cannot_clear (Z.of_nat (length (user_moves sample_db_exhausted)))),
     sample_db_exhausted)
  ∧ clear_positions sample_db
    = (inr (true, "All positions and moves cleared successfully."),
       set_positions [] (set_moves [] sample_db)).
Proof.
  split.
  - apply (proj1 (clear_positions_guarded sample_db_exhausted)). done.
  - apply (proj1 (proj2 (clear_positions_guarded sample_db))). reflexivity.
Defined.

(** One attempt on record: the refusal names the count and both tables keep
    their rows. *)
Example clear_positions_refused :
  fst (clear_positions sample_db_exhausted)
  = inr (false,
         "Cannot clear positions: 1 user moves would be lost. Export user data first.")
  ∧ length (positions (snd (clear_positions sample_db_exhausted))) = 2%nat
  ∧ length (moves (snd (clear_positions sample_db_exhausted))) = 3%nat.
Proof. repeat split. Qed.

(** ** The sequential selector (C2) *)

Lemma last_position_id_highest (v : option Z) :
  (if truthy v then default 0 v else 0) = default 0 v.
Proof.
  destruct v as [n|]; [|done]. cbn.
  destruct (Z.eqb_spec n 0) as [->|_]; reflexivity.
Qed.

(** MIN picks an element below all others. *)
Lemma sql_min_least (xs : list Z) (m : Z) :
  sql_min xs = Some m → m ∈ xs ∧ ∀ x, x ∈ xs → m ≤ x.
Proof.
  destruct xs as [|y ys]; [done|]. cbn. intros [= <-].
  induction ys as [|z ys [IHin IHle]]; cbn.
  - split; [left|]. intros x ->%list_elem_of_singleton. lia.
  - split.
    + destruct (Z.min_spec z (foldr Z.min y ys)) as [[_ ->]|[_ ->]].
      * right. left.
      * apply elem_of_cons in IHin as [->|IHin]; [left|].
        right. by right.
    + intros x Hx. apply elem_of_cons in Hx as [->|Hx].
      * specialize (IHle y ltac:(left)). lia.
      * apply elem_of_cons in Hx as [->|Hx]; [lia|].
        specialize (IHle x ltac:(by right)). lia.
Qed.

(** Resuming: when some position lies after the highest attempted one, the
    selector returns the one with the smallest such id. *)
Lemma get_sequential_position_resumes (decode : string → string + json)
    (db : DB) (user_id next : Z) :
  sql_min (pos_id <$> filter (λ p, highest_attempted user_id db < pos_id p)
                             (positions db)) = Some next →
  next ≠ 0 →
  get_sequential_position decode user_id db
  = get_position_by_id decode next db.
Proof.
  intros Hnext Hnz. unfold get_sequential_position.
  unfold select_last_position, select_next_position. run_M. cbn [head].
  rewrite last_position_id_highest. fold (highest_attempted user_id db).
  rewrite Hnext. apply Z.eqb_neq in Hnz.
  cbn [truthy]. rewrite Hnz. cbn [negb truthy]. rewrite Hnz.
  cbn [negb truthy]. rewrite Hnz. reflexivity.
Qed.

(** With a position [p] after the highest attempted one (and no position
    id 0), the selector hands out the position of the least id above it. *)
Lemma get_sequential_position_next (decode : string → string + json)
    (db : DB) (user_id : Z) (p : position_row) :
  p ∈ positions db → highest_attempted user_id db < pos_id p →
  (∀ q, q ∈ positions db → pos_id q ≠ 0) →
  ∃ next, get_sequential_position decode user_id db
          = get_position_by_id decode next db
          ∧ highest_attempted user_id db < next
          ∧ (∃ q, q ∈ positions db ∧ pos_id q = next)
          ∧ ∀ q, q ∈ positions db →
                 highest_attempted user_id db < pos_id q → next ≤ pos_id q.
Proof.
  intros Hp Hafter Hnz.
  destruct (sql_min (pos_id <$>
              filter (λ p, highest_attempted user_id db < pos_id p)
                     (positions db))) as [next|] eqn:E.
  - destruct (sql_min_least _ _ E) as [Hin Hle].
    apply list_elem_of_fmap in Hin as (q & -> & Hq).
    apply list_elem_of_filter in Hq as [Hlt Hq].
    exists (pos_id q). split.
    + apply get_sequential_position_resumes; [done|by apply Hnz].
    + split; [done|]. split; [by exists q|].
      intros q' Hq' Hlt'. apply Hle, list_elem_of_fmap.
      exists q'. split; [done|]. by apply list_elem_of_filter.
  - exfalso.
    assert (Hin : p ∈ filter
                    (λ p, highest_attempted user_id db < pos_id p)
                    (positions db)) by by apply list_elem_of_filter.
    destruct (filter _ (positions db)); [by apply elem_of_nil in Hin|].
    discriminate.
Qed.

(** C2, as the code has it: for a user who has attempted the last position
    of the catalogue (no position id exceeds the highest attempted one), and
    likewise on an empty catalogue, the selector neither wraps around to the
    first position nor returns none: its wrap-around query runs through the
    cursor of the connection it has just closed, and the call raises
    [sqlite3.ProgrammingError]. *)
Theorem get_sequential_position_exhausted_raises
    (decode : string → string + json) (db : DB) (user_id : Z) :
  (∀ p, p ∈ positions db → pos_id p ≤ highest_attempted user_id db) →
  get_sequential_position decode user_id db = (inl closed_database, db).
Proof.
  intros Hall. unfold get_sequential_position.
  unfold select_last_position, select_next_position. run_M. cbn [head].
  rewrite last_position_id_highest. fold (highest_attempted user_id db).
  replace (filter (λ p, highest_attempted user_id db < pos_id p)
                  (positions db)) with (@nil position_row).
  - reflexivity.
  - symmetry. apply filter_nil_iff. intros p Hp. specialize (Hall p Hp). lia.
Qed.

Lemma get_sequential_position_exhausted_raises_witness :
  get_sequential_position sample_decode 1 sample_db_exhausted
  = (inl closed_database, sample_db_exhausted).
Proof.
  apply (get_sequential_position_exhausted_raises sample_decode
           sample_db_exhausted 1).
  intros p Hp. cbn in Hp.
  repeat (apply elem_of_cons in Hp as [->|Hp]);
    try (by apply elem_of_nil in Hp); vm_compute; discriminate.
Defined.

(** On the exhausted sample store the first position is there to wrap to,
    and the empty catalogue raises as well. *)
Example get_sequential_position_no_wrap :
  (∃ p, get_position_by_id sample_decode 1 sample_db_exhausted
        = (inr (Some p), sample_db_exhausted) ∧ pd_id p = 1)
  ∧ get_sequential_position sample_decode 1 sample_db_exhausted
    = (inl closed_database, sample_db_exhausted)
  ∧ get_sequential_position sample_decode 1 empty_db
    = (inl closed_database, empty_db).
Proof.
  split; [|split; reflexivity].
  eexists. split; [vm_compute; reflexivity|reflexivity].
Qed.

(** Before any attempt the selector serves the first position. *)
Example get_sequential_position_fresh_user :
  get_sequential_position sample_decode 1 sample_db
  = get_position_by_id sample_decode 1 sample_db.
Proof. by apply get_sequential_position_resumes. Qed.

(** ** A legal move outside the candidates (C9) *)

Global Instance rank_le_trans : Transitive rank_le.
Proof. intros a b c. unfold rank_le. lia. Qed.

Global Instance rank_le_total : Total rank_le.
Proof. intros a b. unfold rank_le. lia. Qed.

Global Instance rank_le_refl : Reflexive rank_le.
Proof. intros a. unfold rank_le. lia. Qed.

(** The last element of a sorted list is above all of them. *)
Lemma last_of_sorted {A} (R : relation A) `{!Reflexive R} (l : list A)
    (x : A) :
  StronglySorted R l → last l = Some x → ∀ y, y ∈ l → R y x.
Proof.
  intros Hsorted Hlast y Hy.
  apply last_Some in Hlast as [l' ->].
  apply StronglySorted_app in Hsorted as (Hcross & _ & _).
  apply elem_of_app in Hy as [Hy|Hy].
  - apply Hcross; [done|left].
  - apply list_elem_of_singleton in Hy as ->. reflexivity.
Qed.

Lemma select_moves_by_rank_elem_of (db : DB) (position_id : Z)
    (m : move_row) :
  m ∈ select_moves_by_rank position_id db
  ↔ m ∈ moves db ∧ mv_position_id m = position_id.
Proof.
  unfold select_moves_by_rank.
  rewrite merge_sort_Permutation, list_elem_of_filter. tauto.
Qed.

(** ORDER BY rank: the last row has the highest rank of the position. *)
Lemma select_moves_by_rank_last (db : DB) (position_id : Z)
    (lowest : move_row) :
  last (select_moves_by_rank position_id db) = Some lowest →
  lowest ∈ moves db ∧ mv_position_id lowest = position_id
  ∧ ∀ m, m ∈ moves db → mv_position_id m = position_id →
         mv_rank m ≤ mv_rank lowest.
Proof.
  intros Hlast.
  assert (Hin : lowest ∈ select_moves_by_rank position_id db)
    by by apply last_Some_elem_of.
  apply select_moves_by_rank_elem_of in Hin as [Hin Hpos].
  split; [done|]. split; [done|]. intros m Hm Hp.
  apply (last_of_sorted rank_le (select_moves_by_rank position_id db));
    [apply StronglySorted_merge_sort; apply _|done|].
  by apply select_moves_by_rank_elem_of.
Qed.

(** ** Decoding the JSON columns *)

Section decoding.
Context (decode : string → string + json).

Lemma json_loads_inr (v : sql_value) (value : json) (db db' : DB) :
  json_loads decode v db = (inr value, db') →
  db' = db ∧ ∃ s, v = SqlText s ∧ decode s = inr value.
Proof.
  destruct v as [| | |s]; try discriminate. unfold json_loads.
  destruct (decode s) as [msg|value'] eqn:E; [discriminate|].
  intros [= <- <-]. split; [done|]. by exists s.
Qed.

Lemma json_loads_decodes (v : sql_value) (db : DB) :
  decodes decode v → ∃ value, json_loads decode v db = (inr value, db).
Proof.
  intros (s & value & -> & Hs). exists value. unfold json_loads.
  by rewrite Hs.
Qed.

Lemma json_loads_raises (v : sql_value) (db : DB) :
  ¬ decodes decode v →
  ∃ e, json_loads decode v db = (inl e, db) ∧ decode_error e.
Proof.
  intros Hno. destruct v as [| | |s]; try (by eexists).
  unfold json_loads. destruct (decode s) as [msg|value] eqn:E.
  - by eexists.
  - exfalso. apply Hno. by exists s, value.
Qed.

(** The three outcomes of [json.loads] on a column. *)
Lemma json_loads_cases (v : sql_value) (db : DB) :
  (decodes decode v ∧ ∃ value, json_loads decode v db = (inr value, db))
  ∨ (¬ decodes decode v
     ∧ ∃ e, json_loads decode v db = (inl e, db) ∧ decode_error e).
Proof.
  destruct (json_loads decode v db) as [[e|value] db'] eqn:E.
  - right. assert (Hno : ¬ decodes decode v).
    { intros Hyes. destruct (json_loads_decodes v db Hyes) as [? Hv].
      congruence. }
    split; [done|]. destruct (json_loads_raises v db Hno) as (e' & He & ?).
    exists e'. split; [congruence|done].
  - left. apply json_loads_inr in E as [-> (s & -> & Hs)].
    split; [by exists s, value|by exists value].
Qed.

(** The loop returns the dicts of the rows, in their order. *)
Lemma moves_data_inr (rows : list move_row) (l : list move_data)
    (db db' : DB) :
  moves_data decode rows db = (inr l, db') →
  db' = db ∧ Forall2 (move_data_of decode) rows l.
Proof.
  revert l db'. induction rows as [|m rows IH]; intros l db'.
  - intros [= <- <-]. split; [done|constructor].
  - cbn [moves_data]. run_M.
    destruct (json_loads decode (mv_tactics m) db) as [[e|t] d1] eqn:Et;
      [discriminate|].
    apply json_loads_inr in Et as [-> (st & Hst & Ht)].
    destruct (json_loads decode (mv_position_impact m) db)
      as [[e|i] d2] eqn:Ei; [discriminate|].
    apply json_loads_inr in Ei as [-> (si & Hsi & Hi)].
    destruct (moves_data decode rows db) as [[e|rest] d3] eqn:Er;
      [discriminate|].
    destruct (IH rest d3 eq_refl) as [-> Hrest]. intros [= <- <-].
    split; [done|]. constructor; [|done].
    unfold move_data_of. cbn. repeat split; eauto.
Qed.

(** The loop returns when every row decodes and raises otherwise. *)
Lemma moves_data_cases (rows : list move_row) (db : DB) :
  (Forall (move_decodes decode) rows
   ∧ ∃ l, moves_data decode rows db = (inr l, db))
  ∨ (¬ Forall (move_decodes decode) rows
     ∧ ∃ e, moves_data decode rows db = (inl e, db) ∧ decode_error e).
Proof.
  induction rows as [|m rows IH]; [left; split; [constructor|by eexists]|].
  cbn [moves_data]. run_M.
  assert (Hhead : ∀ P : Prop, ¬ P → (move_decodes decode m → P) →
                  ¬ Forall (move_decodes decode) (m :: rows)).
  { intros P HnP HP Hall. apply Forall_cons in Hall as [Hm _]. tauto. }
  destruct (json_loads_cases (mv_tactics m) db)
    as [[Ht [t ->]] | [Ht (e & -> & He)]].
  2: { right. split; [|by exists e].
       apply (Hhead _ Ht). by intros [? _]. }
  destruct (json_loads_cases (mv_position_impact m) db)
    as [[Hi [i ->]] | [Hi (e & -> & He)]].
  2: { right. split; [|by exists e].
       apply (Hhead _ Hi). by intros [_ ?]. }
  destruct IH as [[Hrows [rest ->]] | [Hrows (e & -> & He)]].
  - left. split; [by constructor|by eexists].
  - right. split; [|by exists e].
    intros Hall. apply Forall_cons in Hall as [_ ?]. tauto.
Qed.

(** What [get_position_by_id] hands to the page. *)
Lemma get_position_by_id_Some (db db' : DB) (position_id : Z)
    (position : position_data) :
  get_position_by_id decode position_id db = (inr (Some position), db') →
  db' = db
  ∧ pd_id position = position_id
  ∧ (∃ p, fetchone (select_position position_id db) = Some p
          ∧ pd_fen position = pos_fen p ∧ pd_turn position = pos_turn p
          ∧ pd_fullmove_number position = pos_fullmove_number p
          ∧ (∃ s, pos_position_classification p = Some s
                  ∧ decode s = inr (pd_position_classification position))
          ∧ (∃ s, pos_metadata p = SqlText s
                  ∧ decode s = inr (pd_metadata position)))
  ∧ Forall2 (move_data_of decode) (select_moves_by_rank position_id db)
            (pd_moves position).
Proof.
  unfold get_position_by_id. run_M.
  destruct (head (select_position position_id db)) as [p|] eqn:E;
    [|discriminate].
  destruct (json_loads decode (text_value (pos_position_classification p))
                       db) as [[e|c] d1] eqn:Ec; [discriminate|].
  apply json_loads_inr in Ec as [-> (sc & Hsc & Hc)].
  destruct (json_loads decode (pos_metadata p) db) as [[e|md] d2] eqn:Em;
    [discriminate|].
  apply json_loads_inr in Em as [-> (sm & Hsm & Hm)].
  destruct (moves_data decode (select_moves_by_rank position_id db) db)
    as [[e|l] d3] eqn:El; [discriminate|].
  apply moves_data_inr in El as [-> Hl]. intros [= <- <-].
  split; [done|]. cbn. split; [by apply head_filter_Some in E as [_ ?]|].
  split; [|done]. exists p. repeat split; [|by exists sm].
  exists sc. split; [|done].
  by destruct (pos_position_classification p); simplify_eq/=.
Qed.

Lemma get_position_by_id_missing (db : DB) (position_id : Z) :
  select_position position_id db = [] →
  get_position_by_id decode position_id db = (inr None, db).
Proof.
  intros Hnone. unfold get_position_by_id. run_M. rewrite Hnone.
  reflexivity.
Qed.

(** With a row found, the call returns a position when every column it
    decodes holds a text the decoder accepts, and raises otherwise. *)
Lemma get_position_by_id_cases (db : DB) (position_id : Z)
    (p : position_row) :
  fetchone (select_position position_id db) = Some p →
  (position_decodes decode p
   ∧ Forall (move_decodes decode) (select_moves_by_rank position_id db)
   ∧ ∃ position,
       get_position_by_id decode position_id db = (inr (Some position), db))
  ∨ (¬ (position_decodes decode p
        ∧ Forall (move_decodes decode)
                 (select_moves_by_rank position_id db))
     ∧ ∃ e, get_position_by_id decode position_id db = (inl e, db)
            ∧ decode_error e).
Proof.
  intros Hp. unfold get_position_by_id, position_decodes. run_M.
  rewrite Hp.
  destruct (json_loads_cases (text_value (pos_position_classification p))
                             db)
    as [[Hc [c ->]] | [Hc (e & -> & He)]];
    [|right; split; [tauto|by exists e]].
  destruct (json_loads_cases (pos_metadata p) db)
    as [[Hm [md ->]] | [Hm (e & -> & He)]];
    [|right; split; [tauto|by exists e]].
  destruct (moves_data_cases (select_moves_by_rank position_id db) db)
    as [[Hl [l ->]] | [Hl (e & -> & He)]].
  - left. split; [done|]. split; [done|]. by eexists.
  - right. split; [tauto|by exists e].
Qed.

(** Reading a position never writes. *)
Lemma get_position_by_id_snd (db : DB) (position_id : Z) :
  snd (get_position_by_id decode position_id db) = db.
Proof.
  destruct (fetchone (select_position position_id db)) as [p|] eqn:Hp.
  - destruct (get_position_by_id_cases db position_id p Hp)
      as [(_ & _ & position & ->) | (_ & e & -> & _)]; reflexivity.
  - rewrite get_position_by_id_missing; [done|]. by apply head_None.
Qed.

(** A position of a catalogue whose JSON columns decode is returned. *)
Lemma get_position_by_id_elem_of (db : DB) (p : position_row) :
  catalogue_decodes decode db → p ∈ positions db →
  ∃ position,
    get_position_by_id decode (pos_id p) db = (inr (Some position), db)
    ∧ pd_id position = pos_id p.
Proof.
  intros [Hpos Hmoves] Hp.
  assert (Hsel : p ∈ select_position (pos_id p) db)
    by by apply list_elem_of_filter.
  destruct (select_position (pos_id p) db) as [|q qs] eqn:E;
    [by apply elem_of_nil in Hsel|].
  assert (Hq : q ∈ positions db).
  { eapply (proj1 (list_elem_of_filter _ _ q)).
    unfold select_position in E. rewrite E. left. }
  destruct (get_position_by_id_cases db (pos_id p) q)
    as [(_ & _ & position & Hget) | (Hno & _)].
  - by rewrite E.
  - exists position. split; [done|].
    by apply get_position_by_id_Some in Hget as (_ & ? & _).
  - exfalso. apply Hno. split; [by apply Hpos|].
    apply Forall_forall. intros m Hm. apply Hmoves.
    by apply select_moves_by_rank_elem_of in Hm as [? _].
Qed.
End decoding.

(** LIMIT 1 before [fetchone] changes nothing. *)
Lemma head_take_1 {A} (l : list A) : head (take 1 l) = head l.
Proof. by destruct l. Qed.

(** C9: let [position] be what [get_position_by_id] returned for the page
    (from a store [db0]) and [selected_move] match none of its candidates.
    If the candidate list is empty, which it is when the position has no
    candidate in [db0], the handler records nothing: store and
    [last_move_record] stay as they are.  Otherwise the last element of the
    list is a candidate of the position of highest rank number, and the
    handler appends exactly one attempt to [user_moves]: of the user, on the
    position, with result "fail" and no analysis, against the id of that
    candidate when the id is usable (non-zero), or else against the non-zero
    id the store holds for its notation; the id of the new attempt becomes
    [last_move_record].  With no usable id either way it records nothing. *)
Theorem submit_move_unanalyzed (decode : string → string + json)
    (db0 db : DB) (now : string)
    (position_id : Z) (position : position_data) (selected_move : string)
    (user_id : Z) (elapsed_time : float) (last_move_record : option Z) :
  get_position_by_id decode position_id db0 = (inr (Some position), db0) →
  (∀ m, m ∈ pd_moves position → md_move m ≠ selected_move) →
  let id := next_rowid (user_moves_seq db) (um_id <$> user_moves db) in
  ((∀ m, m ∈ moves db0 → mv_position_id m ≠ position_id) →
     pd_moves position = [])
  ∧ (pd_moves position = [] →
       submit_move now position selected_move user_id elapsed_time
                   last_move_record db
       = (inr (not_among_top selected_move, last_move_record), db))
  ∧ (∀ lowest, last (pd_moves position) = Some lowest →
       (∃ row, row ∈ moves db0 ∧ mv_position_id row = position_id
               ∧ move_data_of decode row lowest
               ∧ ∀ m, m ∈ moves db0 → mv_position_id m = position_id →
                      mv_rank m ≤ md_rank lowest)
       ∧ (md_id lowest ≠ 0 →
          submit_move now position selected_move user_id elapsed_time
                      last_move_record db
          = (inr (not_among_top selected_move, Some id),
             {| positions := positions db; moves := moves db;
                user_moves :=
                  (user_moves db
                   ++ [{| um_id := id; um_user_id := user_id;
                          um_position_id := position_id;
                          um_move_id := md_id lowest;
                          um_time_taken := elapsed_time;
                          um_result := "fail"; um_timestamp := now;
                          um_openai_analysis := None |}])%list;
                user_moves_seq := id;
                user_settings := user_settings db |}))
       ∧ (md_id lowest = 0 →
          ∀ r, fetchone (select_selected_move position_id (md_move lowest)
                                              db) = Some r →
               mv_id r ≠ 0 →
          submit_move now position selected_move user_id elapsed_time
                      last_move_record db
          = (inr (not_among_top selected_move, Some id),
             {| positions := positions db; moves := moves db;
                user_moves :=
                  (user_moves db
                   ++ [{| um_id := id; um_user_id := user_id;
                          um_position_id := position_id;
                          um_move_id := mv_id r;
                          um_time_taken := elapsed_time;
                          um_result := "fail"; um_timestamp := now;
                          um_openai_analysis := None |}])%list;
                user_moves_seq := id;
                user_settings := user_settings db |}))
       ∧ (md_id lowest = 0 →
          mv_id <$> fetchone (select_selected_move position_id
                                (md_move lowest) db) ∈ [None; Some 0] →
          submit_move now position selected_move user_id elapsed_time
                      last_move_record db
          = (inr (not_among_top selected_move, last_move_record), db))).
Proof.
  intros Hpos Hnot id.
  apply get_position_by_id_Some in Hpos as (_ & Hid & _ & Hmoves).
  assert (Hhead : head (filter (λ m, md_move m = selected_move)
                               (pd_moves position)) = None).
  { apply head_None, filter_nil_iff. intros m Hm. by apply Hnot. }
  split; [|split].
  - intros Hnone. apply (Forall2_nil_inv_l (move_data_of decode)).
    replace (@nil move_row) with (select_moves_by_rank position_id db0);
      [done|].
    unfold select_moves_by_rank.
    replace (filter (λ m, mv_position_id m = position_id) (moves db0))
      with (@nil move_row); [reflexivity|].
    symmetry. apply filter_nil_iff. intros m Hm. by apply Hnone.
  - intros Hnil. unfold submit_move. rewrite Hhead, Hnil. reflexivity.
  - intros lowest Hlast. split; [|split; [|split]].
    + pose proof (Forall2_last _ _ _ Hmoves) as Hl. rewrite Hlast in Hl.
      inversion Hl as [row lowest' Hrow Hrl|]; subst.
      symmetry in Hrl. apply select_moves_by_rank_last in Hrl
        as (Hin & Hp & Hmax).
      exists row. split; [done|]. split; [done|]. split; [done|].
      intros m Hm Hmp. destruct Hrow as (_ & _ & _ & _ & _ & _ & _ & _ & -> & _).
      by apply Hmax.
    + intros Hnz. unfold submit_move. rewrite Hhead, Hlast.
      apply Z.eqb_neq in Hnz. cbn [truthy]. rewrite Hnz. cbn [negb].
      run_M. cbn [truthy]. rewrite Hnz. cbn [negb].
      rewrite record_user_move_run, Hid. reflexivity.
    + intros Hz r Hr Hnz. unfold submit_move. rewrite Hhead, Hlast, Hz.
      run_M. cbn [truthy Z.eqb negb]. rewrite head_take_1, Hid, Hr.
      apply Z.eqb_neq in Hnz. cbn [fmap option_fmap option_map truthy].
      rewrite Hnz. cbn [negb]. rewrite record_user_move_run. reflexivity.
    + intros Hz Hr. unfold submit_move. rewrite Hhead, Hlast, Hz.
      run_M. cbn [truthy Z.eqb negb]. rewrite head_take_1, Hid.
      destruct (head (select_selected_move position_id (md_move lowest) db))
        as [r|]; cbn [fmap option_fmap option_map] in *; [|reflexivity].
      apply elem_of_cons in Hr as [[=]|Hr].
      apply list_elem_of_singleton in Hr as [= ->]. reflexivity.
Qed.

(** On the sample store: "a3" is no candidate of position 1, whose last
    candidate is Nf3 (id 3), and position 2 has no candidate. *)
Lemma submit_move_unanalyzed_witness :
  submit_move "2025-01-02 00:00:00" sample_position_1 "a3" 1 2.5%float None
              sample_db
  = (inr (not_among_top "a3", Some 1),
     with_attempt (new_attempt 1 1 1 3 2.5%float "fail"
                               "2025-01-02 00:00:00") sample_db)
  ∧ submit_move "2025-01-02 00:00:00" sample_position_2 "a3" 1 2.5%float
                (Some 7) sample_db
    = (inr (not_among_top "a3", Some 7), sample_db).
Proof.
  split.
  - assert (Hpos : get_position_by_id sample_decode 1 sample_db
                   = (inr (Some sample_position_1), sample_db))
      by reflexivity.
    assert (Hnot : ∀ m, m ∈ pd_moves sample_position_1 → md_move m ≠ "a3").
    { intros m Hm. cbn in Hm.
      repeat (apply elem_of_cons in Hm as [->|Hm]);
        try (by apply elem_of_nil in Hm); discriminate. }
    destruct (submit_move_unanalyzed sample_decode sample_db sample_db
                "2025-01-02 00:00:00" 1 sample_position_1 "a3" 1 2.5%float
                None Hpos Hnot) as (_ & _ & Hlast).
    destruct (Hlast (sample_move_data 3 "Nf3" "g1f3" 10 3) eq_refl)
      as (_ & Hrec & _).
    apply Hrec. discriminate.
  - assert (Hpos : get_position_by_id sample_decode 2 sample_db
                   = (inr (Some sample_position_2), sample_db))
      by reflexivity.
    assert (Hnot : ∀ m, m ∈ pd_moves sample_position_2 → md_move m ≠ "a3").
    { intros m Hm. by apply elem_of_nil in Hm. }
    destruct (submit_move_unanalyzed sample_decode sample_db sample_db
                "2025-01-02 00:00:00" 2 sample_position_2 "a3" 1 2.5%float
                (Some 7) Hpos Hnot) as (_ & Hnone & _).
    apply Hnone. reflexivity.
Defined.

(** * Further properties of the code *)

(** ** Loading a position *)

(** X1: [get_position_by_id] never writes.  It returns None exactly when no
    row of [positions] has the id.  With a row found it returns a position
    exactly when the decoder accepts the row's classification and metadata
    and the tactics and position impact of every candidate of the position;
    otherwise it raises [TypeError] or [JSONDecodeError]: [TypeError] on a
    NULL classification or a number stored as metadata, [JSONDecodeError]
    with the decoder's message on a classification that is no JSON text.
    The position returned carries the id, the columns of the row and the
    decoded values, and its candidates are the dicts of the moves of the
    position: each once, none of another position, in ascending rank
    order. *)
Theorem get_position_by_id_candidates (decode : string → string + json)
    (db : DB) (position_id : Z) :
  snd (get_position_by_id decode position_id db) = db
  ∧ ((∀ p, p ∈ positions db → pos_id p ≠ position_id) ↔
       get_position_by_id decode position_id db = (inr None, db))
  ∧ (∀ p, fetchone (select_position position_id db) = Some p →
       let all_decode :=
         position_decodes decode p
         ∧ ∀ m, m ∈ moves db → mv_position_id m = position_id →
                move_decodes decode m in
       ((∃ position, get_position_by_id decode position_id db
                     = (inr (Some position), db)) ↔ all_decode)
       ∧ ((∃ e, get_position_by_id decode position_id db = (inl e, db)
                ∧ decode_error e) ↔ ¬ all_decode)
       ∧ (pos_position_classification p = None →
          get_position_by_id decode position_id db
          = (inl (not_str "NoneType"), db))
       ∧ (∀ s msg, pos_position_classification p = Some s →
            decode s = inl msg →
            get_position_by_id decode position_id db
            = (inl (JSONDecodeError msg), db))
       ∧ (∀ s value n, pos_position_classification p = Some s →
            decode s = inr value → pos_metadata p = SqlInteger n →
            get_position_by_id decode position_id db
            = (inl (not_str "int"), db)))
  ∧ (∀ position,
       get_position_by_id decode position_id db = (inr (Some position), db) →
       pd_id position = position_id
       ∧ (∃ p, p ∈ positions db ∧ pos_id p = position_id
               ∧ pd_fen position = pos_fen p
               ∧ pd_turn position = pos_turn p
               ∧ pd_fullmove_number position = pos_fullmove_number p
               ∧ (∃ s, pos_position_classification p = Some s
                       ∧ decode s
                         = inr (pd_position_classification position))
               ∧ (∃ s, pos_metadata p = SqlText s
                       ∧ decode s = inr (pd_metadata position)))
       ∧ ∃ rows,
           rows ≡ₚ filter (λ m, mv_position_id m = position_id) (moves db)
           ∧ StronglySorted rank_le rows
           ∧ Forall2 (move_data_of decode) rows (pd_moves position)).
Proof.
  split; [apply get_position_by_id_snd|]. split; [|split].
  - split.
    + intros Hnone. apply get_position_by_id_missing, filter_nil_iff.
      intros p Hp. by apply Hnone.
    + intros Hres p Hp Hid.
      assert (Hin : p ∈ select_position position_id db)
        by by apply list_elem_of_filter.
      destruct (select_position position_id db) as [|q qs] eqn:E;
        [by apply elem_of_nil in Hin|].
      destruct (get_position_by_id_cases decode db position_id q)
        as [(_ & _ & position & Hget) | (_ & e & Hget & _)];
        [by rewrite E|congruence|congruence].
  - intros p Hp all_decode.
    assert (Hall : all_decode ↔
              position_decodes decode p
              ∧ Forall (move_decodes decode)
                       (select_moves_by_rank position_id db)).
    { unfold all_decode. rewrite Forall_forall.
      split; intros [Hpd Hm]; (split; [done|]).
      - intros m Hin. apply select_moves_by_rank_elem_of in Hin as [? ?].
        by apply Hm.
      - intros m Hin Hmp. apply Hm.
        by apply select_moves_by_rank_elem_of. }
    destruct (get_position_by_id_cases decode db position_id p Hp)
      as [(Hpd & Hm & position & Hget) | (Hno & e & Hget & He)].
    + split; [|split; [|split; [|split]]].
      * split; [intros _; by apply Hall|by exists position].
      * split; [intros (e & He & _); congruence|].
        intros Hno. exfalso. by apply Hno, Hall.
      * intros Hc. destruct Hpd as [(s & ? & Hs & _) _].
        rewrite Hc in Hs. discriminate.
      * intros s msg Hc Hs. destruct Hpd as [(s' & ? & Hs' & Hd) _].
        rewrite Hc in Hs'. cbn in Hs'. congruence.
      * intros s value n Hc Hs Hmd. destruct Hpd as [_ (s' & ? & Hs' & _)].
        congruence.
    + split; [|split; [|split; [|split]]].
      * split; [intros [position Hp']; congruence|].
        intros Hyes. exfalso. by apply Hno, Hall.
      * split; [intros _ Hyes; by apply Hno, Hall|by exists e].
      * intros Hc. unfold get_position_by_id. run_M.
        rewrite Hp, Hc. reflexivity.
      * intros s msg Hc Hs. unfold get_position_by_id. run_M.
        rewrite Hp, Hc. cbn [text_value json_loads]. rewrite Hs.
        reflexivity.
      * intros s value n Hc Hs Hmd. unfold get_position_by_id. run_M.
        rewrite Hp, Hc, Hmd. cbn [text_value json_loads]. rewrite Hs.
        reflexivity.
  - intros position Hget.
    apply get_position_by_id_Some in Hget
      as (_ & Hid & (p & Hp & Hrow) & Hmoves).
    split; [done|]. split.
    + exists p. apply head_filter_Some in Hp as [Hin Hpid].
      destruct Hrow as (? & ? & ? & ? & ?). do 6 (split; [done|]). done.
    + exists (select_moves_by_rank position_id db). split; [|split; [|done]].
      * apply merge_sort_Permutation.
      * apply StronglySorted_merge_sort; apply _.
Qed.

(** Position 1 of the sample store as decoded; with the tactics of its
    second candidate stored as the number 5 the call raises. *)
Example get_position_by_id_sample :
  get_position_by_id sample_decode 1 sample_db
  = (inr (Some sample_position_1), sample_db)
  ∧ get_position_by_id sample_decode 1
      (set_moves [sample_move 1 1 "e4" "e2e4" 30 1;
                  {| mv_id := 2; mv_position_id := 1; mv_move := "d4";
                     mv_uci := "d2d4"; mv_score := 25; mv_depth := 20;
                     mv_centipawn_loss := 5; mv_classification := "good";
                     mv_principal_variation := None;
                     mv_tactics := SqlInteger 5;
                     mv_position_impact := SqlText "{}"; mv_rank := 2 |}]
                 sample_db)
    = (inl (not_str "int"),
       set_moves [sample_move 1 1 "e4" "e2e4" 30 1;
                  {| mv_id := 2; mv_position_id := 1; mv_move := "d4";
                     mv_uci := "d2d4"; mv_score := 25; mv_depth := 20;
                     mv_centipawn_loss := 5; mv_classification := "good";
                     mv_principal_variation := None;
                     mv_tactics := SqlInteger 5;
                     mv_position_impact := SqlText "{}"; mv_rank := 2 |}]
                 sample_db).
Proof. split; reflexivity. Qed.

(** ** The sequential selector, where it works *)

Lemma sql_max_Some_elem_of (xs : list Z) (x : Z) :
  x ∈ xs → ∃ m, sql_max xs = Some m ∧ x ≤ m.
Proof.
  intros Hin. destruct (sql_max xs) as [m|] eqn:E.
  - exists m. split; [done|]. by eapply sql_max_upper_bound.
  - destruct xs; [by apply elem_of_nil in Hin|done].
Qed.

(** Whatever position the selector returns lies after the highest attempted
    one, and is the first such position. *)
Lemma get_sequential_position_Some (decode : string → string + json)
    (db db' : DB) (user_id : Z) (position : position_data) :
  get_sequential_position decode user_id db = (inr (Some position), db') →
  db' = db
  ∧ highest_attempted user_id db < pd_id position
  ∧ (∃ p, p ∈ positions db ∧ pos_id p = pd_id position)
  ∧ ∀ q, q ∈ positions db → highest_attempted user_id db < pos_id q →
         pd_id position ≤ pos_id q.
Proof.
  unfold get_sequential_position.
  unfold select_last_position, select_next_position. run_M. cbn [head].
  rewrite last_position_id_highest. fold (highest_attempted user_id db).
  destruct (sql_min (pos_id <$>
              filter (λ p, highest_attempted user_id db < pos_id p)
                     (positions db))) as [next|] eqn:E;
    [|cbn; discriminate].
  cbn [truthy]. destruct (Z.eqb_spec next 0) as [->|Hnz];
    cbn [negb truthy]; [discriminate|].
  apply Z.eqb_neq in Hnz. rewrite Hnz. cbn [negb truthy]. rewrite Hnz.
  cbn [negb]. intros Hget.
  destruct (sql_min_least _ _ E) as [Hin Hle].
  apply list_elem_of_fmap in Hin as (p & -> & Hp).
  apply list_elem_of_filter in Hp as [Hlt Hp].
  apply get_position_by_id_Some in Hget as (-> & Hid & _).
  rewrite Hid. split; [done|]. split; [done|]. split; [by exists p|].
  intros q' Hq' Hlt'. apply Hle, list_elem_of_fmap.
  exists q'. split; [done|]. by apply list_elem_of_filter.
Qed.

(** X2: in a catalogue whose JSON columns all decode, when some position
    lies after the highest position id the user has attempted (0 without
    attempts) and no position has id 0, [get_sequential_position] returns a
    position, the one with the least id after the highest attempted, and
    leaves the store as it is. *)
Theorem get_sequential_position_resume (decode : string → string + json)
    (db : DB) (user_id : Z) (p : position_row) :
  catalogue_decodes decode db →
  p ∈ positions db → highest_attempted user_id db < pos_id p →
  (∀ q, q ∈ positions db → pos_id q ≠ 0) →
  ∃ position,
    get_sequential_position decode user_id db = (inr (Some position), db)
    ∧ highest_attempted user_id db < pd_id position
    ∧ pd_id position ≤ pos_id p
    ∧ (∃ q, q ∈ positions db ∧ pos_id q = pd_id position)
    ∧ ∀ q, q ∈ positions db → highest_attempted user_id db < pos_id q →
           pd_id position ≤ pos_id q.
Proof.
  intros Hdec Hp Hafter Hnz.
  destruct (get_sequential_position_next decode db user_id p Hp Hafter Hnz)
    as (next & Hget & Hlt & (q & Hq & Hqid) & Hleast).
  subst next.
  destruct (get_position_by_id_elem_of decode db q Hdec Hq)
    as (position & Hpos & Hid).
  exists position. rewrite Hget, Hid. split; [done|]. split; [done|].
  split; [by apply Hleast|]. split; [by exists q|done].
Qed.

Lemma sample_db_positions_nonzero (q : position_row) :
  q ∈ positions sample_db → pos_id q ≠ 0.
Proof.
  intros Hq. cbn in Hq.
  repeat (apply elem_of_cons in Hq as [->|Hq]);
    try (by apply elem_of_nil in Hq); discriminate.
Qed.

Lemma sample_db_decodes : catalogue_decodes sample_decode sample_db.
Proof.
  split.
  - intros p Hp. cbn in Hp.
    repeat (apply elem_of_cons in Hp as [->|Hp]);
      try (by apply elem_of_nil in Hp);
      (split; eexists _, _; split; reflexivity).
  - intros m Hm. cbn in Hm.
    repeat (apply elem_of_cons in Hm as [->|Hm]);
      try (by apply elem_of_nil in Hm);
      (split; eexists _, _; split; reflexivity).
Qed.

Lemma get_sequential_position_resume_witness :
  ∃ position,
    get_sequential_position sample_decode 1 sample_db
    = (inr (Some position), sample_db)
    ∧ highest_attempted 1 sample_db < pd_id position
    ∧ pd_id position ≤ pos_id (sample_position 2 "fen-2")
    ∧ (∃ q, q ∈ positions sample_db ∧ pos_id q = pd_id position)
    ∧ ∀ q, q ∈ positions sample_db →
           highest_attempted 1 sample_db < pos_id q →
           pd_id position ≤ pos_id q.
Proof.
  apply (get_sequential_position_resume sample_decode sample_db 1
           (sample_position 2 "fen-2")).
  - exact sample_db_decodes.
  - cbn. right. left.
  - reflexivity.
  - exact sample_db_positions_nonzero.
Defined.

(** X3: once an attempt on a position is recorded for a user, every position
    [get_sequential_position] returns for that user has an id strictly
    greater than the recorded position's: the cursor only moves forward and
    never serves the position just attempted again. *)
Theorem record_then_sequential (decode : string → string + json)
    (db db' : DB) (now : string)
    (user_id position_id move_id : Z) (time_taken : float)
    (result : string) (position : position_data) :
  get_sequential_position decode user_id
    (snd (record_user_move now user_id position_id move_id time_taken
                           result db))
  = (inr (Some position), db') →
  position_id < pd_id position.
Proof.
  intros Hget. apply get_sequential_position_Some in Hget as (_ & Hlt & _).
  rewrite record_user_move_run in Hlt. cbn [snd] in Hlt.
  enough (position_id ≤ highest_attempted user_id
            (insert_user_move now user_id position_id move_id time_taken
                              result db)) by lia.
  unfold highest_attempted. cbn [insert_user_move set_user_moves user_moves].
  rewrite filter_app, fmap_app, filter_cons. cbn [um_user_id].
  rewrite decide_True by done. rewrite filter_nil.
  cbn [fmap list_fmap um_position_id].
  destruct (sql_max_Some_elem_of
              ((um_position_id <$>
                  filter (λ r, um_user_id r = user_id) (user_moves db))
               ++ [position_id]) position_id) as (m & -> & Hle).
  - apply elem_of_app. right. left.
  - done.
Qed.

Lemma record_then_sequential_witness :
  get_sequential_position sample_decode 1
    (snd (record_user_move "2025-01-02 00:00:00" 1 1 2 3.5%float "pass"
                           sample_db))
  = (inr (Some sample_position_2),
     insert_user_move "2025-01-02 00:00:00" 1 1 2 3.5%float "pass"
                      sample_db)
  ∧ 1 < pd_id sample_position_2.
Proof.
  assert (Hget : get_sequential_position sample_decode 1
            (snd (record_user_move "2025-01-02 00:00:00" 1 1 2 3.5%float
                                   "pass" sample_db))
          = (inr (Some sample_position_2),
             insert_user_move "2025-01-02 00:00:00" 1 1 2 3.5%float "pass"
                              sample_db)) by reflexivity.
  split; [exact Hget|].
  exact (record_then_sequential sample_decode sample_db _
           "2025-01-02 00:00:00" 1 1 2
           3.5%float "pass" sample_position_2 Hget).
Defined.

(** ** Attaching analysis to an attempt that is not there *)

Lemma DB_eta (db : DB) :
  {| positions := positions db; moves := moves db;
     user_moves := user_moves db; user_moves_seq := user_moves_seq db;
     user_settings := user_settings db |} = db.
Proof. by destruct db. Qed.

(** X4: [save_openai_analysis] on an id that no row of [user_moves] has
    reports True all the same, and stores nothing: the store is exactly as
    before. *)
Theorem save_openai_analysis_unknown_id (db : DB) (move_record_id : Z)
    (analysis_text : string) :
  (∀ r, r ∈ user_moves db → um_id r ≠ move_record_id) →
  save_openai_analysis move_record_id analysis_text db = (inr true, db).
Proof.
  intros Hno. rewrite save_openai_analysis_run. f_equal.
  unfold update_openai_analysis, set_user_moves.
  rewrite attached_other by done. apply DB_eta.
Qed.

Lemma save_openai_analysis_unknown_id_witness :
  save_openai_analysis 99 "text" sample_db_exhausted
  = (inr true, sample_db_exhausted).
Proof.
  apply (save_openai_analysis_unknown_id sample_db_exhausted 99 "text").
  intros r Hr. cbn in Hr.
  repeat (apply elem_of_cons in Hr as [->|Hr]);
    try (by apply elem_of_nil in Hr); discriminate.
Defined.

(** ** The key of [user_moves] *)

Lemma next_rowid_keyed (db : DB) :
  user_moves_keyed db →
  next_rowid (user_moves_seq db) (um_id <$> user_moves db)
  = user_moves_seq db + 1.
Proof.
  intros (_ & Hle & Hpos). unfold next_rowid.
  destruct (sql_max (um_id <$> user_moves db)) as [m|] eqn:E;
    cbn [default from_option id]; [|lia].
  assert (Hm : m ∈ um_id <$> user_moves db).
  { clear Hle. destruct (um_id <$> user_moves db) as [|x xs]; [done|].
    cbn in E. injection E as <-. clear.
    induction xs as [|y ys IH]; cbn; [left|].
    destruct (Z.max_spec y (foldr Z.max x ys)) as [[_ ->]|[_ ->]].
    - apply elem_of_cons in IH as [->|IH]; [left|]. right. by right.
    - right. left. }
  apply list_elem_of_fmap in Hm as (r & -> & Hr).
  rewrite Forall_forall in Hle. specialize (Hle r Hr). lia.
Qed.

Lemma attached_id (i : Z) (t : string) (r : user_move_row) :
  um_id (attached i t r) = um_id r.
Proof. unfold attached. by destruct (decide _). Qed.

(** X5: in a store where the ids of [user_moves] are distinct and bounded
    by its sequence, [record_user_move] returns the sequence plus one, and
    recording, attaching analysis and clearing positions all keep the ids
    distinct and bounded: no attempt ever gets the id of another. *)
Theorem user_moves_keyed_kept (db : DB) :
  user_moves_keyed db →
  (∀ now user_id position_id move_id time_taken result,
     fst (record_user_move now user_id position_id move_id time_taken
                           result db)
     = inr (user_moves_seq db + 1)
     ∧ user_moves_keyed
         (snd (record_user_move now user_id position_id move_id time_taken
                                result db)))
  ∧ (∀ move_record_id analysis_text,
       user_moves_keyed
         (snd (save_openai_analysis move_record_id analysis_text db)))
  ∧ user_moves_keyed (snd (clear_positions db)).
Proof.
  intros Hkeyed. pose proof Hkeyed as (Hnodup & Hle & Hpos).
  split; [|split].
  - intros now user_id position_id move_id time_taken result.
    rewrite record_user_move_run, next_rowid_keyed by done.
    split; [done|]. cbn [snd]. unfold insert_user_move, user_moves_keyed.
    rewrite next_rowid_keyed by done. cbn.
    rewrite fmap_app. cbn. split; [|split].
    + apply NoDup_app. split; [done|]. split; [|apply NoDup_singleton].
      intros x Hx ->%list_elem_of_singleton.
      apply list_elem_of_fmap in Hx as (r & Hr & Hin).
      rewrite Forall_forall in Hle. specialize (Hle r Hin). lia.
    + apply Forall_app. split.
      * eapply Forall_impl; [exact Hle|]. cbn. intros r Hr. lia.
      * apply Forall_singleton. cbn. lia.
    + lia.
  - intros move_record_id analysis_text.
    rewrite save_openai_analysis_run. cbn [snd].
    unfold update_openai_analysis, user_moves_keyed. cbn.
    rewrite <- list_fmap_compose.
    rewrite (list_fmap_ext (um_id ∘ attached move_record_id analysis_text)
                           um_id (user_moves db))
      by (intros k r _; apply attached_id).
    split; [done|]. split; [|done].
    apply Forall_fmap. eapply Forall_impl; [exact Hle|].
    intros r Hr. cbn. by rewrite attached_id.
  - destruct (user_moves db) as [|r rows] eqn:E.
    + assert (Hrun : clear_positions db
                     = (inr (true,
                             "All positions and moves cleared successfully."),
                        set_positions [] (set_moves [] db))).
      { unfold clear_positions, select_count_user_moves. run_M.
        rewrite E. reflexivity. }
      rewrite Hrun. cbn [snd]. unfold user_moves_keyed. cbn.
      rewrite E. cbn. split; [constructor|]. split; [constructor|done].
    + assert (Hrun : snd (clear_positions db) = db).
      { unfold clear_positions, select_count_user_moves. run_M.
        rewrite E. reflexivity. }
      rewrite Hrun. unfold user_moves_keyed. by rewrite E.
Qed.

Lemma sample_db_exhausted_keyed : user_moves_keyed sample_db_exhausted.
Proof.
  unfold user_moves_keyed. cbn. split; [|split].
  - apply NoDup_singleton.
  - apply Forall_singleton. cbn. lia.
  - lia.
Defined.

Lemma user_moves_keyed_kept_witness :
  fst (record_user_move "2025-01-02 00:00:00" 1 1 2 3.5%float "pass"
                        sample_db_exhausted) = inr 2
  ∧ user_moves_keyed
      (snd (record_user_move "2025-01-02 00:00:00" 1 1 2 3.5%float "pass"
                             sample_db_exhausted)).
Proof.
  exact (proj1 (user_moves_keyed_kept sample_db_exhausted
                  sample_db_exhausted_keyed)
           "2025-01-02 00:00:00" 1 1 2 3.5%float "pass").
Defined.

(** ** After the catalogue is cleared *)

(** X6: a [clear_positions] that succeeds (no attempt on record) leaves a
    store in which [get_position_by_id] finds no position and
    [validate_move] answers "Move not found or position invalid" for every
    position, move and user, while [user_settings] keeps its rows; clearing
    again succeeds and changes nothing more. *)
Theorem clear_positions_then_nothing_found (db : DB) :
  user_moves db = [] →
  ∃ db', clear_positions db
         = (inr (true, "All positions and moves cleared successfully."), db')
    ∧ user_settings db' = user_settings db
    ∧ (∀ decode position_id,
         get_position_by_id decode position_id db' = (inr None, db'))
    ∧ (∀ position_id selected_move user_id,
         validate_move position_id selected_move user_id db'
         = (inr not_found, db'))
    ∧ clear_positions db'
      = (inr (true, "All positions and moves cleared successfully."), db').
Proof.
  intros Hnone.
  assert (Hrun : ∀ d, user_moves d = [] →
            clear_positions d
            = (inr (true, "All positions and moves cleared successfully."),
               set_positions [] (set_moves [] d))).
  { intros d Hd. unfold clear_positions, select_count_user_moves. run_M.
    rewrite Hd. reflexivity. }
  eexists. split; [by apply Hrun|]. split; [done|]. split; [|split].
  - intros decode position_id. by apply get_position_by_id_missing.
  - intros position_id selected_move user_id.
    apply validate_move_lookup_empty. by left.
  - by rewrite Hrun.
Qed.

Lemma clear_positions_then_nothing_found_witness :
  ∃ db', clear_positions sample_db
         = (inr (true, "All positions and moves cleared successfully."), db')
    ∧ user_settings db' = user_settings sample_db
    ∧ (∀ decode position_id,
         get_position_by_id decode position_id db' = (inr None, db'))
    ∧ (∀ position_id selected_move user_id,
         validate_move position_id selected_move user_id db'
         = (inr not_found, db'))
    ∧ clear_positions db'
      = (inr (true, "All positions and moves cleared successfully."), db').
Proof.
  apply (clear_positions_then_nothing_found sample_db). reflexivity.
Defined.

(** ** The "Submit Move" handler on a ranked move *)

Lemma validate_move_run (db : DB) (position_id : Z) (selected_move : string)
    (user_id : Z) (m top : move_row) :
  fetchone (select_selected_move position_id selected_move db) = Some m →
  fetchone (select_top_move position_id db) = Some top →
  ∃ v, validate_move position_id selected_move user_id db = (inr v, db)
       ∧ v_move_id v = Some (mv_id m)
       ∧ v_result v = Some (if v_success v then "pass" else "fail").
Proof.
  intros Hm Htop. unfold validate_move. run_M. rewrite Hm, Htop.
  eexists. split; [reflexivity|]. cbn. done.
Qed.

(** X7: when the submitted move is one of the page's candidates and the
    store holds it together with a rank-1 move, the handler validates it and
    appends exactly one attempt to [user_moves]: of the user, on the page's
    position, against the id of that move, with the elapsed time, no
    analysis, and result "pass" under a "Correct! ..." notice if the
    validation succeeded, result "fail" under an "Incorrect. ..." notice if
    not.  The id of the new attempt becomes [last_move_record]; the other
    tables and the earlier attempts are as before. *)
Theorem submit_move_ranked (db : DB) (now : string)
    (position : position_data) (selected_move : string) (user_id : Z)
    (elapsed_time : float) (last_move_record : option Z)
    (c : move_data) (m top : move_row) :
  c ∈ pd_moves position → md_move c = selected_move →
  fetchone (select_selected_move (pd_id position) selected_move db)
  = Some m →
  fetchone (select_top_move (pd_id position) db) = Some top →
  let id := next_rowid (user_moves_seq db) (um_id <$> user_moves db) in
  ∃ v, validate_move (pd_id position) selected_move user_id db = (inr v, db)
    ∧ submit_move now position selected_move user_id elapsed_time
                  last_move_record db
      = (inr (if v_success v
              then Success ("Correct! " +:+ v_message v)
              else Error ("Incorrect. " +:+ v_message v),
              Some id),
         {| positions := positions db; moves := moves db;
            user_moves :=
              (user_moves db
               ++ [{| um_id := id; um_user_id := user_id;
                      um_position_id := pd_id position;
                      um_move_id := mv_id m;
                      um_time_taken := elapsed_time;
                      um_result := if v_success v then "pass" else "fail";
                      um_timestamp := now;
                      um_openai_analysis := None |}])%list;
            user_moves_seq := id;
            user_settings := user_settings db |}).
Proof.
  intros Hc Hnot Hm Htop id.
  destruct (validate_move_run db (pd_id position) selected_move user_id
              m top Hm Htop) as (v & Hv & Hid & Hres).
  exists v. split; [done|].
  assert (Hhead : is_Some (head (filter (λ m, md_move m = selected_move)
                                        (pd_moves position)))).
  { apply head_is_Some. intros Hnil.
    by apply (proj1 (filter_nil_iff _ _) Hnil c). }
  destruct Hhead as [c' Hc']. unfold submit_move. rewrite Hc'.
  unfold mbind at 1. unfold M_bind at 1. rewrite Hv.
  destruct (v_success v); rewrite Hid, Hres; run_M;
    rewrite record_user_move_run; reflexivity.
Qed.

(** User 2 submits Nf3 on position 1: rank 3 within their top 3, but 20
    below the top score against a threshold of 15, so a fail is recorded. *)
Lemma submit_move_ranked_witness :
  submit_move "2025-01-02 00:00:00" sample_position_1 "Nf3" 2
              2.5%float None sample_db
  = (inr (Error "Incorrect. Move ranked #3, but score difference too high: 20",
          Some 1),
     with_attempt (new_attempt 1 2 1 3 2.5%float "fail"
                               "2025-01-02 00:00:00") sample_db).
Proof.
  destruct (submit_move_ranked sample_db "2025-01-02 00:00:00"
              sample_position_1 "Nf3" 2 2.5%float None
              (sample_move_data 3 "Nf3" "g1f3" 10 3)
              (sample_move 3 1 "Nf3" "g1f3" 10 3)
              (sample_move 1 1 "e4" "e2e4" 30 1))
    as (v & Hv & Hsubmit).
  - cbn. right. right. left.
  - reflexivity.
  - reflexivity.
  - reflexivity.
  - rewrite Hsubmit. clear Hsubmit. vm_compute in Hv.
    injection Hv as <-. reflexivity.
Defined.

(** X8: when the submitted move is one of the page's candidates but the
    store has no such move for the position, or no rank-1 move for it, the
    handler raises [KeyError] on ['move_id'] (the failure dict of
    [validate_move] has no such key) and records nothing. *)
Theorem submit_move_not_found_raises (db : DB) (now : string)
    (position : position_data) (selected_move : string) (user_id : Z)
    (elapsed_time : float) (last_move_record : option Z) (c : move_data) :
  c ∈ pd_moves position → md_move c = selected_move →
  select_selected_move (pd_id position) selected_move db = []
  ∨ select_top_move (pd_id position) db = [] →
  submit_move now position selected_move user_id elapsed_time
              last_move_record db
  = (inl (KeyError "move_id"), db).
Proof.
  intros Hc Hnot Hempty.
  assert (Hhead : is_Some (head (filter (λ m, md_move m = selected_move)
                                        (pd_moves position)))).
  { apply head_is_Some. intros Hnil.
    by apply (proj1 (filter_nil_iff _ _) Hnil c). }
  destruct Hhead as [c' Hc']. unfold submit_move. rewrite Hc'.
  unfold mbind at 1. unfold M_bind at 1.
  rewrite validate_move_lookup_empty by done. reflexivity.
Qed.

(** A store whose only candidate of position 1 has rank 2. *)
Lemma submit_move_not_found_raises_witness :
  submit_move "2025-01-02 00:00:00" sample_position_1 "d4" 1 2.5%float None
              (set_moves [sample_move 2 1 "d4" "d2d4" 25 2] sample_db)
  = (inl (KeyError "move_id"),
     set_moves [sample_move 2 1 "d4" "d2d4" 25 2] sample_db).
Proof.
  apply (submit_move_not_found_raises
           (set_moves [sample_move 2 1 "d4" "d2d4" 25 2] sample_db)
           "2025-01-02 00:00:00" sample_position_1 "d4" 1 2.5%float None
           (sample_move_data 2 "d4" "d2d4" 25 2)).
  - cbn. right. left.
  - reflexivity.
  - right. reflexivity.
Defined.

(** ** What the handler leaves alone *)

Lemma validate_move_cases (db : DB) (position_id : Z)
    (selected_move : string) (user_id : Z) :
  validate_move position_id selected_move user_id db = (inr not_found, db)
  ∨ ∃ v m, validate_move position_id selected_move user_id db = (inr v, db)
           ∧ v_move_id v = Some (mv_id m)
           ∧ v_result v = Some (if v_success v then "pass" else "fail").
Proof.
  destruct (fetchone (select_selected_move position_id selected_move db))
    as [m|] eqn:Hm.
  - destruct (fetchone (select_top_move position_id db)) as [top|] eqn:Ht.
    + right. destruct (validate_move_run db position_id selected_move
                         user_id m top Hm Ht) as (v & ? & ? & ?).
      by exists v, m.
    + left. apply validate_move_lookup_empty. right.
      by apply head_None.
  - left. apply validate_move_lookup_empty. left. by apply head_None.
Qed.

Lemma record_user_move_at_most_one (db : DB) (now : string)
    (user_id position_id move_id : Z) (time_taken : float)
    (result : string) :
  result = "pass" ∨ result = "fail" →
  at_most_one_attempt user_id position_id db
    (insert_user_move now user_id position_id move_id time_taken result db).
Proof.
  intros Hres. right.
  exists {| um_id := next_rowid (user_moves_seq db) (um_id <$> user_moves db);
            um_user_id := user_id; um_position_id := position_id;
            um_move_id := move_id; um_time_taken := time_taken;
            um_result := result; um_timestamp := now;
            um_openai_analysis := None |}.
  split; [reflexivity|]. by cbn.
Qed.

(** X9: whatever the position on the page, the submitted move and the store,
    and whether it returns or raises, the handler changes the store by at
    most one appended [user_moves] row; that row is an attempt of the
    submitting user on the page's position with result "pass" or "fail" and
    no analysis.  [positions], [moves], [user_settings] and the earlier
    attempts are never touched. *)
Theorem submit_move_frame (db : DB) (now : string)
    (position : position_data) (selected_move : string) (user_id : Z)
    (elapsed_time : float) (last_move_record : option Z) :
  at_most_one_attempt user_id (pd_id position) db
    (snd (submit_move now position selected_move user_id elapsed_time
                      last_move_record db)).
Proof.
  unfold submit_move.
  destruct (head (filter (λ m, md_move m = selected_move)
                         (pd_moves position))) as [c|].
  - unfold mbind at 1. unfold M_bind at 1.
    destruct (validate_move_cases db (pd_id position) selected_move user_id)
      as [-> | (v & m & -> & Hid & Hres)].
    + by left.
    + destruct (v_success v); rewrite Hid, Hres; run_M;
        rewrite record_user_move_run; cbn [snd];
        apply record_user_move_at_most_one; auto.
  - destruct (last (pd_moves position)) as [lowest|]; [|by left].
    cbn [truthy]. destruct (Z.eqb_spec (md_id lowest) 0) as [Hz|Hnz].
    + run_M. cbn [negb].
      destruct (head (take 1 (select_selected_move (pd_id position)
                                (md_move lowest) db))) as [r|];
        cbn [fmap option_fmap option_map]; [|by left].
      cbn [truthy]. destruct (Z.eqb_spec (mv_id r) 0); cbn [negb];
        [by left|].
      rewrite record_user_move_run. cbn [snd].
      apply record_user_move_at_most_one; auto.
    + run_M. cbn [negb truthy].
      apply Z.eqb_neq in Hnz. rewrite Hnz. cbn [negb].
      rewrite record_user_move_run. cbn [snd].
      apply record_user_move_at_most_one; auto.
Qed.

(** ** A random position *)

Lemma get_random_position_run (decode : string → string + json)
    (random_order : list position_row → list position_row) (db : DB) :
  get_random_position decode random_order db
  = match head (random_order (positions db)) with
    | Some p => get_position_by_id decode (pos_id p) db
    | None => (inr None, db)
    end.
Proof.
  unfold get_random_position, select_random_position. run_M.
  rewrite head_take_1. by destruct (random_order (positions db)).
Qed.

(** X10: whichever order RANDOM() produces, [get_random_position] never
    writes and returns None on an empty catalogue; on a catalogue whose JSON
    columns all decode it otherwise returns a position whose id is one of
    the catalogue's. *)
Theorem get_random_position_in_catalogue (decode : string → string + json)
    (random_order : list position_row → list position_row) (db : DB) :
  (∀ l, random_order l ≡ₚ l) →
  snd (get_random_position decode random_order db) = db
  ∧ (positions db = [] →
     get_random_position decode random_order db = (inr None, db))
  ∧ (positions db ≠ [] → catalogue_decodes decode db →
     ∃ position p,
       get_random_position decode random_order db
       = (inr (Some position), db)
       ∧ p ∈ positions db ∧ pd_id position = pos_id p).
Proof.
  intros Hperm. rewrite get_random_position_run. split; [|split].
  - destruct (head (random_order (positions db))); [|done].
    apply get_position_by_id_snd.
  - intros Hnil. rewrite Hnil.
    by rewrite (proj1 (Permutation_nil_r _) (Hperm [])).
  - intros Hne Hdec.
    destruct (random_order (positions db)) as [|p l] eqn:E.
    + exfalso. apply Hne. apply Permutation_nil_r. by rewrite <- E.
    + cbn [head]. assert (Hp : p ∈ positions db)
        by (rewrite <- (Hperm (positions db)), E; left).
      destruct (get_position_by_id_elem_of decode db p Hdec Hp)
        as (position & ? & ?).
      by exists position, p.
Qed.

Lemma get_random_position_in_catalogue_witness :
  get_random_position sample_decode reverse empty_db = (inr None, empty_db)
  ∧ ∃ position p,
      get_random_position sample_decode reverse sample_db
      = (inr (Some position), sample_db)
      ∧ p ∈ positions sample_db ∧ pd_id position = pos_id p.
Proof.
  split.
  - apply (get_random_position_in_catalogue sample_decode reverse empty_db).
    + intros l. apply reverse_Permutation.
    + reflexivity.
  - apply (get_random_position_in_catalogue sample_decode reverse
             sample_db).
    + intros l. apply reverse_Permutation.
    + discriminate.
    + exact sample_db_decodes.
Defined.

(** ** Loading the next position for the page *)

Lemma load_new_position_run (decode : string → string + json)
    (random_order : list position_row → list position_row) (time : float)
    (user_id : Z) (timer_start : option float) (db : DB) :
  load_new_position decode random_order time user_id timer_start db
  = if Z.of_nat (length (positions db)) =? 0 then (inr (None, timer_start), db)
    else
      match (if match fetchone (select_user_settings user_id db) with
                | Some s => us_random_positions s
                | None => false
                end
             then get_random_position decode random_order
             else get_sequential_position decode user_id) db with
      | (inr (Some position), db') =>
          (inr (Some position, Some time), db')
      | (inr None, db') => (inr (None, timer_start), db')
      | (inl e, db') => (inl e, db')
      end.
Proof.
  unfold load_new_position, get_user_settings, select_count_positions.
  run_M. cbn [head].
  destruct (Z.of_nat (length (positions db)) =? 0); [reflexivity|].
  destruct ((if match head (select_user_settings user_id db) with
                | Some s => us_random_positions s
                | None => false
                end
             then get_random_position decode random_order
             else get_sequential_position decode user_id) db)
    as [[e|[position|]] db']; reflexivity.
Qed.

(** X11: on an empty catalogue [load_new_position] sets the current position
    to None, leaves the timer as it was and raises nothing, for every user
    and whatever their settings: its row count guard keeps the selectors
    from being called. *)
Theorem load_new_position_empty_catalogue
    (decode : string → string + json)
    (random_order : list position_row → list position_row) (time : float)
    (user_id : Z) (timer_start : option float) (db : DB) :
  positions db = [] →
  load_new_position decode random_order time user_id timer_start db
  = (inr (None, timer_start), db).
Proof. intros Hnil. rewrite load_new_position_run, Hnil. reflexivity. Qed.

Lemma load_new_position_empty_catalogue_witness :
  load_new_position sample_decode reverse 10.5%float 1 (Some 3.5%float)
                    empty_db
  = (inr (None, Some 3.5%float), empty_db).
Proof.
  apply (load_new_position_empty_catalogue sample_decode reverse 10.5%float
           1 (Some 3.5%float) empty_db).
  reflexivity.
Defined.

(** X12: for a user whose settings row has [random_positions] on, on a
    non-empty catalogue whose JSON columns all decode, [load_new_position]
    always yields a position of the catalogue and restarts the timer at the
    current time, however often the user has trained. *)
Theorem load_new_position_random (decode : string → string + json)
    (random_order : list position_row → list position_row) (time : float)
    (user_id : Z) (timer_start : option float) (db : DB)
    (s : user_settings_row) :
  (∀ l, random_order l ≡ₚ l) →
  catalogue_decodes decode db →
  fetchone (select_user_settings user_id db) = Some s →
  us_random_positions s = true →
  positions db ≠ [] →
  ∃ position p,
    load_new_position decode random_order time user_id timer_start db
    = (inr (Some position, Some time), db)
    ∧ p ∈ positions db ∧ pd_id position = pos_id p.
Proof.
  intros Hperm Hdec Hs Hrandom Hne.
  rewrite load_new_position_run, Hs, Hrandom.
  assert (Hcount : (Z.of_nat (length (positions db)) =? 0) = false).
  { apply Z.eqb_neq. destruct (positions db); [done|cbn; lia]. }
  rewrite Hcount.
  rewrite get_random_position_run.
  destruct (random_order (positions db)) as [|p l] eqn:E.
  - exfalso. apply Hne. apply Permutation_nil_r. by rewrite <- E.
  - cbn [head]. assert (Hp : p ∈ positions db)
      by (rewrite <- (Hperm (positions db)), E; left).
    destruct (get_position_by_id_elem_of decode db p Hdec Hp)
      as (position & -> & ?).
    by exists position, p.
Qed.

Lemma sample_settings_random :
  fetchone (select_user_settings 4
              (set_user_settings
                 [{| us_user_id := 4; us_random_positions := true;
                     us_top_n_threshold := 3;
                     us_score_difference_threshold := 10;
                     us_theme := "default" |}] sample_db))
  = Some {| us_user_id := 4; us_random_positions := true;
            us_top_n_threshold := 3; us_score_difference_threshold := 10;
            us_theme := "default" |}.
Proof. reflexivity. Qed.

Lemma load_new_position_random_witness :
  ∃ position p,
    load_new_position sample_decode reverse 10.5%float 4 None
      (set_user_settings
         [{| us_user_id := 4; us_random_positions := true;
             us_top_n_threshold := 3; us_score_difference_threshold := 10;
             us_theme := "default" |}] sample_db)
    = (inr (Some position, Some 10.5%float),
       set_user_settings
         [{| us_user_id := 4; us_random_positions := true;
             us_top_n_threshold := 3; us_score_difference_threshold := 10;
             us_theme := "default" |}] sample_db)
    ∧ p ∈ positions sample_db ∧ pd_id position = pos_id p.
Proof.
  apply (load_new_position_random sample_decode reverse 10.5%float 4 None
           (set_user_settings
              [{| us_user_id := 4; us_random_positions := true;
                  us_top_n_threshold := 3;
                  us_score_difference_threshold := 10;
                  us_theme := "default" |}] sample_db)
           {| us_user_id := 4; us_random_positions := true;
              us_top_n_threshold := 3; us_score_difference_threshold := 10;
              us_theme := "default" |}).
  - intros l. apply reverse_Permutation.
  - exact sample_db_decodes.
  - exact sample_settings_random.
  - reflexivity.
  - discriminate.
Defined.

(** The wrap-around query of the selector runs on a closed connection. *)
Lemma get_sequential_position_closed (decode : string → string + json)
    (db : DB) (user_id : Z) :
  (∀ p, p ∈ positions db → pos_id p ≤ highest_attempted user_id db) →
  get_sequential_position decode user_id db = (inl closed_database, db).
Proof.
  intros Hall. unfold get_sequential_position.
  unfold select_last_position, select_next_position. run_M. cbn [head].
  rewrite last_position_id_highest. fold (highest_attempted user_id db).
  assert (Hnil : filter (λ p, highest_attempted user_id db < pos_id p)
                        (positions db) = []).
  { apply filter_nil_iff. intros p Hp. specialize (Hall p Hp). lia. }
  rewrite Hnil. reflexivity.
Qed.

(** X13: for a user in sequential mode (no settings row, or
    [random_positions] off) on a non-empty catalogue without an id 0 whose
    JSON columns all decode, [load_new_position] yields the first position
    after the highest one the user has attempted and restarts the timer;
    when the user has attempted the last position it raises
    [sqlite3.ProgrammingError] instead of setting anything. *)
Theorem load_new_position_sequential (decode : string → string + json)
    (random_order : list position_row → list position_row) (time : float)
    (user_id : Z) (timer_start : option float) (db : DB) :
  positions db ≠ [] →
  (∀ s, fetchone (select_user_settings user_id db) = Some s →
        us_random_positions s = false) →
  (∀ q, q ∈ positions db → pos_id q ≠ 0) →
  (catalogue_decodes decode db →
   ∀ p, p ∈ positions db → highest_attempted user_id db < pos_id p →
     ∃ position,
       load_new_position decode random_order time user_id timer_start db
       = (inr (Some position, Some time), db)
       ∧ highest_attempted user_id db < pd_id position
       ∧ pd_id position ≤ pos_id p)
  ∧ ((∀ p, p ∈ positions db → pos_id p ≤ highest_attempted user_id db) →
     load_new_position decode random_order time user_id timer_start db
     = (inl closed_database, db)).
Proof.
  intros Hne Hmode Hnz. rewrite load_new_position_run.
  assert (Hcount : (Z.of_nat (length (positions db)) =? 0) = false).
  { apply Z.eqb_neq. destruct (positions db); [done|cbn; lia]. }
  rewrite Hcount.
  assert (Hseq : match fetchone (select_user_settings user_id db) with
                 | Some s => us_random_positions s
                 | None => false
                 end = false).
  { destruct (fetchone (select_user_settings user_id db)) as [s|];
      [by apply Hmode|done]. }
  rewrite Hseq. split.
  - intros Hdec p Hp Hafter.
    destruct (get_sequential_position_next decode db user_id p Hp Hafter
                Hnz) as (next & Hget & Hlt & (q & Hq & Hqid) & Hleast).
    subst next.
    destruct (get_position_by_id_elem_of decode db q Hdec Hq)
      as (position & Hpos & Hid).
    rewrite Hget, Hpos. exists position. rewrite Hid.
    split; [done|]. split; [done|]. by apply Hleast.
  - intros Hall. by rewrite get_sequential_position_closed.
Qed.

Lemma load_new_position_sequential_witness :
  (∃ position,
     load_new_position sample_decode reverse 10.5%float 1 None sample_db
     = (inr (Some position, Some 10.5%float), sample_db)
     ∧ highest_attempted 1 sample_db < pd_id position
     ∧ pd_id position ≤ pos_id (sample_position 2 "fen-2"))
  ∧ load_new_position sample_decode reverse 10.5%float 1 None
                      sample_db_exhausted
    = (inl closed_database, sample_db_exhausted).
Proof.
  split.
  - apply (load_new_position_sequential sample_decode reverse 10.5%float 1
             None sample_db).
    + discriminate.
    + intros s [= <-]. reflexivity.
    + exact sample_db_positions_nonzero.
    + exact sample_db_decodes.
    + cbn. right. left.
    + reflexivity.
  - apply (load_new_position_sequential sample_decode reverse 10.5%float 1
             None sample_db_exhausted).
    + discriminate.
    + intros s [= <-]. reflexivity.
    + exact sample_db_positions_nonzero.
    + intros p Hp. cbn in Hp.
      repeat (apply elem_of_cons in Hp as [->|Hp]);
        try (by apply elem_of_nil in Hp); vm_compute; discriminate.
Defined.

(** ** Changing the settings *)

Lemma update_each_run (conn : connection) (user_id : Z)
    (items : list setting) (db : DB) :
  conn_closed conn = false →
  update_each conn user_id items db
  = (inr tt, foldl (λ d item, update_setting user_id item d) db items).
Proof.
  intros Hopen. revert db. induction items as [|item items IH]; intros db.
  - reflexivity.
  - cbn [update_each foldl]. run_M. rewrite Hopen. apply IH.
Qed.

Lemma update_user_settings_run (user_id : Z) (settings_dict : list setting)
    (db : DB) :
  update_user_settings user_id settings_dict db
  = (inr true,
     foldl (λ d item, update_setting user_id item d) db
           (List.filter valid_key settings_dict)).
Proof.
  unfold update_user_settings. run_M.
  rewrite update_each_run by done. reflexivity.
Qed.

Lemma set_setting_user_id (item : setting) (s : user_settings_row) :
  us_user_id (set_setting item s) = us_user_id s.
Proof. by destruct item. Qed.

Lemma updated_settings_user_id (items : list setting)
    (s : user_settings_row) :
  us_user_id (updated_settings items s) = us_user_id s.
Proof.
  revert s. induction items as [|item items IH]; intros s; [done|].
  cbn. unfold updated_settings in IH. by rewrite IH, set_setting_user_id.
Qed.

Lemma updated_settings_filter (items : list setting)
    (s : user_settings_row) :
  updated_settings (List.filter valid_key items) s
  = updated_settings items s.
Proof.
  revert s. induction items as [|item items IH]; intros s; [done|].
  destruct item; cbn; apply IH.
Qed.

Lemma update_settings_fold (user_id : Z) (items : list setting) (db : DB) :
  foldl (λ d item, update_setting user_id item d) db items
  = set_user_settings
      ((λ s, if decide (us_user_id s = user_id)
             then updated_settings items s else s) <$> user_settings db)
      db.
Proof.
  revert db. induction items as [|item items IH]; intros db.
  - cbn. unfold set_user_settings.
    rewrite (list_fmap_ext _ id (user_settings db)).
    + rewrite list_fmap_id. symmetry. apply DB_eta.
    + intros k s _. by destruct (decide _).
  - cbn [foldl]. rewrite IH. unfold update_setting, set_user_settings.
    cbn. f_equal. rewrite <- list_fmap_compose. apply list_fmap_ext.
    intros k s _. cbn.
    destruct (decide (us_user_id s = user_id)) as [Heq|Hne].
    + rewrite decide_True by by rewrite set_setting_user_id.
      reflexivity.
    + by rewrite decide_False.
Qed.

Lemma head_filter_fmap_settings (user_id : Z)
    (f : user_settings_row → user_settings_row)
    (rows : list user_settings_row) :
  (∀ s, us_user_id (f s) = us_user_id s) →
  head (filter (λ s, us_user_id s = user_id) (f <$> rows))
  = f <$> head (filter (λ s, us_user_id s = user_id) rows).
Proof.
  intros Hid. induction rows as [|s rows IH]; [done|].
  cbn [fmap list_fmap]. rewrite !filter_cons, Hid.
  destruct (decide (us_user_id s = user_id)); [done|]. apply IH.
Qed.

Lemma get_user_settings_run (user_id : Z) (db : DB) :
  get_user_settings user_id db
  = (inr (fetchone (select_user_settings user_id db)), db).
Proof. reflexivity. Qed.

Lemma select_user_settings_updated (user_id user_id' : Z)
    (items : list setting) (db : DB) :
  fetchone (select_user_settings user_id'
              (foldl (λ d item, update_setting user_id item d) db items))
  = (λ s, if decide (us_user_id s = user_id)
          then updated_settings items s else s)
    <$> fetchone (select_user_settings user_id' db).
Proof.
  rewrite update_settings_fold. unfold select_user_settings, fetchone.
  cbn [user_settings set_user_settings].
  apply head_filter_fmap_settings. intros s.
  destruct (decide _); [apply updated_settings_user_id|done].
Qed.

Lemma updated_settings_fields (items : list setting)
    (s : user_settings_row) :
  us_random_positions (updated_settings items s)
  = default (us_random_positions s) (dict_get random_positions_key items)
  ∧ us_top_n_threshold (updated_settings items s)
    = default (us_top_n_threshold s) (dict_get top_n_threshold_key items)
  ∧ us_score_difference_threshold (updated_settings items s)
    = default (us_score_difference_threshold s)
              (dict_get score_difference_threshold_key items)
  ∧ us_theme (updated_settings items s)
    = default (us_theme s) (dict_get theme_key items).
Proof.
  revert s. induction items as [|item items IH]; intros s; [done|].
  unfold updated_settings. cbn [foldl].
  fold (updated_settings items (set_setting item s)).
  destruct (IH (set_setting item s)) as (-> & -> & -> & ->).
  unfold dict_get.
  destruct item; cbn [omap list_omap random_positions_key
    top_n_threshold_key score_difference_threshold_key theme_key
    set_setting us_random_positions us_top_n_threshold
    us_score_difference_threshold us_theme];
    rewrite ?last_cons; repeat split;
    by destruct (last _).
Qed.

(** X14: for a user with a settings row, [update_user_settings] returns True
    and [get_user_settings] then returns the row of that user in which each
    of the four columns holds the value the dict gives for its key, or what
    it held before when the dict lacks the key; items under other keys have
    no effect.  The settings of every other user read as before, and
    [positions], [moves] and [user_moves] are unchanged. *)
Theorem update_user_settings_round_trip (db : DB) (user_id : Z)
    (settings_dict : list setting) (s : user_settings_row) :
  fetchone (select_user_settings user_id db) = Some s →
  ∃ db' s', update_user_settings user_id settings_dict db = (inr true, db')
    ∧ get_user_settings user_id db' = (inr (Some s'), db')
    ∧ us_user_id s' = user_id
    ∧ us_random_positions s'
      = default (us_random_positions s)
                (dict_get random_positions_key settings_dict)
    ∧ us_top_n_threshold s'
      = default (us_top_n_threshold s)
                (dict_get top_n_threshold_key settings_dict)
    ∧ us_score_difference_threshold s'
      = default (us_score_difference_threshold s)
                (dict_get score_difference_threshold_key settings_dict)
    ∧ us_theme s'
      = default (us_theme s) (dict_get theme_key settings_dict)
    ∧ (∀ user_id', user_id' ≠ user_id →
         fst (get_user_settings user_id' db')
         = fst (get_user_settings user_id' db))
    ∧ positions db' = positions db ∧ moves db' = moves db
    ∧ user_moves db' = user_moves db.
Proof.
  intros Hs.
  assert (Hid : us_user_id s = user_id)
    by by apply head_filter_Some in Hs as [_ ?].
  exists (foldl (λ d item, update_setting user_id item d) db
                (List.filter valid_key settings_dict)),
         (updated_settings settings_dict s).
  split; [apply update_user_settings_run|]. split; [|split].
  - rewrite get_user_settings_run, select_user_settings_updated, Hs.
    cbn [fmap option_fmap option_map].
    rewrite decide_True by done. by rewrite updated_settings_filter.
  - by rewrite updated_settings_user_id.
  - destruct (updated_settings_fields settings_dict s) as (-> & -> & -> & ->).
    do 4 (split; [done|]). split.
    + intros user_id' Hne.
      rewrite !get_user_settings_run, select_user_settings_updated.
      cbn [fst].
      destruct (fetchone (select_user_settings user_id' db)) as [s1|] eqn:E;
        [|done].
      cbn [fmap option_fmap option_map]. f_equal.
      assert (Hid1 : us_user_id s1 = user_id')
        by by apply head_filter_Some in E as [_ ?].
      rewrite decide_False by congruence. reflexivity.
    + by rewrite update_settings_fold.
Qed.

(** User 1, whose row holds (2, 10) and the default theme, saves a top-N
    threshold, a theme and a key that is none of the four. *)
Lemma update_user_settings_round_trip_witness :
  ∃ db', update_user_settings 1
           [TopNThreshold 5; OtherKey "volume"; Theme "blue"] sample_db
         = (inr true, db')
    ∧ get_user_settings 1 db'
      = (inr (Some {| us_user_id := 1; us_random_positions := false;
                      us_top_n_threshold := 5;
                      us_score_difference_threshold := 10;
                      us_theme := "blue" |}), db').
Proof.
  destruct (update_user_settings_round_trip sample_db 1
              [TopNThreshold 5; OtherKey "volume"; Theme "blue"]
              (sample_settings 1 2 10) eq_refl)
    as (db' & s' & Hupdate & Hget & Hid & Hrandom & Hn & Hd & Htheme & _).
  exists db'. split; [exact Hupdate|]. rewrite Hget.
  destruct s' as [id random n d theme]. cbn in Hid, Hrandom, Hn, Hd, Htheme.
  by subst.
Defined.

(** What the witness stores: the two valid items, nothing else. *)
Example updated_settings_sample :
  updated_settings [TopNThreshold 5; OtherKey "volume"; Theme "blue"]
                   (sample_settings 1 2 10)
  = {| us_user_id := 1; us_random_positions := false;
       us_top_n_threshold := 5; us_score_difference_threshold := 10;
       us_theme := "blue" |}.
Proof. reflexivity. Qed.

(** The verdict of [validate_move] in terms of the three rows it reads. *)
Lemma validate_move_success (db : DB) (position_id : Z)
    (selected_move : string) (user_id : Z) (m top : move_row) :
  fetchone (select_selected_move position_id selected_move db) = Some m →
  fetchone (select_top_move position_id db) = Some top →
  ∃ v, validate_move position_id selected_move user_id db = (inr v, db)
       ∧ v_success v
         = (mv_rank m
              <=? match fetchone (select_user_settings user_id db) with
                  | Some s => us_top_n_threshold s
                  | None => 3
                  end)
           && (Z.abs (mv_score m - mv_score top)
                 <=? match fetchone (select_user_settings user_id db) with
                     | Some s => us_score_difference_threshold s
                     | None => 10
                     end).
Proof.
  intros Hm Htop. unfold validate_move. run_M. rewrite Hm, Htop.
  eexists. split; reflexivity.
Qed.

(** X15: after a user with a settings row saves the training settings
    (random flag, top-N threshold [n], score threshold [d]), [validate_move]
    judges that user's moves by the new thresholds: a found move succeeds
    exactly when its rank is at most [n] and its score difference to the
    rank-1 move at most [d]. *)
Theorem update_user_settings_then_validate (db : DB) (user_id : Z)
    (random : bool) (n d : Z) (s : user_settings_row) (position_id : Z)
    (selected_move : string) (m top : move_row) :
  fetchone (select_user_settings user_id db) = Some s →
  fetchone (select_selected_move position_id selected_move db) = Some m →
  fetchone (select_top_move position_id db) = Some top →
  ∃ db' v,
    update_user_settings user_id
      [RandomPositions random; TopNThreshold n; ScoreDifferenceThreshold d]
      db = (inr true, db')
    ∧ validate_move position_id selected_move user_id db' = (inr v, db')
    ∧ (v_success v = true ↔
         mv_rank m ≤ n ∧ Z.abs (mv_score m - mv_score top) ≤ d).
Proof.
  intros Hs Hm Htop. eexists.
  destruct (validate_move_success
              (foldl (λ d item, update_setting user_id item d) db
                 (List.filter valid_key
                    [RandomPositions random; TopNThreshold n;
                     ScoreDifferenceThreshold d]))
              position_id selected_move user_id m top) as (v & Hv & Hok).
  - by rewrite update_settings_fold.
  - by rewrite update_settings_fold.
  - exists v. split; [apply update_user_settings_run|]. split; [exact Hv|].
    rewrite Hok, select_user_settings_updated, Hs.
    cbn [fmap option_fmap option_map].
    assert (Hid : us_user_id s = user_id)
      by by apply head_filter_Some in Hs as [_ ?].
    rewrite decide_True by done. cbn.
    rewrite andb_true_iff, !Z.leb_le. done.
Qed.

Lemma update_user_settings_then_validate_witness :
  ∃ db' v,
    update_user_settings 1
      [RandomPositions true; TopNThreshold 3; ScoreDifferenceThreshold 25]
      sample_db = (inr true, db')
    ∧ validate_move 1 "Nf3" 1 db' = (inr v, db')
    ∧ (v_success v = true ↔ 3 ≤ 3 ∧ Z.abs (10 - 30) ≤ 25).
Proof.
  apply (update_user_settings_then_validate sample_db 1 true 3 25
           (sample_settings 1 2 10) 1 "Nf3"
           (sample_move 3 1 "Nf3" "g1f3" 10 3)
           (sample_move 1 1 "e4" "e2e4" 30 1)); reflexivity.
Defined.

(** X16: for a user without a settings row, [update_user_settings] reports
    True but stores nothing: the store is exactly as before, and
    [get_user_settings] still returns None. *)
Theorem update_user_settings_no_row (db : DB) (user_id : Z)
    (settings_dict : list setting) :
  select_user_settings user_id db = [] →
  update_user_settings user_id settings_dict db = (inr true, db)
  ∧ get_user_settings user_id db = (inr None, db).
Proof.
  intros Hnone. rewrite update_user_settings_run, get_user_settings_run.
  rewrite Hnone. split; [|done]. f_equal.
  rewrite update_settings_fold. unfold set_user_settings.
  rewrite (list_fmap_ext _ id (user_settings db)).
  - rewrite list_fmap_id. apply DB_eta.
  - intros k s Hk. rewrite decide_False; [done|].
    intros Hid. apply (proj1 (filter_nil_iff _ _) Hnone s); [|done].
    by eapply list_elem_of_lookup_2.
Qed.

Lemma update_user_settings_no_row_witness :
  update_user_settings 9 [TopNThreshold 1] sample_db = (inr true, sample_db)
  ∧ get_user_settings 9 sample_db = (inr None, sample_db).
Proof.
  apply (update_user_settings_no_row sample_db 9 [TopNThreshold 1]).
  reflexivity.
Defined.

(** ** Statistics of the catalogue *)

Lemma dict_of_rows_reverse (rows : list (string * Z)) :
  dict_of_rows rows = list_to_map (reverse rows).
Proof.
  unfold dict_of_rows. induction rows as [|row rows IH] using rev_ind.
  - reflexivity.
  - rewrite foldl_snoc, reverse_snoc, IH. by destruct row.
Qed.

(** The rows of a GROUP BY read into a dict give back the counts. *)
Lemma dict_of_rows_group (m : gmap string Z) :
  dict_of_rows (map_to_list m) = m.
Proof.
  rewrite dict_of_rows_reverse.
  rewrite <- (list_to_map_to_list m) at 2.
  apply list_to_map_proper.
  - rewrite fmap_reverse, reverse_Permutation.
    apply NoDup_fst_map_to_list.
  - apply reverse_Permutation.
Qed.

Lemma group_count_lookup {A} (key : A → string) (rows : list A)
    (k : string) :
  group_count key rows !! k
  = if decide (filter (λ r, key r = k) rows = []) then None
    else Some (Z.of_nat (length (filter (λ r, key r = k) rows))).
Proof.
  induction rows as [|r rows IH]; [done|].
  cbn [group_count foldr]. fold (group_count key rows).
  rewrite filter_cons. destruct (decide (key r = k)) as [->|Hne].
  - rewrite lookup_insert_eq, IH.
    rewrite (decide_False (P := _ :: _ = [])) by done. f_equal.
    destruct (decide (filter (λ r0, key r0 = k) rows = [])) as [->|_];
      cbn [default from_option id length]; lia.
  - by rewrite lookup_insert_ne.
Qed.

Lemma count_of_group_count {A} (key : A → string) (rows : list A)
    (k : string) :
  count_of (group_count key rows) k
  = Z.of_nat (length (filter (λ r, key r = k) rows)).
Proof.
  unfold count_of. rewrite group_count_lookup.
  by destruct (decide _) as [->|_].
Qed.

Lemma get_position_stats_run (db : DB) :
  get_position_stats db
  = (inr {| total_positions := Z.of_nat (length (positions db));
            positions_by_color := group_count pos_turn (positions db);
            positions_by_phase := group_count phase (positions db);
            total_moves := Z.of_nat (length (moves db));
            moves_by_classification :=
              group_count mv_classification (moves db) |}, db).
Proof.
  unfold get_position_stats, select_count_positions, select_count_moves,
    select_group_count. run_M. cbn [head].
  by rewrite !dict_of_rows_group.
Qed.

Lemma phase_partition (rows : list position_row) :
  length rows
  = (length (filter (λ p, phase p = "opening") rows)
     + length (filter (λ p, phase p = "middle_game") rows)
     + length (filter (λ p, phase p = "endgame") rows))%nat.
Proof.
  induction rows as [|p rows IH]; [done|].
  rewrite !filter_cons.
  assert (Hphase : phase p = "opening" ∨ phase p = "middle_game"
                   ∨ phase p = "endgame").
  { unfold phase. destruct (_ <=? 15); [auto|].
    destruct (_ <=? 32); auto. }
  destruct Hphase as [Hp|[Hp|Hp]]; rewrite Hp;
    repeat case_decide; try done; cbn [length]; lia.
Qed.

(** X17: [get_position_stats] never raises and never writes.  Each of its
    three dicts gives, for a key, the number of rows with that key (a key
    without rows is absent, so no count is 0): the colour dict by [turn],
    the classification dict by [classification], and the phase dict the
    positions with move number at most 15 under "opening", those above 15
    and at most 32 under "middle_game" and those above 32 under "endgame".
    The phase dict has no other key, and its three counts add up to
    [total_positions]. *)
Theorem get_position_stats_counts (db : DB) :
  ∃ stats, get_position_stats db = (inr stats, db)
    ∧ total_positions stats = Z.of_nat (length (positions db))
    ∧ total_moves stats = Z.of_nat (length (moves db))
    ∧ (∀ turn, count_of (positions_by_color stats) turn
               = Z.of_nat (length (filter (λ p, pos_turn p = turn)
                                          (positions db))))
    ∧ (∀ c, count_of (moves_by_classification stats) c
            = Z.of_nat (length (filter (λ m, mv_classification m = c)
                                       (moves db))))
    ∧ count_of (positions_by_phase stats) "opening"
      = Z.of_nat (length (filter (λ p, pos_fullmove_number p ≤ 15)
                                 (positions db)))
    ∧ count_of (positions_by_phase stats) "middle_game"
      = Z.of_nat (length (filter (λ p, 15 < pos_fullmove_number p ≤ 32)
                                 (positions db)))
    ∧ count_of (positions_by_phase stats) "endgame"
      = Z.of_nat (length (filter (λ p, 32 < pos_fullmove_number p)
                                 (positions db)))
    ∧ total_positions stats
      = count_of (positions_by_phase stats) "opening"
        + count_of (positions_by_phase stats) "middle_game"
        + count_of (positions_by_phase stats) "endgame"
    ∧ (∀ k, is_Some (positions_by_phase stats !! k) →
            k = "opening" ∨ k = "middle_game" ∨ k = "endgame")
    ∧ (∀ k, positions_by_color stats !! k ≠ Some 0
            ∧ positions_by_phase stats !! k ≠ Some 0
            ∧ moves_by_classification stats !! k ≠ Some 0).
Proof.
  eexists. split; [apply get_position_stats_run|].
  cbn [total_positions total_moves positions_by_color positions_by_phase
       moves_by_classification].
  split; [done|]. split; [done|].
  split; [intros; apply count_of_group_count|].
  split; [intros; apply count_of_group_count|].
  do 3 (split;
    [rewrite count_of_group_count; do 2 f_equal;
     apply list_filter_iff; intros p; unfold phase;
     destruct (Z.leb_spec (pos_fullmove_number p) 15);
       [|destruct (Z.leb_spec (pos_fullmove_number p) 32)];
     split; intros; try done; lia|]).
  split; [|split].
  - rewrite !count_of_group_count, (phase_partition (positions db)). lia.
  - intros k [n Hk]. rewrite group_count_lookup in Hk.
    destruct (decide _) as [|Hne]; [done|].
    destruct (filter (λ r, phase r = k) (positions db)) as [|p l] eqn:E;
      [done|].
    assert (Hp : p ∈ filter (λ r, phase r = k) (positions db))
      by (rewrite E; left).
    apply list_elem_of_filter in Hp as [<- _]. unfold phase.
    destruct (_ <=? 15); [auto|]. destruct (_ <=? 32); auto.
  - intros k. rewrite !group_count_lookup.
    repeat split; destruct (decide _) as [|Hne]; try done;
      intros [= Hz]; apply Hne;
      by apply length_zero_iff_nil, Nat2Z.inj.
Qed.

Lemma get_position_category_cases (n : Z) :
  get_position_category n = "opening" ∧ n ≤ 15
  ∨ get_position_category n = "middle game" ∧ 15 < n ≤ 32
  ∨ get_position_category n = "endgame" ∧ 32 < n.
Proof.
  unfold get_position_category.
  destruct (Z.leb_spec n 15); [auto|].
  destruct (Z.leb_spec n 32); [right; left; split; [done|lia]|auto].
Qed.

(** X18: the phase counts of [get_position_stats] follow the same move
    number bounds as [get_position_category]: "opening" and "endgame" count
    the positions that function calls "opening" and "endgame", and
    "middle_game" counts those it calls "middle game"; the two spell the
    middle phase differently, so the stats dict never has a key
    "middle game" and [get_position_category] never returns "middle_game". *)
Theorem get_position_stats_phases (db : DB) :
  ∃ stats, get_position_stats db = (inr stats, db)
    ∧ (∀ label, label = "opening" ∨ label = "endgame" →
         count_of (positions_by_phase stats) label
         = Z.of_nat (length (filter
             (λ p, get_position_category (pos_fullmove_number p) = label)
             (positions db))))
    ∧ count_of (positions_by_phase stats) "middle_game"
      = Z.of_nat (length (filter
          (λ p, get_position_category (pos_fullmove_number p)
                = "middle game")
          (positions db)))
    ∧ positions_by_phase stats !! "middle game" = None
    ∧ (∀ n, get_position_category n ∈ ["opening"; "middle game"; "endgame"]).
Proof.
  eexists. split; [apply get_position_stats_run|].
  cbn [positions_by_phase].
  assert (Hsame : ∀ k k' : string,
            (∀ p, phase p = k ↔
                  get_position_category (pos_fullmove_number p) = k') →
            count_of (group_count phase (positions db)) k
            = Z.of_nat (length (filter
                (λ p, get_position_category (pos_fullmove_number p) = k')
                (positions db)))).
  { intros k k' Hiff. rewrite count_of_group_count. do 2 f_equal.
    apply list_filter_iff. intros p. apply Hiff. }
  split; [|split; [|split]].
  - intros label [-> | ->]; apply Hsame; intros p;
      unfold phase, get_position_category;
      destruct (_ <=? 15); [done| |done|];
      destruct (_ <=? 32); done.
  - apply Hsame. intros p. unfold phase, get_position_category.
    destruct (_ <=? 15); [done|]. destruct (_ <=? 32); done.
  - rewrite group_count_lookup. rewrite decide_True; [done|].
    apply filter_nil_iff. intros p _. unfold phase.
    destruct (_ <=? 15); [done|]. destruct (_ <=? 32); done.
  - intros n. unfold get_position_category.
    destruct (_ <=? 15); [left|].
    destruct (_ <=? 32); [right; left|right; right; left].
Qed.

(** ** The history of a user's attempts *)

Global Instance newer_first_total : Total newer_first.
Proof. intros a b. unfold newer_first. apply String.leb_total. Qed.

Lemma join_user_moves_elem_of (user_id : Z) (db : DB) (r : filtered_move) :
  r ∈ join_user_moves user_id db ↔ joined_attempt user_id db r.
Proof.
  unfold join_user_moves, joined_attempt. rewrite list_elem_of_bind. split.
  - intros (um & Hr & Hum). apply list_elem_of_bind in Hr as (p & Hr & Hp).
    apply list_elem_of_bind in Hr as (m & Hr & Hm).
    apply list_elem_of_singleton in Hr.
    apply list_elem_of_filter in Hum as [? ?].
    apply list_elem_of_filter in Hp as [? ?].
    apply list_elem_of_filter in Hm as [? ?].
    by exists um, p, m.
  - intros (um & p & m & ? & ? & ? & ? & ? & ? & ->).
    exists um. split; [|by apply list_elem_of_filter].
    apply list_elem_of_bind. exists p.
    split; [|by apply list_elem_of_filter].
    apply list_elem_of_bind. exists m.
    split; [left|by apply list_elem_of_filter].
Qed.

Lemma get_filtered_user_moves_run (user_id : Z) (filters : move_filters)
    (db : DB) :
  get_filtered_user_moves user_id filters db
  = (inr (select_filtered_user_moves user_id filters db), db).
Proof. reflexivity. Qed.

Lemma select_filtered_user_moves_elem_of (user_id : Z)
    (filters : move_filters) (db : DB) (r : filtered_move) :
  r ∈ select_filtered_user_moves user_id (without_limit filters) db
  ↔ joined_attempt user_id db r
    ∧ move_number_clause filters r = true ∧ color_clause filters r = true
    ∧ result_clause filters r = true ∧ category_clause filters r = true.
Proof.
  unfold select_filtered_user_moves. cbn [f_limit without_limit truthy].
  rewrite merge_sort_Permutation, list_elem_of_In, filter_In.
  rewrite <- list_elem_of_In, join_user_moves_elem_of.
  rewrite !andb_true_iff. unfold move_number_clause, color_clause,
    result_clause, category_clause. cbn. tauto.
Qed.

(** X19: without a category filter, [get_filtered_user_moves] returns, newest
    timestamp first, exactly the attempts of the user that have a position
    row and a move row (joined with them) and that match each filter given:
    the move number when it is non-zero, the colour and the result when they
    are non-empty.  With a positive ['limit'] [n] it returns the first [n] of
    these, so at most [n]; a zero or negative limit does not limit. *)
Theorem get_filtered_user_moves_history (db : DB) (user_id : Z)
    (filters : move_filters) :
  truthy_str (f_category filters) = false →
  ∃ history rows,
    get_filtered_user_moves user_id (without_limit filters) db
    = (inr history, db)
    ∧ Sorted newer_first history
    ∧ (∀ r, r ∈ history ↔
         joined_attempt user_id db r
         ∧ (∀ n, f_move_number filters = Some n → n ≠ 0 →
                 fm_fullmove_number r = n)
         ∧ (∀ c, f_color filters = Some c → c ≠ "" → fm_turn r = c)
         ∧ (∀ x, f_result filters = Some x → x ≠ "" → fm_result r = x))
    ∧ get_filtered_user_moves user_id filters db = (inr rows, db)
    ∧ (∀ n, f_limit filters = Some n → 0 < n →
            rows = take (Z.to_nat n) history
            ∧ Z.of_nat (length rows) ≤ n)
    ∧ ((∀ n, f_limit filters = Some n → n ≤ 0) → rows = history).
Proof.
  intros Hcat. eexists _, _. rewrite !get_filtered_user_moves_run.
  split; [reflexivity|]. split; [|split; [|split; [reflexivity|split]]].
  - apply Sorted_merge_sort. apply _.
  - intros r. rewrite select_filtered_user_moves_elem_of.
    unfold move_number_clause, color_clause, result_clause,
      category_clause. rewrite Hcat.
    destruct (f_move_number filters) as [n|],
      (f_color filters) as [c|], (f_result filters) as [x|];
      cbn [truthy truthy_str];
      repeat match goal with
        | |- context [(?a =? 0)] => destruct (Z.eqb_spec a 0)
        | |- context [String.eqb ?a ""] => destruct (String.eqb_spec a "")
        end; cbn [negb]; rewrite ?bool_decide_eq_true;
      split; (intros (Hj & H1); split; [exact Hj|]);
      repeat match goal with
        | H : _ ∧ _ |- _ => destruct H
        | |- _ ∧ _ => split
        | |- ∀ _, _ => intros
        end; simplify_eq; try done;
      repeat match goal with
        | H : ∀ _, Some ?n = Some _ → _ |- _ =>
            specialize (H n eq_refl)
        end; try (f_equal; auto; fail); auto.
  - intros n Hn Hpos.
    assert (Hrows : select_filtered_user_moves user_id filters db
                    = take (Z.to_nat n)
                        (select_filtered_user_moves user_id
                           (without_limit filters) db)).
    { unfold select_filtered_user_moves at 1.
      rewrite Hn. cbn [truthy default from_option id].
      destruct (Z.eqb_spec n 0) as [?|_]; [lia|]. cbn [negb].
      unfold sql_limit. by destruct (Z.ltb_spec n 0) as [?|_]; [lia|]. }
    rewrite Hrows. split; [reflexivity|]. rewrite length_take. lia.
  - intros Hno. unfold select_filtered_user_moves at 1.
    destruct (f_limit filters) as [n|] eqn:Hn; [|reflexivity].
    specialize (Hno n eq_refl). cbn [truthy default from_option id].
    destruct (Z.eqb_spec n 0) as [?|Hnz]; [reflexivity|]. cbn [negb].
    unfold sql_limit. destruct (Z.ltb_spec n 0) as [?|?]; [reflexivity|lia].
Qed.

Lemma get_filtered_user_moves_history_witness :
  ∃ history rows,
    get_filtered_user_moves 1 (without_limit no_filters) sample_db_exhausted
    = (inr history, sample_db_exhausted)
    ∧ Sorted newer_first history
    ∧ (∀ r, r ∈ history ↔
         joined_attempt 1 sample_db_exhausted r
         ∧ (∀ n, f_move_number no_filters = Some n → n ≠ 0 →
                 fm_fullmove_number r = n)
         ∧ (∀ c, f_color no_filters = Some c → c ≠ "" → fm_turn r = c)
         ∧ (∀ x, f_result no_filters = Some x → x ≠ "" → fm_result r = x))
    ∧ get_filtered_user_moves 1 no_filters sample_db_exhausted
      = (inr rows, sample_db_exhausted)
    ∧ (∀ n, f_limit no_filters = Some n → 0 < n →
            rows = take (Z.to_nat n) history
            ∧ Z.of_nat (length rows) ≤ n)
    ∧ ((∀ n, f_limit no_filters = Some n → n ≤ 0) → rows = history).
Proof.
  apply (get_filtered_user_moves_history sample_db_exhausted 1 no_filters).
  reflexivity.
Defined.

(** The one attempt of the sample store, joined. *)
Example get_filtered_user_moves_sample :
  fm_id <$> select_filtered_user_moves 1 no_filters sample_db_exhausted = [1]
  ∧ select_filtered_user_moves 2 no_filters sample_db_exhausted = [].
Proof. split; reflexivity. Qed.

Lemma category_clause_label (filters : move_filters) (c : string)
    (r : filtered_move) :
  f_category filters = Some c →
  c ∈ ["opening"; "middle game"; "endgame"] →
  category_clause filters r = true
  ↔ get_position_category (fm_fullmove_number r) = c.
Proof.
  intros Hc Hlabel. unfold category_clause, get_position_category.
  rewrite Hc.
  repeat (apply elem_of_cons in Hlabel as [->|Hlabel]);
    [| | |by apply elem_of_nil in Hlabel]; cbn;
    destruct (Z.leb_spec (fm_fullmove_number r) 15);
    destruct (Z.leb_spec (fm_fullmove_number r) 32);
    destruct (Z.ltb_spec 15 (fm_fullmove_number r));
    destruct (Z.ltb_spec 32 (fm_fullmove_number r));
    cbn; split; intros; try done; lia.
Qed.

Lemma category_clause_other (filters : move_filters) (c : string)
    (r : filtered_move) :
  f_category filters = Some c →
  c ∉ ["opening"; "middle game"; "endgame"] →
  category_clause filters r = true.
Proof.
  intros Hc Hother. unfold category_clause. rewrite Hc.
  destruct (truthy_str (Some c)); [|done].
  rewrite !bool_decide_eq_false_2; [done|..];
    intros [= ->]; apply Hother; set_solver.
Qed.

(** X20: the ['category'] filter of [get_filtered_user_moves] selects by the
    same move-number bounds as [get_position_category]: with category
    "opening", "middle game" or "endgame" a row is returned exactly when it
    is returned without the category filter and [get_position_category] of
    its move number is that category.  Any other category string filters
    nothing: the result is the one without the category. *)
Theorem get_filtered_user_moves_category (db : DB) (user_id : Z)
    (filters : move_filters) (c : string) :
  f_category filters = Some c →
  ∃ rows all,
    get_filtered_user_moves user_id (without_limit filters) db
    = (inr rows, db)
    ∧ get_filtered_user_moves user_id
        (without_limit (without_category filters)) db = (inr all, db)
    ∧ (c ∈ ["opening"; "middle game"; "endgame"] →
       ∀ r, r ∈ rows ↔
            r ∈ all ∧ get_position_category (fm_fullmove_number r) = c)
    ∧ (c ∉ ["opening"; "middle game"; "endgame"] → rows = all).
Proof.
  intros Hc. eexists _, _. rewrite !get_filtered_user_moves_run.
  split; [reflexivity|]. split; [reflexivity|]. split.
  - intros Hlabel r.
    rewrite (select_filtered_user_moves_elem_of user_id filters),
      (select_filtered_user_moves_elem_of user_id
         (without_category filters)).
    rewrite (category_clause_label filters c r Hc Hlabel).
    unfold move_number_clause, color_clause, result_clause,
      category_clause. cbn. tauto.
  - intros Hother. unfold select_filtered_user_moves.
    cbn [f_limit without_limit truthy]. f_equal.
    apply filter_ext. intros r.
    change (category_clause (without_limit filters) r)
      with (category_clause filters r).
    rewrite (category_clause_other filters c r Hc Hother). reflexivity.
Qed.

Lemma get_filtered_user_moves_category_witness :
  ∃ rows all,
    get_filtered_user_moves 1
      (without_limit
         {| f_move_number := None; f_color := None; f_result := None;
            f_category := Some "opening"; f_limit := None |})
      sample_db_exhausted = (inr rows, sample_db_exhausted)
    ∧ get_filtered_user_moves 1
        (without_limit
           (without_category
              {| f_move_number := None; f_color := None; f_result := None;
                 f_category := Some "opening"; f_limit := None |}))
        sample_db_exhausted = (inr all, sample_db_exhausted)
    ∧ ("opening" ∈ ["opening"; "middle game"; "endgame"] →
       ∀ r, r ∈ rows ↔
            r ∈ all
            ∧ get_position_category (fm_fullmove_number r) = "opening")
    ∧ ("opening" ∉ ["opening"; "middle game"; "endgame"] → rows = all).
Proof.
  apply (get_filtered_user_moves_category sample_db_exhausted 1
           {| f_move_number := None; f_color := None; f_result := None;
              f_category := Some "opening"; f_limit := None |} "opening").
  reflexivity.
Defined.

Lemma filter_key_singleton {A} (f : A → Z) (l : list A) (x : A) :
  NoDup (f <$> l) → x ∈ l → filter (λ y, f y = f x) l = [x].
Proof.
  intros Hnd Hx. induction l as [|a l IH]; [by apply elem_of_nil in Hx|].
  cbn [fmap list_fmap] in Hnd. apply NoDup_cons in Hnd as [Ha Hnd].
  rewrite filter_cons. apply elem_of_cons in Hx as [->|Hx].
  - rewrite decide_True by done. f_equal.
    apply filter_nil_iff. intros y Hy Heq. apply Ha.
    rewrite <- Heq. apply list_elem_of_fmap. by exists y.
  - rewrite decide_False; [by apply IH|].
    intros Heq. apply Ha. rewrite Heq. apply list_elem_of_fmap.
    by exists x.
Qed.

(** X21: in a store whose position ids and move ids are distinct and whose
    attempts all name an existing position and an existing move,
    [get_filtered_user_moves] without filters returns exactly one row per
    attempt of the user: the history is as long as the user's attempts are
    many, none is dropped or doubled by the join. *)
Theorem get_filtered_user_moves_complete (db : DB) (user_id : Z) :
  unique_position_ids db → unique_move_ids db → user_moves_reference db →
  ∃ rows, get_filtered_user_moves user_id no_filters db = (inr rows, db)
    ∧ length rows
      = length (filter (λ um, um_user_id um = user_id) (user_moves db))
    ∧ fm_id <$> rows
      ≡ₚ um_id <$> filter (λ um, um_user_id um = user_id) (user_moves db).
Proof.
  intros Hpos Hmov Href. eexists. rewrite get_filtered_user_moves_run.
  split; [reflexivity|].
  assert (Hperm : fm_id <$> select_filtered_user_moves user_id no_filters db
                  ≡ₚ um_id <$> filter (λ um, um_user_id um = user_id)
                                      (user_moves db)).
  { unfold select_filtered_user_moves. cbn [f_limit no_filters truthy].
    rewrite merge_sort_Permutation.
    rewrite (filter_ext _ (λ _, true)) by done.
    rewrite forallb_filter_id by by apply forallb_forall.
    unfold join_user_moves.
    assert (Hsub : ∀ um, um ∈ filter (λ um, um_user_id um = user_id)
                                     (user_moves db) → um ∈ user_moves db)
      by (intros um Hum; by apply list_elem_of_filter in Hum as [_ ?]).
    induction (filter (λ um, um_user_id um = user_id) (user_moves db))
      as [|um ums IH]; [done|].
    rewrite bind_cons, fmap_app, IH by (intros; apply Hsub; by right).
    destruct (Href um (Hsub um ltac:(left)))
      as [(p & Hp & Hpid) (m & Hm & Hmid)].
    rewrite <- Hpid, (filter_key_singleton pos_id _ p Hpos Hp).
    rewrite bind_singleton.
    rewrite <- Hmid, (filter_key_singleton mv_id _ m Hmov Hm).
    rewrite bind_singleton. reflexivity. }
  split; [|exact Hperm].
  apply Permutation_length in Hperm. by rewrite !length_fmap in Hperm.
Qed.

Lemma sample_db_exhausted_reference :
  user_moves_reference sample_db_exhausted.
Proof.
  intros um Hum. cbn in Hum.
  repeat (apply elem_of_cons in Hum as [->|Hum]);
    try (by apply elem_of_nil in Hum).
  split.
  - exists (sample_position 2 "fen-2"). split; [|done]. cbn. right. left.
  - exists (sample_move 1 1 "e4" "e2e4" 30 1). split; [|done]. cbn. left.
Qed.

Lemma get_filtered_user_moves_complete_witness :
  ∃ rows, get_filtered_user_moves 1 no_filters sample_db_exhausted
          = (inr rows, sample_db_exhausted)
    ∧ length rows
      = length (filter (λ um, um_user_id um = 1)
                       (user_moves sample_db_exhausted))
    ∧ fm_id <$> rows
      ≡ₚ um_id <$> filter (λ um, um_user_id um = 1)
                          (user_moves sample_db_exhausted).
Proof.
  apply (get_filtered_user_moves_complete sample_db_exhausted 1).
  - unfold unique_position_ids. by apply (bool_decide_unpack _).
  - unfold unique_move_ids. by apply (bool_decide_unpack _).
  - exact sample_db_exhausted_reference.
Defined.

(** ** Accounts *)

Ltac run_MA :=
  unfold uncommitted_on_error, on_tables, execute_users, insert_user,
    insert_default_settings, update_last_login in *;
  run_M; unfold MA_bind, MA_ret in *; cbn [conn_closed fst snd] in *.

Lemma register_user_run (hash_password : string → string) (now : string)
    (email password : string) (s : AuthDB) :
  register_user hash_password now email password s
  = match head (filter (λ u, u_email u = email) (users s)) with
    | Some _ => (inr false, s)
    | None =>
        let user := new_user hash_password now email password s in
        if bool_decide (u_id user
                          ∈ us_user_id <$> user_settings (tables s))
        then (inl (IntegrityError
                     "UNIQUE constraint failed: user_settings.user_id"), s)
        else (inr true,
              {| users := users s ++ [user]; users_seq := u_id user;
                 tables := set_user_settings
                             (user_settings (tables s)
                                ++ [default_settings (u_id user)])
                             (tables s) |})
    end.
Proof.
  destruct s as [us seq db]. unfold register_user. run_MA.
  cbn [users users_seq tables].
  destruct (head (filter (λ u, u_email u = email) us)); [reflexivity|].
  cbn [new_user u_id].
  by destruct (bool_decide _).
Qed.

Lemma login_user_run (hash_password : string → string) (isoformat : string)
    (email password : string) (s : AuthDB) :
  login_user hash_password isoformat email password s
  = match head (filter (λ u, u_email u = email) (users s)) with
    | None => (inr None, s)
    | Some user =>
        if String.eqb (hash_password password) (u_password_hash user)
        then (inr (Some (u_id user)), logged_in isoformat (u_id user) s)
        else (inr None, s)
    end.
Proof.
  destruct s as [us seq db]. unfold login_user. run_MA.
  cbn [users users_seq tables].
  destruct (head (filter (λ u, u_email u = email) us)) as [user|];
    [|reflexivity].
  by destruct (String.eqb _ _).
Qed.

(** X22: registering an email that no account has, when no settings row
    carries the id the new account gets, returns True and adds one account
    (with the hash of the password and no last login) and one settings row
    for it holding the defaults: random positions on, top-N threshold 3,
    score difference threshold 10, theme "default"; the other tables are
    untouched.  [get_user_settings] then returns that row for the new id,
    and logging in with the same email and password returns the id. *)
Theorem register_user_then_login (hash_password : string → string)
    (now isoformat email password : string) (s : AuthDB) :
  (∀ u, u ∈ users s → u_email u ≠ email) →
  (∀ r, r ∈ user_settings (tables s) →
        us_user_id r ≠ next_rowid (users_seq s) (u_id <$> users s)) →
  ∃ s' id,
    register_user hash_password now email password s = (inr true, s')
    ∧ id = next_rowid (users_seq s) (u_id <$> users s)
    ∧ users s' = (users s
                  ++ [new_user hash_password now email password s])%list
    ∧ user_settings (tables s')
      = (user_settings (tables s) ++ [default_settings id])%list
    ∧ positions (tables s') = positions (tables s)
    ∧ moves (tables s') = moves (tables s)
    ∧ user_moves (tables s') = user_moves (tables s)
    ∧ get_user_settings id (tables s')
      = (inr (Some (default_settings id)), tables s')
    ∧ login_user hash_password isoformat email password s'
      = (inr (Some id), logged_in isoformat id s').
Proof.
  intros Hfree Hnew. eexists _, _.
  rewrite register_user_run.
  assert (Hnone : filter (λ u, u_email u = email) (users s) = []).
  { apply filter_nil_iff. intros u Hu. by apply Hfree. }
  rewrite Hnone. cbn [head]. cbv zeta.
  rewrite bool_decide_eq_false_2.
  2:{ intros Hin. apply list_elem_of_fmap in Hin as (r & Hr & Hin).
      by apply (Hnew r Hin). }
  split; [reflexivity|]. split; [reflexivity|].
  cbn [users tables set_user_settings user_settings positions moves
       user_moves new_user u_id].
  repeat (split; [reflexivity|]). split.
  - rewrite get_user_settings_run. unfold select_user_settings, fetchone.
    cbn [user_settings set_user_settings].
    rewrite filter_app, filter_cons. cbn [us_user_id default_settings].
    rewrite decide_True by done. rewrite filter_nil.
    replace (filter _ (user_settings (tables s))) with
      (@nil user_settings_row); [reflexivity|].
    symmetry. apply filter_nil_iff. intros r Hr. by apply Hnew.
  - rewrite login_user_run. cbn [users].
    rewrite filter_app, Hnone, filter_cons. cbn [u_email new_user].
    rewrite decide_True by done. cbn [app head u_password_hash u_id].
    by rewrite String.eqb_refl.
Qed.

Lemma register_user_then_login_witness :
  ∃ s' id,
    register_user sample_hash "2025-01-02 00:00:00" "bob@example.org" "pw"
                  sample_accounts = (inr true, s')
    ∧ id = next_rowid (users_seq sample_accounts)
                      (u_id <$> users sample_accounts)
    ∧ users s' = (users sample_accounts
                  ++ [new_user sample_hash "2025-01-02 00:00:00"
                               "bob@example.org" "pw" sample_accounts])%list
    ∧ user_settings (tables s')
      = (user_settings (tables sample_accounts)
         ++ [default_settings id])%list
    ∧ positions (tables s') = positions (tables sample_accounts)
    ∧ moves (tables s') = moves (tables sample_accounts)
    ∧ user_moves (tables s') = user_moves (tables sample_accounts)
    ∧ get_user_settings id (tables s')
      = (inr (Some (default_settings id)), tables s')
    ∧ login_user sample_hash "2025-01-03T10:00:00" "bob@example.org" "pw" s'
      = (inr (Some id), logged_in "2025-01-03T10:00:00" id s').
Proof.
  apply (register_user_then_login sample_hash "2025-01-02 00:00:00"
           "2025-01-03T10:00:00" "bob@example.org" "pw" sample_accounts).
  - intros u Hu. cbn in Hu.
    repeat (apply elem_of_cons in Hu as [->|Hu]);
      try (by apply elem_of_nil in Hu); discriminate.
  - intros r Hr. cbn in Hr.
    repeat (apply elem_of_cons in Hr as [->|Hr]);
      try (by apply elem_of_nil in Hr); vm_compute; discriminate.
Defined.

(** X23: registering an email that an account already has returns False,
    whatever the password, and leaves the whole store as it was: no account
    and no settings row is added, no password replaced. *)
Theorem register_user_email_taken (hash_password : string → string)
    (now email password : string) (s : AuthDB) (u : user_row) :
  u ∈ users s → u_email u = email →
  register_user hash_password now email password s = (inr false, s).
Proof.
  intros Hu Hemail. rewrite register_user_run.
  assert (Hin : u ∈ filter (λ u, u_email u = email) (users s))
    by by apply list_elem_of_filter.
  by destruct (filter (λ u, u_email u = email) (users s));
    [apply elem_of_nil in Hin|].
Qed.

Lemma register_user_email_taken_witness :
  register_user sample_hash "2025-01-02 00:00:00" "ann@example.org" "other"
                sample_accounts = (inr false, sample_accounts).
Proof.
  apply (register_user_email_taken sample_hash "2025-01-02 00:00:00"
           "ann@example.org" "other" sample_accounts
           {| u_id := 1; u_email := "ann@example.org";
              u_password_hash := sample_hash "secret";
              u_created_at := "2025-01-01 00:00:00";
              u_last_login := None |}).
  - cbn. left.
  - reflexivity.
Defined.

(** X24: [login_user] returns an id only for an account with the given
    email whose stored hash is the hash of the given password, and then it
    changes nothing but the last-login time of that account.  In a store
    with distinct emails it returns the id of the account [u] exactly when
    the hash of the password is the stored one; in every other case it
    returns None and leaves the store as it was. *)
Theorem login_user_checks_password (hash_password : string → string)
    (isoformat email password : string) (s : AuthDB) :
  (∀ id s', login_user hash_password isoformat email password s
            = (inr (Some id), s') →
     s' = logged_in isoformat id s
     ∧ ∃ u, u ∈ users s ∧ u_id u = id ∧ u_email u = email
            ∧ u_password_hash u = hash_password password)
  ∧ (∀ s', login_user hash_password isoformat email password s
           = (inr None, s') → s' = s)
  ∧ (∀ e s', login_user hash_password isoformat email password s
             ≠ (inl e, s'))
  ∧ (NoDup (u_email <$> users s) →
     ∀ u, u ∈ users s → u_email u = email →
       login_user hash_password isoformat email password s
       = if String.eqb (hash_password password) (u_password_hash u)
         then (inr (Some (u_id u)), logged_in isoformat (u_id u) s)
         else (inr None, s)).
Proof.
  rewrite login_user_run. split; [|split; [|split]].
  - intros id s'. destruct (head _) as [u|] eqn:E; [|discriminate].
    destruct (String.eqb_spec (hash_password password)
                (u_password_hash u)) as [Heq|]; [|discriminate].
    intros [= <- <-]. split; [done|].
    apply head_filter_Some in E as [Hu Hem]. by exists u.
  - intros s'. destruct (head _) as [u|]; [|by intros [= <-]].
    destruct (String.eqb _ _); [discriminate|by intros [= <-]].
  - intros e s'. destruct (head _) as [u|]; [|discriminate].
    destruct (String.eqb _ _); discriminate.
  - intros Hnd u Hu Hemail.
    rewrite (head_filter_unique (λ u, u_email u = email) (users s) u);
      [done..|].
    intros y Hy Hye. clear -Hnd Hu Hy Hye Hemail.
    induction (users s) as [|a l IH]; [by apply elem_of_nil in Hu|].
    cbn [fmap list_fmap] in Hnd. apply NoDup_cons in Hnd as [Ha Hnd].
    apply elem_of_cons in Hu as [->|Hu];
      apply elem_of_cons in Hy as [->|Hy]; [done| | |by apply IH].
    + exfalso. apply Ha. apply list_elem_of_fmap. exists y.
      split; [congruence|done].
    + exfalso. apply Ha. apply list_elem_of_fmap. exists u.
      split; [congruence|done].
Qed.

(** A wrong password for the sample account, then the right one. *)
Example login_user_sample :
  login_user sample_hash "2025-01-03T10:00:00" "ann@example.org" "guess"
             sample_accounts = (inr None, sample_accounts)
  ∧ fst (login_user sample_hash "2025-01-03T10:00:00" "ann@example.org"
                    "secret" sample_accounts) = inr (Some 1)
  ∧ login_user sample_hash "2025-01-03T10:00:00" "eve@example.org" "secret"
               sample_accounts = (inr None, sample_accounts).
Proof. repeat split; reflexivity. Qed.

Lemma sql_max_elem_of (xs : list Z) (m : Z) : sql_max xs = Some m → m ∈ xs.
Proof.
  destruct xs as [|x xs]; [done|]. cbn. intros [= <-].
  induction xs as [|y ys IH]; cbn; [left|].
  destruct (Z.max_spec y (foldr Z.max x ys)) as [[_ ->]|[_ ->]].
  - apply elem_of_cons in IH as [->|IH]; [left|]. right. by right.
  - right. left.
Qed.

Lemma next_rowid_bounded (seq : Z) (ids : list Z) :
  Forall (λ x, x ≤ seq) ids → 0 ≤ seq → next_rowid seq ids = seq + 1.
Proof.
  intros Hle Hpos. unfold next_rowid.
  destruct (sql_max ids) as [m|] eqn:E; cbn [default from_option id];
    [|lia].
  apply sql_max_elem_of in E. rewrite Forall_forall in Hle.
  specialize (Hle m E). lia.
Qed.

Lemma logged_in_emails (isoformat : string) (id : Z) (s : AuthDB) :
  u_email <$> users (logged_in isoformat id s) = u_email <$> users s.
Proof.
  cbn. rewrite <- list_fmap_compose. apply list_fmap_ext.
  intros k u _. cbn. by destruct (decide _).
Qed.

Lemma logged_in_ids (isoformat : string) (id : Z) (s : AuthDB) :
  u_id <$> users (logged_in isoformat id s) = u_id <$> users s.
Proof.
  cbn. rewrite <- list_fmap_compose. apply list_fmap_ext.
  intros k u _. cbn. by destruct (decide _).
Qed.

(** X25: in a store whose accounts have distinct emails and distinct ids
    bounded by the sequence of [users], and whose settings rows carry ids
    bounded by it too, [register_user] never raises: it returns True exactly
    when no account has the email and False otherwise.  Registering and
    logging in both keep the emails and ids distinct and bounded. *)
Theorem accounts_keyed_kept (hash_password : string → string)
    (now isoformat email password : string) (s : AuthDB) :
  accounts_keyed s →
  (∃ registered s',
     register_user hash_password now email password s
     = (inr registered, s')
     ∧ (registered = true ↔ ∀ u, u ∈ users s → u_email u ≠ email)
     ∧ accounts_keyed s')
  ∧ accounts_keyed
      (snd (login_user hash_password isoformat email password s)).
Proof.
  intros (Hemails & Hids & Hle & Hsettings & Hpos). split.
  - rewrite register_user_run.
    destruct (head (filter (λ u, u_email u = email) (users s)))
      as [u|] eqn:E.
    + exists false, s. split; [done|]. split; [|done].
      split; [done|]. intros Hfree. apply head_filter_Some in E as [Hu He].
      by destruct (Hfree u Hu).
    + apply head_None in E. cbv zeta. unfold new_user. cbn [u_id].
      assert (Hnext : next_rowid (users_seq s) (u_id <$> users s)
                      = users_seq s + 1).
      { apply next_rowid_bounded; [|done]. by apply Forall_fmap. }
      rewrite Hnext. rewrite bool_decide_eq_false_2.
      2:{ intros Hin. apply list_elem_of_fmap in Hin as (r & Hr & Hin).
          pose proof (proj1 (Forall_forall _ _) Hsettings r Hin) as Hr'.
          cbn in Hr'. lia. }
      eexists true, _. split; [reflexivity|]. split.
      * split; [|done]. intros _ u Hu.
        by apply (proj1 (filter_nil_iff _ _) E u Hu).
      * unfold accounts_keyed.
        cbn [users users_seq tables set_user_settings user_settings].
        rewrite !fmap_app. cbn [fmap list_fmap u_email u_id].
        split; [|split; [|split; [|split]]].
        -- apply NoDup_app. split; [done|]. split; [|apply NoDup_singleton].
           intros x Hx ->%list_elem_of_singleton.
           apply list_elem_of_fmap in Hx as (u & Hue & Hu).
           by apply (proj1 (filter_nil_iff _ _) E u Hu).
        -- apply NoDup_app. split; [done|]. split; [|apply NoDup_singleton].
           intros x Hx ->%list_elem_of_singleton.
           apply list_elem_of_fmap in Hx as (u & Hue & Hu).
           pose proof (proj1 (Forall_forall _ _) Hle u Hu) as Hu'.
           cbn in Hu'. lia.
        -- apply Forall_app. split.
           ++ eapply Forall_impl; [exact Hle|]. cbn. intros; lia.
           ++ apply Forall_singleton. cbn. lia.
        -- apply Forall_app. split.
           ++ eapply Forall_impl; [exact Hsettings|]. cbn. intros; lia.
           ++ apply Forall_singleton. cbn. lia.
        -- lia.
  - rewrite login_user_run.
    destruct (head (filter (λ u, u_email u = email) (users s))) as [u|];
      [|done].
    destruct (String.eqb _ _); [|done]. cbn [snd]. unfold accounts_keyed.
    rewrite logged_in_emails, logged_in_ids.
    split; [done|]. split; [done|]. split; [|done].
    cbn [users logged_in users_seq]. apply Forall_fmap.
    eapply Forall_impl; [exact Hle|]. intros u' Hu'. cbn.
    by destruct (decide _).
Qed.

Lemma sample_accounts_keyed : accounts_keyed sample_accounts.
Proof.
  unfold accounts_keyed. cbn.
  split; [apply NoDup_singleton|]. split; [apply NoDup_singleton|].
  split; [apply Forall_singleton; cbn; lia|].
  split; [|lia]. repeat constructor; cbn; lia.
Qed.

Lemma accounts_keyed_kept_witness :
  (∃ registered s',
     register_user sample_hash "2025-01-02 00:00:00" "bob@example.org" "pw"
                   sample_accounts = (inr registered, s')
     ∧ (registered = true ↔
        ∀ u, u ∈ users sample_accounts → u_email u ≠ "bob@example.org")
     ∧ accounts_keyed s')
  ∧ accounts_keyed
      (snd (login_user sample_hash "2025-01-03T10:00:00" "bob@example.org"
                       "pw" sample_accounts)).
Proof.
  exact (accounts_keyed_kept sample_hash "2025-01-02 00:00:00"
           "2025-01-03T10:00:00" "bob@example.org" "pw" sample_accounts
           sample_accounts_keyed).
Defined.

(** ** The performance summary *)

Lemma join_positions_nil (user_id : Z) (db : DB) :
  filter (λ um, um_user_id um = user_id) (user_moves db) = [] →
  join_positions user_id db = [].
Proof. unfold join_positions. by intros ->. Qed.

Lemma join_moves_nil (user_id : Z) (db : DB) :
  filter (λ um, um_user_id um = user_id) (user_moves db) = [] →
  join_moves user_id db = [].
Proof. unfold join_moves. by intros ->. Qed.

(** X26: for a user without attempts (the SQL aggregates being NULL on no
    rows) [get_user_performance_summary] raises nothing and divides by
    nothing: it returns 0 attempts, accuracy 0, no group rows, and None for
    the number of correct moves and for the average, least and greatest
    time.  The head of the analysis page then raises [TypeError] when it
    formats that None average time with [:.1f]. *)
Theorem get_user_performance_summary_no_attempts (engine : real_aggregates)
    (format_1f : float → string) (user_id : Z) (db : DB) :
  null_on_empty engine →
  (∀ um, um ∈ user_moves db → um_user_id um ≠ user_id) →
  get_user_performance_summary engine user_id db = (inr empty_summary, db)
  ∧ display_analysis_metrics engine format_1f user_id db
    = (inl (TypeError
              "unsupported format string passed to NoneType.__format__"),
       db).
Proof.
  intros (Havg & Hmin & Hmax) Hnone.
  assert (Hnil : filter (λ um, um_user_id um = user_id) (user_moves db) = []).
  { apply filter_nil_iff. intros um Hum. by apply Hnone. }
  assert (Hrun : get_user_performance_summary engine user_id db
                 = (inr empty_summary, db)).
  { unfold get_user_performance_summary, select_basic_stats. run_M.
    cbn [head]. rewrite Hnil. cbn [length fmap list_fmap sum_pass].
    rewrite Havg, Hmin, Hmax. change (0 <? Z.of_nat 0) with false.
    cbv iota beta.
    rewrite join_positions_nil, join_moves_nil by done. reflexivity. }
  split; [exact Hrun|].
  unfold display_analysis_metrics. unfold mbind at 1. unfold M_bind at 1.
  rewrite Hrun. reflexivity.
Qed.

Lemma get_user_performance_summary_no_attempts_witness :
  get_user_performance_summary sample_engine 1 sample_db
  = (inr empty_summary, sample_db)
  ∧ display_analysis_metrics sample_engine (λ _, "0.0") 1 sample_db
    = (inl (TypeError
              "unsupported format string passed to NoneType.__format__"),
       sample_db).
Proof.
  apply (get_user_performance_summary_no_attempts sample_engine
           (λ _, "0.0") 1 sample_db).
  - repeat split.
  - intros um Hum. by apply elem_of_nil in Hum.
Defined.

Lemma sum_pass_length (results : list string) :
  default 0 (sum_pass results)
  = Z.of_nat (length (filter (λ r, r = "pass") results)).
Proof. by destruct results. Qed.

Lemma filter_snd_pass (rows : list (string * string)) (key : string) :
  length (filter (λ r, r = "pass")
                 (snd <$> filter (λ row, fst row = key) rows))
  = length (filter (λ row, fst row = key ∧ snd row = "pass") rows).
Proof.
  induction rows as [|[k r] rows IH]; [done|].
  rewrite !filter_cons. cbn [fst snd].
  destruct (decide (k = key)) as [->|Hne].
  - cbn [fmap list_fmap snd]. rewrite filter_cons.
    destruct (decide (r = "pass")) as [->|Hr].
    + rewrite decide_True by done. cbn [length]. by rewrite IH.
    + rewrite decide_False by tauto. exact IH.
  - rewrite decide_False by tauto. exact IH.
Qed.

Global Instance key_le_total : Total key_le.
Proof. intros a b. unfold key_le. apply String.leb_total. Qed.

Lemma group_stats_groups (rows : list (string * string)) :
  groups_of rows (group_stats rows).
Proof.
  unfold groups_of, group_stats.
  assert (Hkeys : ∀ f : string → group_stat,
            (∀ key, gs_key (f key) = key) →
            gs_key <$> (f <$> merge_sort key_le (remove_dups (fst <$> rows)))
            ≡ₚ remove_dups (fst <$> rows)).
  { intros f Hf. rewrite <- list_fmap_compose.
    rewrite (list_fmap_ext _ id) by (intros; apply Hf).
    rewrite list_fmap_id. apply merge_sort_Permutation. }
  split; [|split].
  - rewrite Hkeys by done. apply NoDup_remove_dups.
  - intros row Hrow. rewrite Hkeys by done.
    apply elem_of_remove_dups, list_elem_of_fmap. by exists row.
  - intros g Hg. apply list_elem_of_fmap in Hg as (key & -> & Hkey).
    rewrite merge_sort_Permutation, elem_of_remove_dups in Hkey.
    apply list_elem_of_fmap in Hkey as ([k r] & -> & Hrow).
    cbn [gs_key gs_attempts gs_correct gs_accuracy fst].
    rewrite sum_pass_length, length_fmap, filter_snd_pass.
    assert (Hin : (k, r) ∈ filter (λ row, row.1 = k) rows)
      by by apply list_elem_of_filter.
    assert (Hsub : (length (filter (λ row, row.1 = k ∧ row.2 = "pass") rows)
                    ≤ length (filter (λ row, row.1 = k) rows))%nat).
    { clear. induction rows as [|[k' r'] rows IH]; [done|].
      rewrite !filter_cons. cbn [fst snd].
      destruct (decide (k' = k)) as [->|?].
      - destruct (decide (k = k ∧ r' = "pass")); cbn [length]; lia.
      - rewrite decide_False by tauto. exact IH. }
    destruct (filter (λ row, row.1 = k) rows) as [|x l] eqn:E;
      [by apply elem_of_nil in Hin|].
    cbn [length] in *. repeat split; lia.
Qed.

Lemma group_stats_keys (rows : list (string * string)) (g : group_stat) :
  g ∈ group_stats rows → gs_key g ∈ fst <$> rows.
Proof.
  intros Hg. apply list_elem_of_fmap in Hg as (key & -> & Hkey).
  by rewrite merge_sort_Permutation, elem_of_remove_dups in Hkey.
Qed.

Lemma get_user_performance_summary_run (engine : real_aggregates)
    (user_id : Z) (db : DB) :
  let attempts := filter (λ um, um_user_id um = user_id) (user_moves db) in
  get_user_performance_summary engine user_id db
  = (inr {| total_attempts := Z.of_nat (length attempts);
            correct_moves := sum_pass (um_result <$> attempts);
            avg_time := agg_avg engine (um_time_taken <$> attempts);
            min_time := agg_min engine (um_time_taken <$> attempts);
            max_time := agg_max engine (um_time_taken <$> attempts);
            summary_accuracy :=
              accuracy (default 0 (sum_pass (um_result <$> attempts)))
                       (Z.of_nat (length attempts));
            category_stats :=
              group_stats
                ((λ row, (get_position_category
                            (pos_fullmove_number row.2), um_result row.1))
                 <$> join_positions user_id db);
            classification_stats :=
              group_stats
                ((λ row, (mv_classification row.2, um_result row.1))
                 <$> join_moves user_id db);
            color_stats :=
              group_stats ((λ row, (pos_turn row.2, um_result row.1))
                           <$> join_positions user_id db);
            rank_stats :=
              group_stats ((λ row, (rank_group row.2, um_result row.1))
                           <$> join_moves user_id db) |}, db).
Proof.
  cbv zeta. unfold get_user_performance_summary, select_basic_stats. run_M.
  cbn [head].
  destruct (filter (λ um, um_user_id um = user_id) (user_moves db))
    as [|um ums].
  - reflexivity.
  - cbn [length sum_pass fmap list_fmap].
    change (0 <? Z.of_nat (S (length ums))) with true. cbv iota beta.
    unfold accuracy at 2.
    change (0 <? Z.of_nat (S (length ums))) with true. reflexivity.
Qed.

(** X27: [get_user_performance_summary] never raises, whatever the store:
    the total is the number of the user's attempts, the correct moves are
    the number of those with result "pass" (None without attempts), and each
    of the four grouped lists has one row per key that occurs, with at least
    one attempt, at most as many correct as attempts, and the accuracy
    computed from the two; the keys of the category list are the categories
    of [get_position_category]. *)
Theorem get_user_performance_summary_groups (engine : real_aggregates)
    (user_id : Z) (db : DB) :
  ∃ summary,
    get_user_performance_summary engine user_id db = (inr summary, db)
    ∧ total_attempts summary
      = Z.of_nat (length (filter (λ um, um_user_id um = user_id)
                                 (user_moves db)))
    ∧ correct_moves summary
      = sum_pass (um_result <$> filter (λ um, um_user_id um = user_id)
                                       (user_moves db))
    ∧ summary_accuracy summary
      = accuracy (default 0 (correct_moves summary))
                 (total_attempts summary)
    ∧ groups_of ((λ row, (get_position_category
                            (pos_fullmove_number row.2), um_result row.1))
                 <$> join_positions user_id db)
                (category_stats summary)
    ∧ groups_of ((λ row, (mv_classification row.2, um_result row.1))
                 <$> join_moves user_id db)
                (classification_stats summary)
    ∧ groups_of ((λ row, (pos_turn row.2, um_result row.1))
                 <$> join_positions user_id db)
                (color_stats summary)
    ∧ groups_of ((λ row, (rank_group row.2, um_result row.1))
                 <$> join_moves user_id db)
                (rank_stats summary)
    ∧ ∀ g, g ∈ category_stats summary →
           gs_key g ∈ ["opening"; "middle game"; "endgame"].
Proof.
  eexists. split; [apply get_user_performance_summary_run|].
  cbn [total_attempts correct_moves summary_accuracy category_stats
       classification_stats color_stats rank_stats].
  repeat (split; [done || apply group_stats_groups|]).
  intros g Hg. apply group_stats_keys in Hg.
  apply list_elem_of_fmap in Hg as (row & -> & Hrow).
  apply list_elem_of_fmap in Hrow as (x & -> & _).
  cbn [fst]. unfold get_position_category.
  destruct (_ <=? 15); [left|].
  destruct (_ <=? 32); [right; left|right; right; left].
Qed.

(** ** The comparative analysis *)

(** X28: [get_comparative_analysis] never runs its time-bucket query: the
    branch asks for the second factor "result", which is not among the valid
    factors, so the validity check has already returned.  For every user and
    pair of factors the function returns the "Invalid factors" error when a
    factor is not valid and the placeholder message otherwise, without
    raising or writing. *)
Theorem get_comparative_analysis_placeholder (user_id : Z)
    (factor1 factor2 : string) (db : DB) :
  get_comparative_analysis user_id factor1 factor2 db
  = (inr (if bool_decide (factor1 ∈ valid_factors
                          ∧ factor2 ∈ valid_factors)
          then Placeholder
                 ("Comparison between " +:+ factor1 +:+ " and " +:+ factor2
                  +:+ " would require extracting position metadata")
          else InvalidFactors "Invalid factors for comparison"), db)
  ∧ ∀ rows db',
      get_comparative_analysis user_id factor1 factor2 db
      ≠ (inr (TimeBuckets rows), db').
Proof.
  assert (Hrun : get_comparative_analysis user_id factor1 factor2 db
    = (inr (if bool_decide (factor1 ∈ valid_factors
                            ∧ factor2 ∈ valid_factors)
            then Placeholder
                   ("Comparison between " +:+ factor1 +:+ " and "
                    +:+ factor2
                    +:+ " would require extracting position metadata")
            else InvalidFactors "Invalid factors for comparison"), db)).
  { unfold get_comparative_analysis. run_M.
    destruct (decide (factor1 ∈ valid_factors)) as [H1|H1].
    - destruct (decide (factor2 ∈ valid_factors)) as [H2|H2].
      + rewrite (bool_decide_eq_true_2 _ H1), (bool_decide_eq_true_2 _ H2),
          (bool_decide_eq_true_2 _ (conj H1 H2)).
        cbn [negb orb].
        assert (Hres : String.eqb factor2 "result" = false).
        { apply String.eqb_neq. intros ->. revert H2.
          unfold valid_factors. intros H2.
          repeat (apply elem_of_cons in H2 as [H2|H2]; [discriminate|]).
          by apply elem_of_nil in H2. }
        rewrite Hres, andb_false_r. reflexivity.
      + rewrite (bool_decide_eq_true_2 _ H1), (bool_decide_eq_false_2 _ H2).
        rewrite (bool_decide_eq_false_2
                   (factor1 ∈ valid_factors ∧ factor2 ∈ valid_factors))
          by tauto.
        reflexivity.
    - rewrite (bool_decide_eq_false_2 _ H1).
      rewrite (bool_decide_eq_false_2
                 (factor1 ∈ valid_factors ∧ factor2 ∈ valid_factors))
        by tauto.
      reflexivity. }
  split; [exact Hrun|]. intros rows db'. rewrite Hrun.
  by destruct (bool_decide _).
Qed.
